(** * MAS group formation: matching and allocation engine

    A shallow embedding of the matching and allocation code of the
    repository (agents/matcher_agent.py, agents/matcher_agent_ga.py,
    agents/coordinator_agent.py) together with the properties of it that the
    design document states.

    Conventions of the embedding.
    - Python floats are exact rationals ([Q]); [round(x, 3)] rounds the exact
      value, ties to even. Binary floating point can decide a comparison
      differently from exact arithmetic when the two sides are within
      rounding distance of each other, so the theorems about a threshold
      are stated at a distance from it and those about a best candidate
      leave the choice among equals open.
    - A row fetched from the database is a record; a Python [set] of strings
      is a [gset string]; the personality row (a [dict]) is a
      [gmap string Q] holding its numeric entries.
    - A Python exception is an [Error] result, and a loop that can be seen
      to never finish is the [Diverges] result.
    - The global random generator is a stream of raw draws with a position;
      every library call consumes one draw. *)

From Stdlib Require Import QArith Qround Qabs Qminmax Lia Lqa.
From stdpp Require Import gmap strings list sorting pretty.

Local Open Scope Q_scope.

(** ** Python primitives *)

Module Py.

(** Exceptions the engine can raise. *)
Inductive exn : Type :=
| ValueError
| IndexError
| ZeroDivisionError.

(** Outcome of a call: a value, an exception, or no return at all. *)
Inductive result (A : Type) : Type :=
| Ok (a : A)
| Error (e : exn)
| Diverges.
Arguments Ok {A} a.
Arguments Error {A} e.
Arguments Diverges {A}.

Definition bind {A B} (m : result A) (k : A -> result B) : result B :=
  match m with
  | Ok a => k a
  | Error e => Error e
  | Diverges => Diverges
  end.

(** The outcome type is a monad; [x ← m; k] sequences calls and
    propagates the first exception. *)
#[global] Instance result_ret : MRet result := @Ok.
#[global] Instance result_bind : MBind result := fun A B k m => bind m k.

Definition ltb (x y : Q) : bool :=
  match Qcompare x y with Lt => true | _ => false end.

Definition leb (x y : Q) : bool :=
  match Qcompare x y with Gt => false | _ => true end.

(** [max(a, b)] and [min(a, b)] on two numbers: the first argument wins
    a tie. *)
Definition max2 (a b : Q) : Q := if ltb a b then b else a.
Definition min2 (a b : Q) : Q := if ltb b a then b else a.

Definition of_nat (n : nat) : Q := inject_Z (Z.of_nat n).

(** Nearest integer, ties to the even one. *)
Definition round_half_even (x : Q) : Z :=
  let f := Qfloor x in
  match Qcompare (x - inject_Z f) (1 # 2) with
  | Lt => f
  | Gt => (f + 1)%Z
  | Eq => if Z.even f then f else (f + 1)%Z
  end.

(** [round(x, 3)]. *)
Definition round3 (x : Q) : Q := Qmake (round_half_even (x * 1000)) 1000.

(** [sum(l)] of a list of numbers. *)
Definition sum (l : list Q) : Q := foldl Qplus 0 l.

(** [max(l, key=...)] for a key compared with [lt]: the first maximal
    element; [ValueError] on an empty sequence. *)
Definition first_max {A} (lt : A -> A -> bool) (x : A) (rest : list A) : A :=
  foldl (fun best y => if lt best y then y else best) x rest.

Definition max_with {A} (lt : A -> A -> bool) (l : list A) : result A :=
  match l with
  | [] => Error ValueError
  | x :: rest => Ok (first_max lt x rest)
  end.

(** [a / b] where [b] may be zero. *)
Definition div (a b : Q) : result Q :=
  if Qeq_bool b 0 then Error ZeroDivisionError else Ok (a / b).

(** [sorted(l, key=..., reverse=True)]: descending and stable, an element
    goes in front of the first one whose key is not greater. *)
Fixpoint insert_desc {A} (key : A -> nat) (x : A) (l : list A) : list A :=
  match l with
  | [] => [x]
  | y :: l' =>
      if decide (key x < key y)%nat then y :: insert_desc key x l'
      else x :: l
  end.

Definition sorted_desc {A} (key : A -> nat) (l : list A) : list A :=
  foldr (insert_desc key) [] l.

(** Position of the element [min(l, key=len)] returns: the first one
    whose key is smallest. [ks] are the keys in list order. *)
Fixpoint min_index_go (ks : list nat) (i best_i best_k : nat) : nat :=
  match ks with
  | [] => best_i
  | k :: rest =>
      if decide (k < best_k)%nat then min_index_go rest (S i) i k
      else min_index_go rest (S i) best_i best_k
  end.

Definition first_min (k : nat) (rest : list nat) : nat :=
  min_index_go rest 1 0 k.

Definition min_index (ks : list nat) : result nat :=
  match ks with
  | [] => Error ValueError
  | k :: rest => Ok (first_min k rest)
  end.

(** [l.remove(x)]: drops the first occurrence, [ValueError] if there is
    none. *)
Fixpoint remove (x : nat) (l : list nat) : result (list nat) :=
  match l with
  | [] => Error ValueError
  | y :: l' =>
      if decide (x = y) then Ok l'
      else l'' ← remove x l'; Ok (y :: l'')
  end.

(** [l[i]] *)
Definition index {A} (l : list A) (i : nat) : result A :=
  match l !! i with
  | Some x => Ok x
  | None => Error IndexError
  end.

End Py.

(** ** The random generator *)

Module Random.

(** The generator: an unbounded stream of raw draws and the number of
    draws consumed so far. *)
Record state : Type := { draws : nat -> N; pos : nat }.

Definition next (g : state) : N * state :=
  (draws g (pos g), {| draws := draws g; pos := S (pos g) |}).

(** [random.random()]: 53 bits scaled into [0, 1). *)
Definition random (g : state) : Q * state :=
  let '(r, g') := next g in
  (Qmake (Z.of_N (r mod 2 ^ 53)) (2 ^ 53), g').

(** A draw below [n] (for [n > 0]). *)
Definition randbelow (n : nat) (g : state) : nat * state :=
  let '(r, g') := next g in (N.to_nat (r mod N.of_nat n), g').

(** [random.choice(seq)] *)
Definition choice {A} (seq : list A) (g : state) : Py.result (A * state) :=
  match seq with
  | [] => Py.Error Py.IndexError
  | _ =>
      let '(i, g') := randbelow (length seq) g in
      x ← Py.index seq i; Py.Ok (x, g')
  end.

(** [random.randint(a, b)]: a draw in [a, b], [ValueError] on an empty
    range. *)
Definition randint (a b : nat) (g : state) : Py.result (nat * state) :=
  if decide (b < a)%nat then Py.Error Py.ValueError
  else
    let '(i, g') := randbelow (b - a + 1) g in
    Py.Ok ((a + i)%nat, g').

(** Code that draws: a function of the generator returning an outcome
    and the generator after the draws. *)
Definition rand (A : Type) : Type := state -> Py.result (A * state).

#[global] Instance rand_ret : MRet rand :=
  fun A (a : A) g => Py.Ok (a, g).
#[global] Instance rand_bind : MBind rand :=
  fun A B (k : A -> rand B) (m : rand A) g =>
    match m g with
    | Py.Ok (a, g') => k a g'
    | Py.Error e => Py.Error e
    | Py.Diverges => Py.Diverges
    end.

(** A call that does not draw. *)
Definition lift {A} (r : Py.result A) : rand A :=
  fun g => match r with
           | Py.Ok a => Py.Ok (a, g)
           | Py.Error e => Py.Error e
           | Py.Diverges => Py.Diverges
           end.

Definition random' : rand Q := fun g => Py.Ok (random g).

(** [tools.initRepeat(list, f, n)]: [n] successive calls of [f]. *)
Fixpoint init_repeat {A} (f : rand A) (n : nat) : rand (list A) :=
  match n with
  | O => mret []
  | S n' => x ← f; xs ← init_repeat f n'; mret (x :: xs)
  end.

End Random.


(** ** Student records *)

(** A row of [technical_skills]. *)
Record skill : Type := {
  skill_name : string;
  proficiency_level : string;
  years_experience : Q
}.

(** A row of [availability] (only rows marked available are fetched). *)
Record slot : Type := {
  day_of_week : string;
  time_slot : string
}.

(** A student with the profile [fetch_students] attaches to it. [gwa] is
    [None] for a NULL grade; [traits] is the empty map when the student has
    no personality row. *)
Record student : Type := {
  student_id : Z;
  gwa : option Q;
  skills : list skill;
  traits : gmap string Q;
  availability : list slot
}.

Definition skill_names (s : student) : gset string :=
  list_to_set (map skill_name (skills s)).

(** [f"{a['day_of_week']}_{a['time_slot']}"] *)
Definition slot_key (a : slot) : string :=
  (day_of_week a +:+ "_" +:+ time_slot a)%string.

Definition avail_keys (s : student) : gset string :=
  list_to_set (map slot_key (availability s)).

(** [traits.get(key, 3)] *)
Definition trait_get (t : gmap string Q) (key : string) : Q :=
  default 3 (t !! key).

(** A formed group, as both formation strategies return it. *)
Record group : Type := {
  group_num : nat;
  members : list student;
  compatibility_score : Q
}.

(** The pairwise score matrix, [matrix[i][j]]. *)
Definition mat_get (matrix : list (list Q)) (i j : nat) : Py.result Q :=
  row ← Py.index matrix i; Py.index row j.

(** The index pairs [(group[i], group[j])], [i < j], in the order the
    nested loops visit them. *)
Fixpoint index_pairs (grp : list nat) : list (nat * nat) :=
  match grp with
  | [] => []
  | x :: rest => map (fun y => (x, y)) rest ++ index_pairs rest
  end.

(** Mean of the pair scores inside a group, 0 for a group without pairs. *)
Definition group_avg_compat (matrix : list (list Q)) (grp : list nat)
  : Py.result Q :=
  xs ← mapM (fun p => mat_get matrix (fst p) (snd p)) (index_pairs grp);
  let group_compat := Py.sum xs in
  let count := length xs in
  Py.Ok (if decide (0 < count)%nat then group_compat / Py.of_nat count else 0).

(** [matrix[i][j] = v] *)
Definition mat_set (matrix : list (list Q)) (i j : nat) (v : Q)
  : Py.result (list (list Q)) :=
  row ← Py.index matrix i;
  if decide (j < length row)%nat
  then Py.Ok (<[i := <[j := v]> row]> matrix)
  else Py.Error Py.IndexError.

(** The nested loops of [create_compatibility_matrix], for a scoring
    function [score]: the inner loop over [j] for a row [i], and the outer
    loop over the rows. *)
Fixpoint fill_row (score : student -> student -> Q) (students : list student)
    (matrix : list (list Q)) (i : nat) (js : list nat)
  : Py.result (list (list Q)) :=
  match js with
  | [] => Py.Ok matrix
  | j :: rest =>
      si ← Py.index students i;
      sj ← Py.index students j;
      let s := score si sj in
      matrix1 ← mat_set matrix i j s;
      matrix2 ← mat_set matrix1 j i s;
      fill_row score students matrix2 i rest
  end.

Fixpoint fill_rows (score : student -> student -> Q) (students : list student)
    (matrix : list (list Q)) (rows : list nat) : Py.result (list (list Q)) :=
  match rows with
  | [] => Py.Ok matrix
  | i :: rest =>
      let n := length students in
      matrix' ← fill_row score students matrix i (seq (i + 1) (n - (i + 1)));
      fill_rows score students matrix' rest
  end.

Definition fill_matrix (score : student -> student -> Q)
    (students : list student) : Py.result (list (list Q)) :=
  let n := length students in
  fill_rows score students (replicate n (replicate n 0)) (seq 0 n).

(** What [save_groups_to_database] sends to the database: a row for
    [groups] per group and a row for [group_members] per member. *)
Record group_row : Type := {
  row_name : string;
  row_score : Q;
  row_status : string
}.

Record member_row : Type := {
  row_group_id : Z;
  row_student_id : Z;
  row_role : string
}.

(** The member rows of one saved group: the first member is the leader. *)
Definition member_rows (group_id : Z) (ms : list student) : list member_row :=
  imap (fun idx m =>
          {| row_group_id := group_id; row_student_id := student_id m;
             row_role := if decide (idx = 0)%nat then "Leader" else "Member" |})
       ms.

(** The loop of [save_groups_to_database]. [insert_id k] is what the
    database returns for the [k]-th group insert, [None] when the insert
    fails; members are written only for a true id. The result is the count
    of saved groups and the rows sent to the two tables. *)
Fixpoint save_groups_loop (prefix : string) (insert_id : nat -> option Z)
    (k : nat) (groups : list group)
  : nat * list group_row * list member_row :=
  match groups with
  | [] => (O, [], [])
  | grp :: rest =>
      let '(saved_count, group_rows, rows) :=
        save_groups_loop prefix insert_id (S k) rest in
      let group_name := (prefix +:+ pretty (group_num grp))%string in
      let row := {| row_name := group_name;
                    row_score := compatibility_score grp;
                    row_status := "Active" |} in
      match insert_id k with
      | Some group_id =>
          if decide (group_id = 0)%Z
          then (saved_count, row :: group_rows, rows)
          else (S saved_count, row :: group_rows,
                member_rows group_id (members grp) ++ rows)
      | None => (saved_count, row :: group_rows, rows)
      end
  end.

(** ** MatcherAgent: the weighted-score model and the greedy constructor *)

Module MatcherAgent.

Definition min_group_size : nat := 3.
Definition max_group_size : nat := 5.

Definition calculate_skill_diversity (student1 student2 : student) : Q :=
  let skills1 := skill_names student1 in
  let skills2 := skill_names student2 in
  if decide (skills1 = ∅ ∨ skills2 = ∅) then 0.5
  else
    let total_skills := skills1 ∪ skills2 in
    let common_skills := skills1 ∩ skills2 in
    let overlap_ratio :=
      if decide (total_skills = ∅) then 0
      else Py.of_nat (size common_skills) / Py.of_nat (size total_skills) in
    let diversity_score := 1 - Qabs (overlap_ratio - 0.5) * 2 in
    Py.max2 0 diversity_score.

Definition calculate_gwa_balance (student1 student2 : student) : Q :=
  match gwa student1, gwa student2 with
  | Some gwa1, Some gwa2 =>
      let norm_gwa1 := (5 - gwa1) / 4 in
      let norm_gwa2 := (5 - gwa2) / 4 in
      let gwa_diff := Qabs (norm_gwa1 - norm_gwa2) in
      if Py.leb 0.2 gwa_diff && Py.leb gwa_diff 0.5 then 1
      else if Py.ltb gwa_diff 0.2 then 0.7
      else 0.6
  | _, _ => 0.5
  end.

Definition calculate_schedule_overlap (student1 student2 : student) : Q :=
  let avail1 := avail_keys student1 in
  let avail2 := avail_keys student2 in
  if decide (avail1 = ∅ ∨ avail2 = ∅) then 0.5
  else
    let common_slots := avail1 ∩ avail2 in
    let total_possible := size (avail1 ∪ avail2) in
    if decide (0 < total_possible)%nat
    then Py.of_nat (size common_slots) / Py.of_nat total_possible
    else 0.

Definition calculate_personality_compatibility
    (student1 student2 : student) : Q :=
  let traits1 := traits student1 in
  let traits2 := traits student2 in
  if decide (traits1 = ∅ ∨ traits2 = ∅) then 0.5
  else
    let consc_diff :=
      Qabs (trait_get traits1 "conscientiousness"
            - trait_get traits2 "conscientiousness") in
    let consc_score := 1 - consc_diff / 4 in
    let agree_avg :=
      (trait_get traits1 "agreeableness"
       + trait_get traits2 "agreeableness") / 2 in
    let agree_score := agree_avg / 5 in
    let extra_diff :=
      Qabs (trait_get traits1 "extraversion"
            - trait_get traits2 "extraversion") in
    let extra_score := extra_diff / 4 in
    consc_score * 0.4 + agree_score * 0.4 + extra_score * 0.2.

(** The weighted sum before rounding. *)
Definition overall_score (student1 student2 : student) : Q :=
  let skill_score := calculate_skill_diversity student1 student2 in
  let gwa_score := calculate_gwa_balance student1 student2 in
  let schedule_score := calculate_schedule_overlap student1 student2 in
  let personality_score :=
    calculate_personality_compatibility student1 student2 in
  skill_score * 0.30 + gwa_score * 0.20
  + schedule_score * 0.30 + personality_score * 0.20.

Definition calculate_compatibility (student1 student2 : student) : Q :=
  Py.round3 (overall_score student1 student2).

(** [matrix[i][j]] holds the score computed for the pair taken in index
    order; the diagonal stays 0. *)
Definition create_compatibility_matrix (students : list student)
  : list (list Q) :=
  imap (fun i si =>
    imap (fun j sj =>
      if decide (i < j)%nat then calculate_compatibility si sj
      else if decide (j < i)%nat then calculate_compatibility sj si
      else 0) students) students.

(** The [for candidate in ungrouped] scan of [form_groups_simple]. *)
Fixpoint best_candidate_loop (compat_matrix : list (list Q))
    (grp ungrouped : list nat) (best_candidate : option nat)
    (best_score : Q) : Py.result (option nat) :=
  match ungrouped with
  | [] => Py.Ok best_candidate
  | candidate :: rest =>
      xs ← mapM (fun member => mat_get compat_matrix candidate member) grp;
      let avg_compat := Py.sum xs / Py.of_nat (length grp) in
      if Py.ltb best_score avg_compat
      then best_candidate_loop compat_matrix grp rest
             (Some candidate) avg_compat
      else best_candidate_loop compat_matrix grp rest
             best_candidate best_score
  end.

(** The [while len(group) < target_group_size and ungrouped] loop; [k]
    is [target_group_size - len(group)]. A pass that finds no candidate
    changes nothing, so the loop never ends. *)
Fixpoint add_most_compatible (compat_matrix : list (list Q)) (k : nat)
    (grp ungrouped : list nat) : Py.result (list nat * list nat) :=
  match k with
  | O => Py.Ok (grp, ungrouped)
  | S k' =>
      match ungrouped with
      | [] => Py.Ok (grp, ungrouped)
      | _ =>
          best ← best_candidate_loop compat_matrix grp ungrouped None (-1);
          match best with
          | None => Py.Diverges
          | Some best_candidate =>
              ungrouped' ← Py.remove best_candidate ungrouped;
              add_most_compatible compat_matrix k'
                (grp ++ [best_candidate]) ungrouped'
          end
      end
  end.

(** One pass of the outer loop picks the indices of the next group. *)
Definition next_group (compat_matrix : list (list Q))
    (target_group_size : nat) (ungrouped : list nat) (g : Random.state)
  : Py.result (list nat * list nat * Random.state) :=
  if decide (length ungrouped < target_group_size)%nat
  then Py.Ok (ungrouped, [], g)
  else
    '(first_student, g') ← Random.choice ungrouped g;
    ungrouped1 ← Py.remove first_student ungrouped;
    '(grp, ungrouped2) ←
      add_most_compatible compat_matrix (target_group_size - 1)
        [first_student] ungrouped1;
    Py.Ok (grp, ungrouped2, g').

(** The [while len(ungrouped) >= self.min_group_size] loop. Every pass
    shortens [ungrouped]; [fuel] is a bound on its length. *)
Fixpoint form_groups_loop (students : list student)
    (compat_matrix : list (list Q)) (target_group_size fuel : nat)
    (ungrouped : list nat) (groups : list group) (num : nat)
    (g : Random.state)
  : Py.result (list nat * list group * Random.state) :=
  match fuel with
  | O => Py.Ok (ungrouped, groups, g)
  | S fuel' =>
      if decide (min_group_size ≤ length ungrouped)%nat then
        '(grp, ungrouped', g') ←
          next_group compat_matrix target_group_size ungrouped g;
        avg_compat ← group_avg_compat compat_matrix grp;
        ms ← mapM (Py.index students) grp;
        let new_group :=
          {| group_num := num; members := ms;
             compatibility_score := Py.round3 avg_compat |} in
        form_groups_loop students compat_matrix target_group_size fuel'
          ungrouped' (groups ++ [new_group]) (S num) g'
      else Py.Ok (ungrouped, groups, g)
  end.

(** Leftover students join the group [min(groups, key=...)] returns. *)
Definition add_leftovers (students : list student)
    (ungrouped : list nat) (groups : list group)
  : Py.result (list group) :=
  match ungrouped with
  | [] => Py.Ok groups
  | _ =>
      smallest ← Py.min_index (map (fun grp => length (members grp)) groups);
      extra ← mapM (Py.index students) ungrouped;
      Py.Ok (alter (fun grp =>
                      {| group_num := group_num grp;
                         members := members grp ++ extra;
                         compatibility_score := compatibility_score grp |})
                   smallest groups)
  end.

Definition form_groups_simple (students : list student)
    (target_group_size : nat) (g : Random.state)
  : Py.result (list group * Random.state) :=
  let compat_matrix := create_compatibility_matrix students in
  let ungrouped := seq 0 (length students) in
  '(ungrouped', groups, g') ←
    form_groups_loop students compat_matrix target_group_size
      (length students) ungrouped [] 1 g;
  groups' ← add_leftovers students ungrouped' groups;
  Py.Ok (groups', g').

(** [run], with the database left out: [students] is what
    [fetch_students] loaded (no rows make it fail), and the second
    component of the result lists the groups handed to
    [save_groups_to_database]. Any exception is caught and turned into
    [False]. *)
Definition run (students : list student) (target_group_size : nat)
    (g : Random.state) : Py.result (bool * list group) :=
  match students with
  | [] => Py.Ok (false, [])
  | _ =>
      match form_groups_simple students target_group_size g with
      | Py.Ok ([], _) => Py.Ok (false, [])
      | Py.Ok (groups, _) => Py.Ok (true, groups)
      | Py.Error _ => Py.Ok (false, [])
      | Py.Diverges => Py.Diverges
      end
  end.

(** The matrix as the nested loops of [create_compatibility_matrix] fill
    it, entry by entry. *)
Definition create_compatibility_matrix_loops (students : list student)
  : Py.result (list (list Q)) :=
  fill_matrix calculate_compatibility students.

Definition save_groups_to_database (insert_id : nat -> option Z)
    (groups : list group) : nat * list group_row * list member_row :=
  save_groups_loop "Group " insert_id 0 groups.

End MatcherAgent.

(** ** MatcherAgentGA: the evolutionary search *)

Module MatcherAgentGA.

Import Random.

Definition min_group_size : nat := 3.
Definition max_group_size : nat := 5.

(** The search parameters [__init__] sets. *)
Record config : Type := {
  population_size : nat;
  generations : nat;
  crossover_prob : Q;
  mutation_prob : Q
}.

Definition default_config : config :=
  {| population_size := 50; generations := 100;
     crossover_prob := 0.7; mutation_prob := 0.2 |}.

(** Truth value of a number: zero is false. *)
Definition truthy (x : Q) : bool := negb (Qeq_bool x 0).

Definition calculate_compatibility (student1 student2 : student) : Q :=
  let skills1 := skill_names student1 in
  let skills2 := skill_names student2 in
  let skill_score :=
    if decide (skills1 ≠ ∅ ∧ skills2 ≠ ∅) then
      let total_skills := skills1 ∪ skills2 in
      let common_skills := skills1 ∩ skills2 in
      let overlap_ratio :=
        Py.of_nat (size common_skills) / Py.of_nat (size total_skills) in
      1 - Qabs (overlap_ratio - 0.5) * 2
    else 0.5 in
  let gwa_score :=
    match gwa student1, gwa student2 with
    | Some gwa1, Some gwa2 =>
        if truthy gwa1 && truthy gwa2 then
          let norm_gwa1 := (5 - gwa1) / 4 in
          let norm_gwa2 := (5 - gwa2) / 4 in
          let gwa_diff := Qabs (norm_gwa1 - norm_gwa2) in
          if Py.leb 0.2 gwa_diff && Py.leb gwa_diff 0.5 then 1
          else if Py.ltb gwa_diff 0.2 then 0.7
          else 0.6
        else 0.5
    | _, _ => 0.5
    end in
  let avail1 := avail_keys student1 in
  let avail2 := avail_keys student2 in
  let schedule_score :=
    if decide (avail1 ≠ ∅ ∧ avail2 ≠ ∅) then
      let common_slots := avail1 ∩ avail2 in
      let total_possible := size (avail1 ∪ avail2) in
      if decide (0 < total_possible)%nat
      then Py.of_nat (size common_slots) / Py.of_nat total_possible
      else 0
    else 0.5 in
  let traits1 := traits student1 in
  let traits2 := traits student2 in
  let personality_score :=
    if decide (traits1 ≠ ∅ ∧ traits2 ≠ ∅) then
      let consc_diff :=
        Qabs (trait_get traits1 "conscientiousness"
              - trait_get traits2 "conscientiousness") in
      let consc_score := 1 - consc_diff / 4 in
      let agree_avg :=
        (trait_get traits1 "agreeableness"
         + trait_get traits2 "agreeableness") / 2 in
      let agree_score := agree_avg / 5 in
      let extra_diff :=
        Qabs (trait_get traits1 "extraversion"
              - trait_get traits2 "extraversion") in
      let extra_score := extra_diff / 4 in
      consc_score * 0.4 + agree_score * 0.4 + extra_score * 0.2
    else 0.5 in
  let overall_score :=
    skill_score * 0.30 + gwa_score * 0.20
    + schedule_score * 0.30 + personality_score * 0.20 in
  Py.round3 overall_score.

Definition create_compatibility_matrix (students : list student)
  : list (list Q) :=
  imap (fun i si =>
    imap (fun j sj =>
      if decide (i < j)%nat then calculate_compatibility si sj
      else if decide (j < i)%nat then calculate_compatibility sj si
      else 0) students) students.

(** The scan of [decode_individual]: [i] is the position of the next
    gene, [groups] the groups emitted so far. *)
Fixpoint decode_scan (individual : list Q) (i : nat)
    (groups : list (list nat)) (current_group : list nat)
  : list (list nat) * list nat :=
  match individual with
  | [] => (groups, current_group)
  | gene :: rest =>
      let current_group := current_group ++ [i] in
      if Py.ltb 0.5 gene
         || bool_decide (max_group_size ≤ length current_group)%nat
      then
        if decide (min_group_size ≤ length current_group)%nat
        then decode_scan rest (S i) (groups ++ [current_group]) []
        else decode_scan rest (S i) groups current_group
      else decode_scan rest (S i) groups current_group
  end.

(** [smallest = min(groups, key=len); smallest.extend(current_group)] *)
Definition extend_smallest (groups : list (list nat))
    (current_group : list nat) : list (list nat) :=
  match groups with
  | [] => groups
  | first :: others =>
      alter (fun smallest => smallest ++ current_group)
            (Py.first_min (length first) (map length others)) groups
  end.

(** What [decode_individual] does with the scan's outcome. *)
Definition add_remaining (groups : list (list nat))
    (current_group : list nat) : list (list nat) :=
  match current_group with
  | [] => groups
  | _ =>
      if decide (min_group_size ≤ length current_group)%nat
      then groups ++ [current_group]
      else
        match groups with
        | [] => groups
        | _ => extend_smallest groups current_group
        end
  end.

Definition decode_individual (individual : list Q) (target_size : nat)
  : list (list nat) :=
  let '(groups, current_group) := decode_scan individual 0 [] [] in
  add_remaining groups current_group.

(** The [for group in groups] loop of [evaluate_grouping]. *)
Fixpoint evaluate_loop (compat_matrix : list (list Q)) (target_size : nat)
    (groups : list (list nat)) (total_fitness penalty : Q) : Py.result Q :=
  match groups with
  | [] => Py.Ok (total_fitness - penalty)
  | grp :: rest =>
      let penalty :=
        if decide (length grp < min_group_size
                   ∨ max_group_size < length grp)%nat
        then penalty + 100 else penalty in
      avg_compat ← group_avg_compat compat_matrix grp;
      let total_fitness := total_fitness + avg_compat in
      let total_fitness :=
        if decide (length grp = target_size) then total_fitness + 0.1
        else total_fitness in
      evaluate_loop compat_matrix target_size rest total_fitness penalty
  end.

Definition evaluate_grouping (compat_matrix : list (list Q))
    (individual : list Q) (target_size : nat) : Py.result Q :=
  let groups := decode_individual individual target_size in
  evaluate_loop compat_matrix target_size groups 0 0.

(** A genome with its fitness; [None] is an invalid (deleted or never
    assigned) fitness. *)
Record individual : Type := { genes : list Q; fitness : option Q }.

(** Order of the fitness objects (their weighted values are compared as
    tuples, the empty tuple first). *)
Definition fitness_ltb (a b : individual) : bool :=
  match fitness a, fitness b with
  | Some x, Some y => Py.ltb x y
  | None, Some _ => true
  | _, None => false
  end.

(** [tools.selRandom] and [tools.selTournament]. *)
Definition selRandom (individuals : list individual) (k : nat)
  : rand (list individual) :=
  init_repeat (choice individuals) k.

Definition selTournament (individuals : list individual) (k tournsize : nat)
  : rand (list individual) :=
  init_repeat
    (aspirants ← selRandom individuals tournsize;
     lift (Py.max_with fitness_ltb aspirants)) k.

(** [tools.cxTwoPoint] on the two gene lists. *)
Definition cxTwoPoint (ind1 ind2 : list Q) : rand (list Q * list Q) :=
  let size := (length ind1 `min` length ind2)%nat in
  cxpoint1 ← randint 1 size;
  cxpoint2 ← randint 1 (size - 1);
  let '(cxpoint1, cxpoint2) :=
    if decide (cxpoint1 ≤ cxpoint2)%nat then (cxpoint1, S cxpoint2)
    else (cxpoint2, cxpoint1) in
  let width := (cxpoint2 - cxpoint1)%nat in
  mret (take cxpoint1 ind1 ++ take width (drop cxpoint1 ind2)
                           ++ drop cxpoint2 ind1,
        take cxpoint1 ind2 ++ take width (drop cxpoint1 ind1)
                           ++ drop cxpoint2 ind2).

(** [tools.mutFlipBit]: a flipped gene becomes [float(not gene)]. *)
Definition flip (gene : Q) : Q := if truthy gene then 0 else 1.

Fixpoint mutFlipBit (ind : list Q) (indpb : Q) : rand (list Q) :=
  match ind with
  | [] => mret []
  | gene :: rest =>
      r ← random';
      let gene' := if Py.ltb r indpb then flip gene else gene in
      rest' ← mutFlipBit rest indpb;
      mret (gene' :: rest')
  end.

(** [tools.selBest(population, 1)[0]] *)
Definition selBest1 (population : list individual) : Py.result individual :=
  match population with
  | [] => Py.Error Py.IndexError
  | x :: rest => Py.Ok (Py.first_max fitness_ltb x rest)
  end.

Section Search.

Variable cfg : config.
Variable compat_matrix : list (list Q).
Variable target_group_size : nat.

Definition assign_fitness (ind : individual) : Py.result individual :=
  fit ← evaluate_grouping compat_matrix (genes ind) target_group_size;
  Py.Ok {| genes := genes ind; fitness := Some fit |}.

(** The crossover loop over [zip(offspring[::2], offspring[1::2])]. *)
Fixpoint crossover_loop (offspring : list individual)
  : rand (list individual) :=
  match offspring with
  | child1 :: child2 :: rest =>
      r ← random';
      '(child1, child2) ←
        (if Py.ltb r (crossover_prob cfg) then
           '(genes1, genes2) ← cxTwoPoint (genes child1) (genes child2);
           mret ({| genes := genes1; fitness := None |},
                 {| genes := genes2; fitness := None |})
         else mret (child1, child2));
      rest' ← crossover_loop rest;
      mret (child1 :: child2 :: rest')
  | _ => mret offspring
  end.

Definition mutate_one (mutant : individual) : rand individual :=
  r ← random';
  if Py.ltb r (mutation_prob cfg) then
    genes' ← mutFlipBit (genes mutant) 0.05;
    mret {| genes := genes'; fitness := None |}
  else mret mutant.

Definition reevaluate (ind : individual) : Py.result individual :=
  match fitness ind with
  | None => assign_fitness ind
  | Some _ => Py.Ok ind
  end.

(** One pass of the generation loop. *)
Definition generation (population : list individual)
  : rand (list individual) :=
  population ← lift (mapM assign_fitness population);
  offspring ← selTournament population (length population) 3;
  offspring ← crossover_loop offspring;
  offspring ← mapM mutate_one offspring;
  lift (mapM reevaluate offspring).

Fixpoint evolve (gens : nat) (population : list individual)
  : rand (list individual) :=
  match gens with
  | O => mret population
  | S gens' =>
      population' ← generation population;
      evolve gens' population'
  end.

(** [toolbox.population(n=self.population_size)] for [n] students. *)
Definition initial_population (n : nat) : rand (list individual) :=
  init_repeat
    (genes0 ← init_repeat random' n;
     mret {| genes := genes0; fitness := None |})
    (population_size cfg).

(** The search of [form_groups_ga]: the initial population, the final
    one, and the best individual [selBest] picks from the latter with
    the fitness read from it. *)
Definition search (n : nat)
  : rand (list individual * list individual * individual * Q) :=
  population0 ← initial_population n;
  population ← evolve (generations cfg) population0;
  best_individual ← lift (selBest1 population);
  best_fitness ← lift (match fitness best_individual with
                       | Some fit => Py.Ok fit
                       | None => Py.Error Py.IndexError
                       end);
  mret (population0, population, best_individual, best_fitness).

Definition build_group (students : list student) (idx : nat)
    (group_indices : list nat) : Py.result group :=
  ms ← mapM (Py.index students) group_indices;
  avg_compat ← group_avg_compat compat_matrix group_indices;
  Py.Ok {| group_num := S idx; members := ms;
           compatibility_score := Py.round3 avg_compat |}.

Definition form_groups_ga (students : list student) : rand (list group) :=
  '(_, _, best_individual, _) ← search (length students);
  let best_groups :=
    decode_individual (genes best_individual) target_group_size in
  lift (mapM (fun p => build_group students (fst p) (snd p))
             (imap (fun idx grp => (idx, grp)) best_groups)).

End Search.

(** The matrix as the nested loops of [create_compatibility_matrix] fill
    it, entry by entry. *)
Definition create_compatibility_matrix_loops (students : list student)
  : Py.result (list (list Q)) :=
  fill_matrix calculate_compatibility students.

Definition save_groups_to_database (insert_id : nat -> option Z)
    (groups : list group) : nat * list group_row * list member_row :=
  save_groups_loop "GA Group " insert_id 0 groups.

(** [run], with the database left out as for [MatcherAgent.run]: [students]
    is what [fetch_students] loaded, the second component of the result
    lists the groups handed to [save_groups_to_database], and any
    exception is caught and turned into [False]. *)
Definition run (cfg : config) (students : list student)
    (target_group_size : nat) (g : Random.state)
  : Py.result (bool * list group) :=
  match students with
  | [] => Py.Ok (false, [])
  | _ =>
      let compat_matrix := create_compatibility_matrix students in
      match form_groups_ga cfg compat_matrix target_group_size students g with
      | Py.Ok ([], _) => Py.Ok (false, [])
      | Py.Ok (groups, _) => Py.Ok (true, groups)
      | Py.Error _ => Py.Ok (false, [])
      | Py.Diverges => Py.Diverges
      end
  end.

End MatcherAgentGA.

(** ** CoordinatorAgent: task allocation *)

Module CoordinatorAgent.

(** A pending task of a group, after its required-skills text has been
    split into a list. *)
Record task : Type := {
  task_id : Z;
  task_name : string;
  required_skills : list string;
  complexity_level : string;
  estimated_hours : Q
}.

(** A group member with the running workload. *)
Record member : Type := {
  member_id : Z;
  first_name : string;
  member_skills : list skill;
  assigned_hours : Q;
  assigned_tasks : list task
}.

(** [{s['skill_name']: s for s in member['skills']}]: a later row
    replaces an earlier one of the same name. *)
Definition skills_by_name (m : member) : gmap string skill :=
  foldl (fun d s => <[skill_name s := s]> d) ∅ (member_skills m).

Definition proficiency_weight (proficiency : string) : Q :=
  if decide (proficiency = "Expert") then 1
  else if decide (proficiency = "Advanced") then 0.8
  else if decide (proficiency = "Intermediate") then 0.6
  else if decide (proficiency = "Beginner") then 0.3
  else 0.

(** What one required skill adds to [match_score]. *)
Definition skill_points (d : gmap string skill) (name : string) : Q :=
  match d !! name with
  | Some s => proficiency_weight (proficiency_level s)
  | None => 0
  end.

Definition calculate_skill_match (m : member) (t : task) : Q :=
  match required_skills t with
  | [] => 0.5
  | _ =>
      let required : gset string := list_to_set (required_skills t) in
      let d := skills_by_name m in
      if decide (d = ∅) then 0.1
      else
        let match_score := Py.sum (map (skill_points d) (elements required)) in
        let final_score :=
          if decide (required = ∅) then 0
          else match_score / Py.of_nat (size required) in
        Py.min2 final_score 1
  end.

Definition complexity_order (level : string) : nat :=
  if decide (level = "High") then 3
  else if decide (level = "Medium") then 2
  else if decide (level = "Low") then 1
  else 0.

Definition tasks_sorted (tasks : list task) : list task :=
  Py.sorted_desc (fun t => complexity_order (complexity_level t)) tasks.

(** An entry of [candidates]; [cand_index] is the member's position. *)
Record candidate : Type := {
  cand_index : nat;
  cand_score : Q;
  cand_skill_match : Q
}.

Definition score_member (members : list member) (t : task)
    (i : nat) (m : member) : Py.result candidate :=
  let skill_match := calculate_skill_match m t in
  let avg_workload :=
    Py.sum (map assigned_hours members) / Py.of_nat (length members) in
  ratio ← Py.div (assigned_hours m) (avg_workload + 0.1);
  let workload_factor := 1 - ratio in
  let score := skill_match * 0.7 + workload_factor * 0.3 in
  Py.Ok {| cand_index := i; cand_score := score;
           cand_skill_match := skill_match |}.

(** A task bound to the member chosen for it. *)
Record assignment : Type := {
  a_task : task;
  a_member : nat;
  a_skill_match : Q
}.

Definition assign_to (t : task) (m : member) : member :=
  {| member_id := member_id m; first_name := first_name m;
     member_skills := member_skills m;
     assigned_hours := assigned_hours m + estimated_hours t;
     assigned_tasks := assigned_tasks m ++ [t] |}.

(** One pass of the allocation loop. *)
Definition allocate_one (members : list member) (t : task)
  : Py.result (assignment * list member) :=
  candidates ← mapM (fun p => score_member members t (fst p) (snd p))
                    (imap (fun i m => (i, m)) members);
  best_candidate ←
    Py.max_with (fun a b => Py.ltb (cand_score a) (cand_score b)) candidates;
  Py.Ok ({| a_task := t; a_member := cand_index best_candidate;
            a_skill_match := cand_skill_match best_candidate |},
         alter (assign_to t) (cand_index best_candidate) members).

(** The allocation loop: the assignments made, in order, and how the
    loop ended. *)
Fixpoint allocate_loop (members : list member) (tasks : list task)
  : list assignment * Py.result (list member) :=
  match tasks with
  | [] => ([], Py.Ok members)
  | t :: rest =>
      match allocate_one members t with
      | Py.Ok (a, members') =>
          let '(more, outcome) := allocate_loop members' rest in
          (a :: more, outcome)
      | Py.Error e => ([], Py.Error e)
      | Py.Diverges => ([], Py.Diverges)
      end
  end.

Definition reset_workload (m : member) : member :=
  {| member_id := member_id m; first_name := first_name m;
     member_skills := member_skills m;
     assigned_hours := 0; assigned_tasks := [] |}.

(** [allocate_tasks] for the pending [tasks] of a group: the assignments
    written, in order, and the outcome of the call. *)
Definition allocate_tasks (members : list member) (tasks : list task)
  : list assignment * Py.result (list member) :=
  match tasks with
  | [] => ([], Py.Ok members)
  | _ => allocate_loop (map reset_workload members) (tasks_sorted tasks)
  end.

Definition workload_threshold : Q := 0.15.

(** An active group as [fetch_groups] loads it. *)
Record member_group : Type := {
  group_name : string;
  group_members : list member
}.

(** The risks [flag_at_risk_groups] collects for one group: the members
    whose hours are off the group average by more than the threshold,
    each with its variance (the data of the message). *)
Definition member_risks (members : list member) : list (string * Q) :=
  if decide (1 < length members)%nat then
    let total_hours := Py.sum (map assigned_hours members) in
    let avg_hours := total_hours / Py.of_nat (length members) in
    omap (fun m =>
            let variance :=
              if Py.ltb 0 avg_hours
              then Qabs (assigned_hours m - avg_hours) / avg_hours
              else 0 in
            if Py.ltb workload_threshold variance
            then Some (first_name m, variance)
            else None) members
  else [].

Definition flag_at_risk_groups (groups : list member_group)
  : list (string * list (string * Q)) :=
  omap (fun grp =>
          match member_risks (group_members grp) with
          | [] => None
          | risks => Some (group_name grp, risks)
          end) groups.

End CoordinatorAgent.

(** * Predicates and sample data of the statements *)

(** The Big Five scores of a student lie on the 1-5 scale that
    [calculate_personality_compatibility] normalises by. *)
Definition traits_on_scale (s : student) : Prop :=
  map_Forall (fun _ v => 1 <= v <= 5) (traits s).

(** A student whose conscientiousness score is far off the scale, and one
    with ordinary scores. *)
Definition off_scale_student : student :=
  {| student_id := 1; gwa := None; skills := [];
     traits := {[ "conscientiousness"%string := 103 ]}; availability := [] |}.

Definition plain_student : student :=
  {| student_id := 2; gwa := Some 1.75;
     skills := [ {| skill_name := "Python"; proficiency_level := "Expert";
                    years_experience := 2 |} ];
     traits := {[ "conscientiousness"%string := 3 ]};
     availability := [ {| day_of_week := "Monday"; time_slot := "8:00-10:00" |} ] |}.

Definition bare_student : student :=
  {| student_id := 3; gwa := Some 2.5; skills := []; traits := ∅;
     availability := [] |}.

(** No grade of the student is the number zero. *)
Definition nonzero_gwa (s : student) : Prop :=
  forall v, gwa s = Some v -> ~ v == 0.

(** Two students without profile data, one with a grade of 0. *)
Definition zero_gwa_student : student :=
  {| student_id := 4; gwa := Some 0; skills := []; traits := ∅;
     availability := [] |}.

Definition low_gwa_student : student :=
  {| student_id := 8; gwa := Some 3.5; skills := []; traits := ∅;
     availability := [] |}.

Definition top_gwa_student : student :=
  {| student_id := 5; gwa := Some 1; skills := []; traits := ∅;
     availability := [] |}.

(** The member's row for a skill name: the last one listed under it. *)
Fixpoint last_row (name : string) (rows : list skill) : option skill :=
  match rows with
  | [] => None
  | s :: rest =>
      match last_row name rest with
      | Some s' => Some s'
      | None => if decide (skill_name s = name) then Some s else None
      end
  end.

(** The proficiency tiers and their weights as the design document lists
    them. *)
Definition documented_tiers : list (string * Q) :=
  [("Expert", 1); ("Advanced", 0.8); ("Intermediate", 0.6); ("Beginner", 0.3)]%string.

(** The documented weight of a proficiency level, 0 for a level the
    document does not list. *)
Definition documented_weight (proficiency : string) : Q :=
  match find (fun tier => bool_decide (tier.1 = proficiency)) documented_tiers with
  | Some tier => tier.2
  | None => 0
  end.

(** The documented weight a member brings to a skill, 0 when the member
    does not list it. *)
Definition member_weight (m : CoordinatorAgent.member) (name : string) : Q :=
  match last_row name (CoordinatorAgent.member_skills m) with
  | Some s => documented_weight (proficiency_level s)
  | None => 0
  end.

(** The skill match as the design document words it, over the distinct
    required skills. *)
Definition tier_weight_ratio (m : CoordinatorAgent.member)
    (t : CoordinatorAgent.task) : Q :=
  let distinct := remove_dups (CoordinatorAgent.required_skills t) in
  Py.min2 (Py.sum (map (member_weight m) distinct)
           / Py.of_nat (length distinct)) 1.

(** The formula of the design document taken for every member. *)
Definition skill_match_as_documented (m : CoordinatorAgent.member)
    (t : CoordinatorAgent.task) : Q :=
  match CoordinatorAgent.required_skills t with
  | [] => 0.5
  | _ => tier_weight_ratio m t
  end.

(** A member who lists no skill and one who lists two; a task that needs
    Python and Flask. *)
Definition unskilled_member : CoordinatorAgent.member :=
  {| CoordinatorAgent.member_id := 1; CoordinatorAgent.first_name := "Ana";
     CoordinatorAgent.member_skills := [];
     CoordinatorAgent.assigned_hours := 0;
     CoordinatorAgent.assigned_tasks := [] |}.

Definition skilled_member : CoordinatorAgent.member :=
  {| CoordinatorAgent.member_id := 2; CoordinatorAgent.first_name := "Ben";
     CoordinatorAgent.member_skills :=
       [ {| skill_name := "Python"; proficiency_level := "Expert";
            years_experience := 3 |};
         {| skill_name := "MySQL"; proficiency_level := "Beginner";
            years_experience := 1 |} ];
     CoordinatorAgent.assigned_hours := 0;
     CoordinatorAgent.assigned_tasks := [] |}.

(** A member who lists React alone, at a given level. *)
Definition react_row (level : string) : skill :=
  {| skill_name := "React"; proficiency_level := level; years_experience := 2 |}.

Definition specialist (level : string) : CoordinatorAgent.member :=
  {| CoordinatorAgent.member_id := 4; CoordinatorAgent.first_name := "Dee";
     CoordinatorAgent.member_skills := [react_row level];
     CoordinatorAgent.assigned_hours := 0;
     CoordinatorAgent.assigned_tasks := [] |}.

(** A task that needs the two skills that [skilled_member] lists. *)
Definition database_task : CoordinatorAgent.task :=
  {| CoordinatorAgent.task_id := 4;
     CoordinatorAgent.task_name := "Database Design";
     CoordinatorAgent.required_skills := ["Python"; "MySQL"]%string;
     CoordinatorAgent.complexity_level := "Medium";
     CoordinatorAgent.estimated_hours := 15 |}.

Definition backend_task : CoordinatorAgent.task :=
  {| CoordinatorAgent.task_id := 1;
     CoordinatorAgent.task_name := "Backend API Development";
     CoordinatorAgent.required_skills := ["Python"; "Flask"]%string;
     CoordinatorAgent.complexity_level := "High";
     CoordinatorAgent.estimated_hours := 25 |}.

Definition frontend_task : CoordinatorAgent.task :=
  {| CoordinatorAgent.task_id := 2;
     CoordinatorAgent.task_name := "Frontend Interface";
     CoordinatorAgent.required_skills := ["React"]%string;
     CoordinatorAgent.complexity_level := "Medium";
     CoordinatorAgent.estimated_hours := 18 |}.

Definition open_task : CoordinatorAgent.task :=
  {| CoordinatorAgent.task_id := 3;
     CoordinatorAgent.task_name := "Documentation";
     CoordinatorAgent.required_skills := [];
     CoordinatorAgent.complexity_level := "Low";
     CoordinatorAgent.estimated_hours := 10 |}.

(** [j] is the position of the first group of smallest size. *)
Definition first_smallest {A} (groups : list (list A)) (j : nat) : Prop :=
  exists smallest,
    groups !! j = Some smallest
    /\ (forall g, g ∈ groups -> (length smallest ≤ length g)%nat)
    /\ (forall j' g, (j' < j)%nat -> groups !! j' = Some g ->
                     (length smallest < length g)%nat).

(** The treatment of the scan's outcome that keeps a dangling undersized
    group as a group of its own when nothing was emitted. *)
Definition add_remaining_keeping (groups : list (list nat))
    (current_group : list nat) : list (list nat) :=
  match current_group with
  | [] => groups
  | _ =>
      if decide (MatcherAgentGA.min_group_size ≤ length current_group)%nat
      then groups ++ [current_group]
      else
        match groups with
        | [] => [current_group]
        | _ => MatcherAgentGA.extend_smallest groups current_group
        end
  end.

(** Genomes for two students and for thirteen. *)
Definition short_genome : list Q := [0.9; 0.1].

Definition long_genome : list Q :=
  [0.9; 0.1; 0.1; 0.9; 0.9; 0.9; 0.9; 0.1; 0.1; 0.1; 0.1; 0.1; 0.7].

(** Earlier elements of [l] never have a smaller key than later ones. *)
Definition descending_by {A} (key : A -> nat) (l : list A) : Prop :=
  forall i j x y, (i < j)%nat -> l !! i = Some x -> l !! j = Some y ->
                  (key y ≤ key x)%nat.

(** Elements of equal key stand in [output] in the order of [input]. *)
Definition keeps_input_order {A} (key : A -> nat) (input output : list A)
  : Prop :=
  forall k, filter (fun x => key x = k) output
            = filter (fun x => key x = k) input.

(** The complexity levels as the design document ranks them: High above
    Medium above Low. *)
Definition documented_ranks : list (string * nat) :=
  [("High", 3%nat); ("Medium", 2%nat); ("Low", 1%nat)]%string.

(** The documented rank of a level, 0 for a level the document does not
    list. *)
Definition documented_rank (level : string) : nat :=
  match find (fun rank => bool_decide (rank.1 = level)) documented_ranks with
  | Some rank => rank.2
  | None => 0%nat
  end.

(** The documented complexity tier of a task. *)
Definition tier (t : CoordinatorAgent.task) : nat :=
  documented_rank (CoordinatorAgent.complexity_level t).

(** No item of level [lower] stands in [l] before an item of level
    [higher]. *)
Definition never_ahead_of (lower higher : string)
    (l : list CoordinatorAgent.task) : Prop :=
  forall i j x y, (i < j)%nat -> l !! i = Some x -> l !! j = Some y ->
                  CoordinatorAgent.complexity_level x = lower ->
                  CoordinatorAgent.complexity_level y <> higher.

(** A generator whose every raw draw is 7. *)
Definition sevens : Random.state :=
  {| Random.draws := fun _ => 7%N; Random.pos := 0 |}.

(** Lookups of students that cannot fail fall back on a bare record. *)
#[global] Instance student_inhabited : Inhabited student := populate bare_student.

(** Every pair of positions below [n] has an entry in the matrix. *)
Definition matrix_covers (matrix : list (list Q)) (n : nat) : Prop :=
  forall i j, (i < n)%nat -> (j < n)%nat -> exists v, mat_get matrix i j = Py.Ok v.

(** A genome of [n] genes whose fitness, when it has one, is the value of
    [evaluate_grouping] on its genes. *)
Definition well_formed (matrix : list (list Q)) (target n : nat)
    (ind : MatcherAgentGA.individual) : Prop :=
  length (MatcherAgentGA.genes ind) = n
  /\ forall f, MatcherAgentGA.fitness ind = Some f ->
       MatcherAgentGA.evaluate_grouping matrix (MatcherAgentGA.genes ind) target
       = Py.Ok f.

(** The individual has a valid fitness. *)
Definition rated (ind : MatcherAgentGA.individual) : Prop :=
  is_Some (MatcherAgentGA.fitness ind).

(** Six students without profile data, and a generator for a run over
    them: the first genome drawn has all genes near 1, the other 49 have
    all genes 0, and every later draw is the largest one (it selects
    position 41 in a tournament and triggers neither crossover nor
    mutation). *)
Definition six_students : list student := replicate 6 bare_student.

Definition losing_draws (k : nat) : N :=
  if (k <? 6)%nat then 9007199254740991%N
  else if (k <? 300)%nat then 0%N
  else 9007199254740991%N.

Definition losing_stream : Random.state :=
  {| Random.draws := losing_draws; Random.pos := 0 |}.

(** The draws ahead of [g] are the draws ahead of [g']. *)
Definition follows (g g' : Random.state) : Prop :=
  forall k, Random.draws g (Random.pos g + k)
            = Random.draws g' (Random.pos g' + k).

(** A computation that depends on the generator only through the draws
    ahead of it. *)
Definition steady {A} (m : Random.rand A) : Prop :=
  forall g g', follows g g' ->
    match m g, m g' with
    | Py.Ok (a, g1), Py.Ok (a', g1') => a = a' /\ follows g1 g1'
    | Py.Error e, Py.Error e' => e = e'
    | Py.Diverges, Py.Diverges => True
    | _, _ => False
    end.

(** The state of the losing run after [p] draws. *)
Definition losing_after (p : nat) : Random.state :=
  {| Random.draws := losing_draws; Random.pos := p |}.

(** The two genomes of that run, its initial population, and the population
    it settles in after one generation. *)
Definition high_genome : list Q :=
  replicate 6 (Qmake 9007199254740991 9007199254740992).

Definition zero_genome : list Q := replicate 6 (Qmake 0 9007199254740992).

Definition fitness_of (genome : list Q) : Q :=
  match MatcherAgentGA.evaluate_grouping
          (MatcherAgentGA.create_compatibility_matrix six_students) genome 4 with
  | Py.Ok fit => fit
  | _ => 0
  end.

Definition losing_initial : list MatcherAgentGA.individual :=
  {| MatcherAgentGA.genes := high_genome; MatcherAgentGA.fitness := None |}
  :: replicate 49 {| MatcherAgentGA.genes := zero_genome;
                     MatcherAgentGA.fitness := None |}.

Definition settled_individual : MatcherAgentGA.individual :=
  {| MatcherAgentGA.genes := zero_genome;
     MatcherAgentGA.fitness := Some (fitness_of zero_genome) |}.

Definition settled : list MatcherAgentGA.individual :=
  replicate 50 settled_individual.



(** [matrix] is [n] by [n] and holds [f a b] at row [a], column [b]. *)
Definition matrix_is (n : nat) (f : nat -> nat -> Q) (matrix : list (list Q))
  : Prop :=
  length matrix = n
  /\ forall a, (a < n)%nat ->
       exists row, matrix !! a = Some row /\ length row = n
                   /\ forall b, (b < n)%nat -> row !! b = Some (f a b).

(** The entry the loops leave at row [a], column [b]: the score of the pair
    taken in index order, 0 on the diagonal. *)
Definition pair_entry (score : student -> student -> Q)
    (students : list student) (a b : nat) : Q :=
  if decide (a < b)%nat then score (students !!! a) (students !!! b)
  else if decide (b < a)%nat then score (students !!! b) (students !!! a)
  else 0.

(** The entries filled when the outer loop is at row [i] and the inner
    loop at column [j]. *)
Definition filled_entry (score : student -> student -> Q)
    (students : list student) (i j a b : nat) : Q :=
  if decide (a <> b /\ (a `min` b < i
                        \/ (a `min` b = i /\ a `max` b < j)))%nat
  then pair_entry score students a b
  else 0.

(** The grade sub-score as [MatcherAgentGA.calculate_compatibility] computes
    it inline: a grade of zero counts as a missing one. *)
Definition ga_gwa_score (student1 student2 : student) : Q :=
  match gwa student1, gwa student2 with
  | Some gwa1, Some gwa2 =>
      if MatcherAgentGA.truthy gwa1 && MatcherAgentGA.truthy gwa2 then
        let gwa_diff := Qabs ((5 - gwa1) / 4 - (5 - gwa2) / 4) in
        if Py.leb 0.2 gwa_diff && Py.leb gwa_diff 0.5 then 1
        else if Py.ltb gwa_diff 0.2 then 0.7
        else 0.6
      else 0.5
  | _, _ => 0.5
  end.

(** A student without any profile data: no skill, no slot, no personality
    row and no grade. *)
Definition empty_profile (s : student) : Prop :=
  skills s = [] /\ availability s = [] /\ traits s = ∅ /\ gwa s = None.

Definition blank_student : student :=
  {| student_id := 6; gwa := None; skills := []; traits := ∅;
     availability := [] |}.

(** The hours a list of tasks is estimated at. *)
Definition hours_of (ts : list CoordinatorAgent.task) : Q :=
  Py.sum (map CoordinatorAgent.estimated_hours ts).

(** A third member, for groups of three. *)
Definition idle_member : CoordinatorAgent.member :=
  {| CoordinatorAgent.member_id := 3; CoordinatorAgent.first_name := "Cora";
     CoordinatorAgent.member_skills :=
       [ {| skill_name := "React"; proficiency_level := "Advanced";
            years_experience := 1 |} ];
     CoordinatorAgent.assigned_hours := 0;
     CoordinatorAgent.assigned_tasks := [] |}.

(** The member's hours are the hours of the tasks the member holds. *)
Definition hours_match_tasks (m : CoordinatorAgent.member) : Prop :=
  CoordinatorAgent.assigned_hours m == hours_of (CoordinatorAgent.assigned_tasks m).

(** A group whose workload cannot be out of balance: at most one member,
    or all members at the same hours. *)
Definition balanced (members : list CoordinatorAgent.member) : Prop :=
  (length members ≤ 1)%nat
  \/ exists h, Forall (fun m => CoordinatorAgent.assigned_hours m == h) members.

(** A member who holds no task. *)
Definition idle (m : CoordinatorAgent.member) : Prop :=
  CoordinatorAgent.assigned_tasks m = [].

(** The database returned a true id for an insert. *)
Definition truthy_id (o : option Z) : bool :=
  match o with
  | Some group_id => negb (Z.eqb group_id 0)
  | None => false
  end.

(** The member rows that name a leader. *)
Definition leaders (rows : list member_row) : list member_row :=
  filter (fun r => row_role r = "Leader"%string) rows.

(** How many of the [n] inserts from the [k]-th on returned a true id. *)
Definition inserted (insert_id : nat -> option Z) (k n : nat) : nat :=
  length (filter (fun i => truthy_id (insert_id i)) (seq k n)).

(** A database that numbers the groups from 1 and one whose second insert
    fails; two groups to save. *)
Definition counting_ids (k : nat) : option Z := Some (Z.of_nat (S k)).

Definition failing_second (k : nat) : option Z :=
  if decide (k = 1)%nat then None else Some (Z.of_nat (S k)).

Definition two_groups : list group :=
  [ {| group_num := 1; members := [plain_student; bare_student; top_gwa_student];
       compatibility_score := 0.5 |};
    {| group_num := 2; members := [zero_gwa_student; bare_student; plain_student];
       compatibility_score := 0.5 |} ].

(** The groups above the maximum size. *)
Definition oversized (groups : list (list nat)) : list (list nat) :=
  filter (fun g => (MatcherAgentGA.max_group_size < length g)%nat) groups.

(** Every entry of the matrix at positions below [n] is a score between 0
    and 1. *)
Definition matrix_bounded (matrix : list (list Q)) (n : nat) : Prop :=
  forall i j, (i < n)%nat -> (j < n)%nat ->
    exists v, mat_get matrix i j = Py.Ok v /\ 0 <= v <= 1.

(** The groups are numbered 1, 2, ... in list order. *)
Definition numbered_from_one (groups : list group) : Prop :=
  map group_num groups = seq 1 (length groups).

(** The compatibility score of every group lies between 0 and 1. *)
Definition scores_in_range (groups : list group) : Prop :=
  Forall (fun grp => 0 <= compatibility_score grp <= 1) groups.

(** How many groups the greedy constructor forms out of [n] students for a
    target size: a group per full [target], and one more when the rest is
    at least a minimal group. *)
Definition groups_formed (n target : nat) : nat :=
  (n / target + (if decide (MatcherAgent.min_group_size ≤ n mod target)
                 then 1 else 0))%nat.

(** The students the loop leaves over for the smallest group. *)
Definition left_over (n target : nat) : nat :=
  if decide (MatcherAgent.min_group_size ≤ n mod target)%nat then 0%nat
  else (n mod target)%nat.

(** The average compatibility of a candidate with the members of a group,
    as the candidate scan computes it. *)
Definition avg_compat (matrix : list (list Q)) (grp : list nat)
    (candidate : nat) : Q :=
  match mapM (fun member => mat_get matrix candidate member) grp with
  | Py.Ok xs => Py.sum xs / Py.of_nat (length grp)
  | _ => 0
  end.

(** The tasks the allocations give to the member at position [i], in the
    order of allocation. *)
Definition tasks_given (allocations : list CoordinatorAgent.assignment)
    (i : nat) : list CoordinatorAgent.task :=
  map CoordinatorAgent.a_task
      (filter (fun a => CoordinatorAgent.a_member a = i) allocations).

(** The average hours of a group, as [flag_at_risk_groups] computes it. *)
Definition avg_hours (members : list CoordinatorAgent.member) : Q :=
  Py.sum (map CoordinatorAgent.assigned_hours members)
  / Py.of_nat (length members).

(** A group of two in which one member holds a task and the other none. *)
Definition lopsided_group : CoordinatorAgent.member_group :=
  {| CoordinatorAgent.group_name := "Group 1";
     CoordinatorAgent.group_members :=
       [CoordinatorAgent.assign_to backend_task skilled_member; unskilled_member] |}.

(** Two students have a personality row each, and the rows agree on the
    three traits the personality score reads. *)
Definition same_read_traits (a a' : student) : Prop :=
  traits a <> ∅ /\ traits a' <> ∅
  /\ traits a !! "conscientiousness"%string = traits a' !! "conscientiousness"%string
  /\ traits a !! "agreeableness"%string = traits a' !! "agreeableness"%string
  /\ traits a !! "extraversion"%string = traits a' !! "extraversion"%string.

(** A student with a full personality row. *)
Definition keen_student : student :=
  {| student_id := 9; gwa := Some 2;
     skills := [];
     traits := {[ "conscientiousness"%string := 5; "agreeableness"%string := 4;
                  "extraversion"%string := 2; "openness"%string := 4;
                  "neuroticism"%string := 2 ]};
     availability := [] |}.

(** The plain student with openness and neuroticism scores added. *)
Definition open_student : student :=
  {| student_id := 7; gwa := Some 1.75;
     skills := skills plain_student;
     traits := {[ "conscientiousness"%string := 3; "openness"%string := 5;
                  "neuroticism"%string := 1 ]};
     availability := availability plain_student |}.

(** What the loops of [create_compatibility_matrix] leave for a score
    function: a square matrix, symmetric, zero on the diagonal, holding for
    [i < j] the score of the students at [i] and [j] in that order. *)
Definition pairwise_matrix (score : student -> student -> Q)
    (students : list student) (matrix : list (list Q)) : Prop :=
  length matrix = length students
  /\ Forall (fun row => length row = length students) matrix
  /\ forall i j, (i < length students)%nat -> (j < length students)%nat ->
       mat_get matrix i j = mat_get matrix j i
       /\ mat_get matrix i i = Py.Ok 0
       /\ ((i < j)%nat ->
           mat_get matrix i j
           = Py.Ok (score (students !!! i) (students !!! j))).

(** A score as [round(x, 3)] leaves it: a whole number of thousandths. *)
Definition thousandths (v : Q) : Prop := exists k : Z, v == k # 1000.

(** * Properties *)

#[export] Instance ltb_proper : Proper (Qeq ==> Qeq ==> eq) Py.ltb.
Proof. intros x x' Hx y y' Hy. unfold Py.ltb. by rewrite Hx, Hy. Qed.

#[export] Instance leb_proper : Proper (Qeq ==> Qeq ==> eq) Py.leb.
Proof. intros x x' Hx y y' Hy. unfold Py.leb. by rewrite Hx, Hy. Qed.

#[export] Instance round_half_even_proper : Proper (Qeq ==> eq) Py.round_half_even.
Proof.
  intros x y Hxy. unfold Py.round_half_even.
  rewrite (Qfloor_comp _ _ Hxy).
  assert (H : x - inject_Z (Qfloor y) == y - inject_Z (Qfloor y)) by (by rewrite Hxy).
  by rewrite H.
Qed.

#[export] Instance round3_proper : Proper (Qeq ==> eq) Py.round3.
Proof. intros x y Hxy. unfold Py.round3. f_equal. apply round_half_even_proper. by rewrite Hxy. Qed.

(** ** Arithmetic of the Python primitives *)

Lemma ltb_lt x y : Py.ltb x y = true <-> x < y.
Proof. unfold Py.ltb. rewrite Qlt_alt. destruct (Qcompare x y); split; congruence. Qed.

Lemma ltb_ge x y : Py.ltb x y = false <-> y <= x.
Proof.
  unfold Py.ltb. rewrite Qle_alt, <- (Qcompare_antisym x y).
  destruct (Qcompare x y); simpl; split; congruence.
Qed.

Lemma leb_le x y : Py.leb x y = true <-> x <= y.
Proof. unfold Py.leb. rewrite Qle_alt. destruct (Qcompare x y); split; congruence. Qed.

Lemma round_half_even_bounds x :
  (Qfloor x <= Py.round_half_even x <= Qfloor x + 1)%Z.
Proof.
  unfold Py.round_half_even.
  destruct (Qcompare _ _); [destruct (Z.even _)| |]; lia.
Qed.

Lemma round_half_even_le x (n : Z) : x <= inject_Z n -> (Py.round_half_even x <= n)%Z.
Proof.
  intros Hx.
  destruct (Z_lt_le_dec (Qfloor x) n) as [Hlt|Hge].
  - pose proof (round_half_even_bounds x). lia.
  - assert (Hfl : (Qfloor x <= n)%Z).
    { rewrite <- (Qfloor_Z n). by apply Qfloor_resp_le. }
    assert (Heq : Qfloor x = n) by lia.
    unfold Py.round_half_even. rewrite Heq.
    pose proof (Qfloor_le x) as Hf. rewrite Heq in Hf.
    destruct (Qcompare (x - inject_Z n) (1 # 2)) eqn:Hc; [| lia |].
    + apply Qeq_alt in Hc. lra.
    + apply Qgt_alt in Hc. lra.
Qed.

Lemma round_half_even_ge x (n : Z) : inject_Z n <= x -> (n <= Py.round_half_even x)%Z.
Proof.
  intros Hx. pose proof (round_half_even_bounds x).
  assert (n <= Qfloor x)%Z; [|lia].
  rewrite <- (Qfloor_Z n). by apply Qfloor_resp_le.
Qed.

Lemma round3_range x : 0 <= x <= 1 -> 0 <= Py.round3 x <= 1.
Proof.
  intros [H0 H1]. unfold Py.round3.
  pose proof (round_half_even_ge (x * 1000) 0) as Hlo.
  pose proof (round_half_even_le (x * 1000) 1000) as Hhi.
  unfold Qle; simpl.
  split.
  - assert (0 <= Py.round_half_even (x * 1000))%Z; [|lia].
    apply Hlo. change (inject_Z 0) with 0. lra.
  - assert (Py.round_half_even (x * 1000) <= 1000)%Z; [|lia].
    apply Hhi. change (inject_Z 1000) with 1000. lra.
Qed.

(** Division by a literal, turned into a product so that [lra] accepts it. *)
Ltac qconst :=
  unfold Qdiv;
  change (/ 2) with (1 # 2); change (/ 4) with (1 # 4);
  change (/ 5) with (1 # 5).

Lemma of_nat_nonneg n : 0 <= Py.of_nat n.
Proof. unfold Py.of_nat. change 0 with (inject_Z 0). rewrite <- Zle_Qle. lia. Qed.

Lemma of_nat_pos n : (0 < n)%nat -> 0 < Py.of_nat n.
Proof. intros. unfold Py.of_nat. change 0 with (inject_Z 0). rewrite <- Zlt_Qlt. lia. Qed.

Lemma of_nat_le n m : (n ≤ m)%nat -> Py.of_nat n <= Py.of_nat m.
Proof. intros. unfold Py.of_nat. rewrite <- Zle_Qle. lia. Qed.

Lemma ratio_range (c t : nat) :
  (c ≤ t)%nat -> (0 < t)%nat -> 0 <= Py.of_nat c / Py.of_nat t <= 1.
Proof.
  intros Hct Ht. pose proof (of_nat_pos t Ht) as Hpos.
  pose proof (of_nat_nonneg c). pose proof (of_nat_le c t Hct). split.
  - apply Qle_shift_div_l; [exact Hpos | lra].
  - apply Qle_shift_div_r; [exact Hpos | lra].
Qed.

Lemma size_inter_union (A B : gset string) : (size (A ∩ B) ≤ size (A ∪ B))%nat.
Proof.
  apply subseteq_size. intros x Hx.
  apply elem_of_intersection in Hx as [Hx _]. apply elem_of_union. by left.
Qed.

Lemma size_union_pos (A B : gset string) : A ≠ ∅ -> (0 < size (A ∪ B))%nat.
Proof.
  intros HA. assert (size (A ∪ B) ≠ 0%nat); [|lia].
  intros Hz. apply size_empty_inv in Hz. apply HA. set_solver.
Qed.

Lemma max2_cases a b : (Py.max2 a b = a /\ b <= a) \/ (Py.max2 a b = b /\ a < b).
Proof.
  unfold Py.max2. destruct (Py.ltb a b) eqn:E.
  - right. split; [done|]. by apply ltb_lt.
  - left. split; [done|]. by apply ltb_ge.
Qed.

Lemma skill_diversity_sym a b :
  MatcherAgent.calculate_skill_diversity a b
  = MatcherAgent.calculate_skill_diversity b a.
Proof.
  unfold MatcherAgent.calculate_skill_diversity.
  rewrite (comm_L (∪) (skill_names b)), (comm_L (∩) (skill_names b)).
  repeat case_decide; tauto.
Qed.

Lemma skill_diversity_range a b :
  0 <= MatcherAgent.calculate_skill_diversity a b <= 1.
Proof.
  unfold MatcherAgent.calculate_skill_diversity.
  case_decide; [lra|].
  match goal with |- context [Py.max2 0 ?d] => 
    assert (Hd : d <= 1); [| destruct (max2_cases 0 d) as [[-> ?]|[-> ?]]; lra] end.
  match goal with |- context [Qabs ?x] => pose proof (Qabs_nonneg x) end. lra.
Qed.

Lemma gwa_balance_sym a b :
  MatcherAgent.calculate_gwa_balance a b = MatcherAgent.calculate_gwa_balance b a.
Proof.
  unfold MatcherAgent.calculate_gwa_balance.
  destruct (gwa a), (gwa b); try done.
  by rewrite Qabs_Qminus.
Qed.

Lemma gwa_balance_range a b :
  0.5 <= MatcherAgent.calculate_gwa_balance a b <= 1.
Proof.
  unfold MatcherAgent.calculate_gwa_balance.
  destruct (gwa a), (gwa b); try lra.
  destruct (_ && _); [lra|]. destruct (Py.ltb _ _); lra.
Qed.

Lemma schedule_overlap_sym a b :
  MatcherAgent.calculate_schedule_overlap a b
  = MatcherAgent.calculate_schedule_overlap b a.
Proof.
  unfold MatcherAgent.calculate_schedule_overlap.
  rewrite (comm_L (∪) (avail_keys b)), (comm_L (∩) (avail_keys b)).
  repeat case_decide; tauto.
Qed.

Lemma schedule_overlap_range a b :
  0 <= MatcherAgent.calculate_schedule_overlap a b <= 1.
Proof.
  unfold MatcherAgent.calculate_schedule_overlap.
  case_decide; [lra|]. case_decide; [|lra].
  apply ratio_range; [apply size_inter_union | done].
Qed.

Lemma personality_sym a b :
  MatcherAgent.calculate_personality_compatibility a b
  == MatcherAgent.calculate_personality_compatibility b a.
Proof.
  unfold MatcherAgent.calculate_personality_compatibility.
  repeat case_decide; try tauto; try reflexivity.
  rewrite (Qabs_Qminus (trait_get (traits b) "conscientiousness")).
  rewrite (Qabs_Qminus (trait_get (traits b) "extraversion")).
  field.
Qed.

Lemma trait_get_on_scale s key :
  traits_on_scale s -> 1 <= trait_get (traits s) key <= 5.
Proof.
  intros H. unfold trait_get. destruct (traits s !! key) eqn:E; simpl.
  - by apply (H key).
  - lra.
Qed.

Lemma personality_range a b :
  traits_on_scale a -> traits_on_scale b ->
  0 <= MatcherAgent.calculate_personality_compatibility a b <= 1.
Proof.
  intros Ha Hb. unfold MatcherAgent.calculate_personality_compatibility.
  case_decide; [lra|].
  pose proof (trait_get_on_scale a "conscientiousness" Ha).
  pose proof (trait_get_on_scale b "conscientiousness" Hb).
  pose proof (trait_get_on_scale a "agreeableness" Ha).
  pose proof (trait_get_on_scale b "agreeableness" Hb).
  pose proof (trait_get_on_scale a "extraversion" Ha).
  pose proof (trait_get_on_scale b "extraversion" Hb).
  set (c := Qabs (_ - _)). set (e := Qabs (_ - _)).
  assert (0 <= c <= 4).
  { split; [apply Qabs_nonneg|]. apply Qabs_Qle_condition. lra. }
  assert (0 <= e <= 4).
  { split; [apply Qabs_nonneg|]. apply Qabs_Qle_condition. lra. }
  clearbody c e. qconst. lra.
Qed.

Lemma overall_score_sym a b :
  MatcherAgent.overall_score a b == MatcherAgent.overall_score b a.
Proof.
  unfold MatcherAgent.overall_score.
  rewrite (skill_diversity_sym a b), (gwa_balance_sym a b),
    (schedule_overlap_sym a b), (personality_sym a b). reflexivity.
Qed.

Lemma overall_score_range a b :
  traits_on_scale a -> traits_on_scale b ->
  0 <= MatcherAgent.overall_score a b <= 1.
Proof.
  intros Ha Hb. unfold MatcherAgent.overall_score.
  pose proof (skill_diversity_range a b). pose proof (gwa_balance_range a b).
  pose proof (schedule_overlap_range a b). pose proof (personality_range a b Ha Hb).
  lra.
Qed.


(** ** The compatibility model *)

Lemma calculate_compatibility_sym (a b : student) :
  MatcherAgent.calculate_compatibility a b
  = MatcherAgent.calculate_compatibility b a.
Proof.
  unfold MatcherAgent.calculate_compatibility.
  apply round3_proper, overall_score_sym.
Qed.

Lemma calculate_compatibility_range (a b : student) :
  traits_on_scale a -> traits_on_scale b ->
  0 <= MatcherAgent.calculate_compatibility a b <= 1.
Proof.
  intros Ha Hb. unfold MatcherAgent.calculate_compatibility.
  by apply round3_range, overall_score_range.
Qed.


Lemma plain_student_on_scale : traits_on_scale plain_student.
Proof. apply map_Forall_singleton. split; by vm_compute. Qed.

Lemma bare_student_on_scale : traits_on_scale bare_student.
Proof. apply map_Forall_empty. Qed.



(** C9: for every pair of students of which at least one has an empty
    skill-name set, [calculate_skill_diversity] returns exactly 0.5. *)
Theorem skill_diversity_neutral_without_skills (a b : student) :
  skill_names a = ∅ \/ skill_names b = ∅ ->
  MatcherAgent.calculate_skill_diversity a b = 0.5.
Proof.
  intros H. unfold MatcherAgent.calculate_skill_diversity.
  by rewrite decide_True.
Qed.

Lemma skill_diversity_neutral_without_skills_witness :
  MatcherAgent.calculate_skill_diversity plain_student bare_student = 0.5.
Proof.
  apply (skill_diversity_neutral_without_skills plain_student bare_student).
  right. reflexivity.
Defined.

(** ** The two compatibility models compared *)

(** The skill score the evolutionary agent computes inline is the one of
    [calculate_skill_diversity]. *)
Lemma ga_skill_score_eq a b :
  (if decide (skill_names a ≠ ∅ ∧ skill_names b ≠ ∅)
   then 1 - Qabs (Py.of_nat (size (skill_names a ∩ skill_names b))
                  / Py.of_nat (size (skill_names a ∪ skill_names b)) - 0.5) * 2
   else 0.5)
  == MatcherAgent.calculate_skill_diversity a b.
Proof.
  unfold MatcherAgent.calculate_skill_diversity.
  case_decide as Hne; case_decide as He; try tauto; try reflexivity.
  destruct Hne as [Ha Hb].
  { rewrite decide_False by (intros Hu; by apply empty_union_L in Hu as [? ?]).
    pose proof (ratio_range _ _ (size_inter_union (skill_names a) (skill_names b))
                  (size_union_pos _ (skill_names b) Ha)) as Hr.
    set (r := Py.of_nat _ / Py.of_nat _) in *. clearbody r.
    assert (Hd : 0 <= 1 - Qabs (r - 0.5) * 2).
    { assert (Qabs (r - 0.5) <= 0.5); [apply Qabs_Qle_condition; lra | lra]. }
    destruct (max2_cases 0 (1 - Qabs (r - 0.5) * 2)) as [[-> ?]|[-> ?]]; lra. }
Qed.

(** Away from a grade of zero the two agents score every pair alike. *)
Lemma ga_calculate_compatibility_eq a b :
  nonzero_gwa a -> nonzero_gwa b ->
  MatcherAgentGA.calculate_compatibility a b
  = MatcherAgent.calculate_compatibility a b.
Proof.
  intros Ha Hb.
  unfold MatcherAgentGA.calculate_compatibility, MatcherAgent.calculate_compatibility,
    MatcherAgent.overall_score.
  apply round3_proper.
  rewrite ga_skill_score_eq.
  apply Qplus_comp; [apply Qplus_comp; [apply Qplus_comp|]|]; try reflexivity.
  - apply Qmult_comp; [|reflexivity].
    unfold MatcherAgent.calculate_gwa_balance.
    destruct (gwa a) as [x|] eqn:Ea, (gwa b) as [y|] eqn:Eb; try reflexivity.
    unfold MatcherAgentGA.truthy.
    destruct (Qeq_bool x 0) eqn:Ex; [by apply Qeq_bool_eq, Ha in Ex|].
    destruct (Qeq_bool y 0) eqn:Ey; [by apply Qeq_bool_eq, Hb in Ey|].
    reflexivity.
  - apply Qmult_comp; [|reflexivity].
    unfold MatcherAgent.calculate_schedule_overlap.
    repeat case_decide; try tauto; try reflexivity.
  - apply Qmult_comp; [|reflexivity].
    unfold MatcherAgent.calculate_personality_compatibility.
    repeat case_decide; try tauto; try reflexivity.
Qed.

(** C8, evaluated where the two models part: for a student whose grade is
    the number 0 paired with a student of grade 1.0, [MatcherAgent] scores
    the pair 0.6 (the grade is used) and [MatcherAgentGA] scores it 0.5 (the
    zero grade is taken for a missing one). *)
Theorem compatibility_models_differ_on_zero_gwa :
  MatcherAgent.calculate_compatibility zero_gwa_student top_gwa_student == 0.6
  /\ MatcherAgentGA.calculate_compatibility zero_gwa_student top_gwa_student == 0.5
  /\ MatcherAgent.calculate_compatibility zero_gwa_student top_gwa_student
     <> MatcherAgentGA.calculate_compatibility zero_gwa_student top_gwa_student.
Proof. repeat split; vm_compute; congruence. Qed.

(** ** Skill match *)

Lemma foldl_Qplus_acc (a : Q) (l : list Q) : foldl Qplus a l == a + Py.sum l.
Proof.
  unfold Py.sum. revert a. induction l as [|x l IH]; intros a; simpl.
  - lra.
  - rewrite (IH (a + x)), (IH (0 + x)). lra.
Qed.

Lemma sum_cons (x : Q) (l : list Q) : Py.sum (x :: l) == x + Py.sum l.
Proof. unfold Py.sum at 1. simpl. rewrite foldl_Qplus_acc. lra. Qed.

Lemma sum_perm (l l' : list Q) : l ≡ₚ l' -> Py.sum l == Py.sum l'.
Proof.
  induction 1 as [|x l l' _ IH|x y l|l l' l'' _ IH1 _ IH2].
  - reflexivity.
  - by rewrite !sum_cons, IH.
  - rewrite !sum_cons. lra.
  - by rewrite IH1.
Qed.

Lemma sum_zero (l : list Q) : Forall (fun x => x == 0) l -> Py.sum l == 0.
Proof.
  induction 1 as [|x l Hx _ IH]; [reflexivity|].
  rewrite sum_cons, Hx, IH. lra.
Qed.

Lemma skills_by_name_go (rows : list skill) (d : gmap string skill) name :
  foldl (fun d s => <[skill_name s := s]> d) d rows !! name
  = match last_row name rows with
    | Some s => Some s
    | None => d !! name
    end.
Proof.
  revert d. induction rows as [|s rows IH]; intros d; simpl; [done|].
  rewrite IH. destruct (last_row name rows); [done|].
  case_decide as Hn.
  - subst. by rewrite lookup_insert_eq.
  - by rewrite lookup_insert_ne.
Qed.

Lemma skills_by_name_lookup m name :
  CoordinatorAgent.skills_by_name m !! name
  = last_row name (CoordinatorAgent.member_skills m).
Proof.
  unfold CoordinatorAgent.skills_by_name. rewrite skills_by_name_go.
  by destruct (last_row _ _).
Qed.

(** The weights of the code are the documented ones. *)
Lemma proficiency_weight_documented (proficiency : string) :
  CoordinatorAgent.proficiency_weight proficiency = documented_weight proficiency.
Proof.
  unfold CoordinatorAgent.proficiency_weight, documented_weight, documented_tiers.
  cbn [find fst snd]. unfold decide_rel.
  repeat (case_decide; [subst; reflexivity|]).
  by rewrite !bool_decide_eq_false_2 by done.
Qed.

Lemma skill_points_weight m name :
  CoordinatorAgent.skill_points (CoordinatorAgent.skills_by_name m) name
  = member_weight m name.
Proof.
  unfold CoordinatorAgent.skill_points, member_weight.
  rewrite skills_by_name_lookup.
  destruct (last_row _ _); [apply proficiency_weight_documented | done].
Qed.

Lemma last_row_head s rows : is_Some (last_row (skill_name s) (s :: rows)).
Proof.
  simpl. destruct (last_row _ rows); [by eexists|].
  rewrite decide_True by done. by eexists.
Qed.

Lemma skills_by_name_empty m :
  CoordinatorAgent.skills_by_name m = ∅ <-> CoordinatorAgent.member_skills m = [].
Proof.
  split.
  - intros He. destruct (CoordinatorAgent.member_skills m) as [|s rows] eqn:E; [done|].
    pose proof (skills_by_name_lookup m (skill_name s)) as Hl.
    rewrite He, lookup_empty, E in Hl.
    destruct (last_row_head s rows) as [? Hs]. congruence.
  - intros E. unfold CoordinatorAgent.skills_by_name. by rewrite E.
Qed.

Lemma last_row_absent name rows :
  name ∉ map skill_name rows -> last_row name rows = None.
Proof.
  induction rows as [|s rows IH]; simpl; [done|].
  intros Hn. rewrite not_elem_of_cons in Hn. destruct Hn as [Hne Hn].
  rewrite (IH Hn). by rewrite decide_False.
Qed.

Lemma elements_required (l : list string) :
  elements (list_to_set l : gset string) ≡ₚ remove_dups l.
Proof.
  apply NoDup_Permutation.
  - apply NoDup_elements.
  - apply NoDup_remove_dups.
  - intros x. rewrite elem_of_elements, elem_of_list_to_set, elem_of_remove_dups. done.
Qed.

Lemma min2_proper a a' b : a == a' -> Py.min2 a b == Py.min2 a' b.
Proof.
  intros H. unfold Py.min2. rewrite (ltb_proper b b (reflexivity b) a a' H).
  by destruct (Py.ltb b a').
Qed.

Lemma skill_match_ratio m t :
  CoordinatorAgent.required_skills t <> [] ->
  CoordinatorAgent.member_skills m <> [] ->
  CoordinatorAgent.calculate_skill_match m t == tier_weight_ratio m t.
Proof.
  intros Hr Hm. unfold CoordinatorAgent.calculate_skill_match, tier_weight_ratio.
  destruct (CoordinatorAgent.required_skills t) as [|r0 rs] eqn:E; [done|].
  rewrite decide_False by (by rewrite skills_by_name_empty).
  rewrite decide_False.
  2:{ intros He. assert (r0 ∈ (list_to_set (r0 :: rs) : gset string)) as Hin
        by (apply elem_of_list_to_set; left).
      rewrite He in Hin. by apply not_elem_of_empty in Hin. }
  apply min2_proper.
  assert (Hsz : size (list_to_set (r0 :: rs) : gset string) = length (remove_dups (r0 :: rs))).
  { exact (Permutation_length (elements_required (r0 :: rs))). }
  rewrite Hsz.
  apply Qmult_comp; [|reflexivity].
  rewrite (map_ext _ _ (skill_points_weight m)).
  apply sum_perm. by rewrite elements_required.
Qed.

Lemma tier_weight_ratio_none m t :
  (forall name, name ∈ CoordinatorAgent.required_skills t ->
                name ∉ map skill_name (CoordinatorAgent.member_skills m)) ->
  tier_weight_ratio m t == 0.
Proof.
  intros Hnone. unfold tier_weight_ratio.
  set (distinct := remove_dups _).
  assert (Hs : Py.sum (map (member_weight m) distinct) == 0).
  { apply sum_zero, Forall_forall. intros x Hx.
    apply list_elem_of_In, in_map_iff in Hx as [name [<- Hin]].
    apply list_elem_of_In in Hin. unfold distinct in Hin.
    rewrite elem_of_remove_dups in Hin. unfold member_weight.
    by rewrite (last_row_absent _ _ (Hnone name Hin)). }
  rewrite (min2_proper _ 0 1); [by vm_compute|].
  rewrite Hs. unfold Qdiv. lra.
Qed.

(** A member who lists one skill, for an item that requires just that
    skill, scores the documented weight of the level listed. *)
Lemma single_skill_match m t s :
  CoordinatorAgent.member_skills m = [s] ->
  CoordinatorAgent.required_skills t = [skill_name s] ->
  CoordinatorAgent.calculate_skill_match m t
  == documented_weight (proficiency_level s).
Proof.
  intros Hm Hr.
  rewrite skill_match_ratio by (by rewrite ?Hm, ?Hr).
  unfold tier_weight_ratio. rewrite Hr. simpl.
  unfold member_weight. rewrite Hm. simpl. rewrite decide_True by done.
  assert (Hw : 0 <= documented_weight (proficiency_level s) <= 1).
  { rewrite <- proficiency_weight_documented.
    unfold CoordinatorAgent.proficiency_weight.
    repeat case_decide; split; by vm_compute. }
  set (w := documented_weight _) in *. clearbody w.
  assert (Hq : (0 + w) / Py.of_nat 1 == w) by (unfold Py.of_nat; simpl; field).
  rewrite (min2_proper _ w 1 Hq).
  unfold Py.min2. destruct (Py.ltb 1 w) eqn:Hlt; [|reflexivity].
  apply ltb_lt in Hlt. lra.
Qed.

(** C3 (as amended): [calculate_skill_match] returns 0.5 when the item's
    required-skill list is empty; otherwise it returns 0.1 when the member
    lists no skill at all; otherwise it returns the sum, over the distinct
    required skills, of the member's proficiency-tier weight (Expert 1.0,
    Advanced 0.8, Intermediate 0.6, Beginner 0.3, skill absent 0) divided by
    the number of distinct required skills, capped at 1.0, so that a member
    who lists skills but none of the required ones scores 0. *)
Theorem calculate_skill_match_cases
    (m : CoordinatorAgent.member) (t : CoordinatorAgent.task) :
  (CoordinatorAgent.required_skills t = [] ->
   CoordinatorAgent.calculate_skill_match m t = 0.5)
  /\ (CoordinatorAgent.required_skills t <> [] ->
      CoordinatorAgent.member_skills m = [] ->
      CoordinatorAgent.calculate_skill_match m t = 0.1)
  /\ (CoordinatorAgent.required_skills t <> [] ->
      CoordinatorAgent.member_skills m <> [] ->
      CoordinatorAgent.calculate_skill_match m t == tier_weight_ratio m t
      /\ ((forall name, name ∈ CoordinatorAgent.required_skills t ->
             name ∉ map skill_name (CoordinatorAgent.member_skills m)) ->
          CoordinatorAgent.calculate_skill_match m t == 0))
  /\ (forall s : skill,
        CoordinatorAgent.member_skills m = [s] ->
        CoordinatorAgent.required_skills t = [skill_name s] ->
        (proficiency_level s = "Expert"%string ->
         CoordinatorAgent.calculate_skill_match m t == 1)
        /\ (proficiency_level s = "Advanced"%string ->
            CoordinatorAgent.calculate_skill_match m t == 0.8)
        /\ (proficiency_level s = "Intermediate"%string ->
            CoordinatorAgent.calculate_skill_match m t == 0.6)
        /\ (proficiency_level s = "Beginner"%string ->
            CoordinatorAgent.calculate_skill_match m t == 0.3)).
Proof.
  split; [|split; [|split]].
  - intros E. unfold CoordinatorAgent.calculate_skill_match. by rewrite E.
  - intros Hr Hm. unfold CoordinatorAgent.calculate_skill_match.
    destruct (CoordinatorAgent.required_skills t); [done|].
    by rewrite decide_True by (by apply skills_by_name_empty).
  - intros Hr Hm. split; [by apply skill_match_ratio|].
    intros Hnone. rewrite (skill_match_ratio m t Hr Hm).
    by apply tier_weight_ratio_none.
  - intros s Hm Hr. pose proof (single_skill_match m t s Hm Hr) as Hw.
    repeat split; intros Hl; rewrite Hl in Hw; exact Hw.
Qed.

Lemma calculate_skill_match_cases_witness :
  CoordinatorAgent.calculate_skill_match skilled_member open_task = 0.5
  /\ CoordinatorAgent.calculate_skill_match unskilled_member backend_task = 0.1
  /\ CoordinatorAgent.calculate_skill_match skilled_member backend_task == 0.5
  /\ CoordinatorAgent.calculate_skill_match skilled_member database_task == 0.65
  /\ CoordinatorAgent.calculate_skill_match skilled_member frontend_task == 0
  /\ CoordinatorAgent.calculate_skill_match (specialist "Expert") frontend_task == 1
  /\ CoordinatorAgent.calculate_skill_match (specialist "Advanced") frontend_task == 0.8
  /\ CoordinatorAgent.calculate_skill_match (specialist "Intermediate") frontend_task == 0.6
  /\ CoordinatorAgent.calculate_skill_match (specialist "Beginner") frontend_task == 0.3.
Proof.
  split; [|split; [|split; [|split; [|split]]]].
  - apply (calculate_skill_match_cases skilled_member open_task). reflexivity.
  - apply (calculate_skill_match_cases unskilled_member backend_task);
      [discriminate | reflexivity].
  - destruct (calculate_skill_match_cases skilled_member backend_task)
      as (_ & _ & H & _).
    destruct H as [H _]; [discriminate | discriminate |].
    rewrite H. by vm_compute.
  - destruct (calculate_skill_match_cases skilled_member database_task)
      as (_ & _ & H & _).
    destruct H as [H _]; [discriminate | discriminate |].
    rewrite H. by vm_compute.
  - destruct (calculate_skill_match_cases skilled_member frontend_task)
      as (_ & _ & H & _).
    destruct H as [_ H]; [discriminate | discriminate |].
    apply H.
    intros name Hin Hmem. simpl in Hin, Hmem.
    apply list_elem_of_singleton in Hin. subst name.
    set_unfold. destruct Hmem as [?|[?|?]]; done.
  - split; [|split; [|split]].
    + destruct (calculate_skill_match_cases (specialist "Expert") frontend_task)
        as (_ & _ & _ & H).
      by apply (H (react_row "Expert")).
    + destruct (calculate_skill_match_cases (specialist "Advanced") frontend_task)
        as (_ & _ & _ & H).
      by apply (H (react_row "Advanced")).
    + destruct (calculate_skill_match_cases (specialist "Intermediate") frontend_task)
        as (_ & _ & _ & H).
      by apply (H (react_row "Intermediate")).
    + destruct (calculate_skill_match_cases (specialist "Beginner") frontend_task)
        as (_ & _ & _ & H).
      by apply (H (react_row "Beginner")).
Defined.

(** C3, the claim as first stated fails: a member who lists no skill gets
    0.1 for a task with required skills, where the stated formula gives 0. *)
Lemma calculate_skill_match_unskilled :
  CoordinatorAgent.calculate_skill_match unskilled_member backend_task == 0.1
  /\ skill_match_as_documented unskilled_member backend_task == 0
  /\ ~ (CoordinatorAgent.calculate_skill_match unskilled_member backend_task
        == skill_match_as_documented unskilled_member backend_task).
Proof. repeat split; by vm_compute. Qed.

(** ** The decoder of the evolutionary search *)

(** [min_index_go] continues a scan of the keys [pre] whose first minimum
    is at [best_i]. *)
Lemma min_index_go_spec (ks pre : list nat) (best_i best_k : nat) :
  pre !! best_i = Some best_k ->
  (forall k, k ∈ pre -> (best_k ≤ k)%nat) ->
  (forall j k, (j < best_i)%nat -> pre !! j = Some k -> (best_k < k)%nat) ->
  let r := Py.min_index_go ks (length pre) best_i best_k in
  exists m, (pre ++ ks) !! r = Some m
    /\ (forall k, k ∈ pre ++ ks -> (m ≤ k)%nat)
    /\ (forall j k, (j < r)%nat -> (pre ++ ks) !! j = Some k -> (m < k)%nat).
Proof.
  revert pre best_i best_k.
  induction ks as [|k ks IH]; intros pre best_i best_k Hb Hmin Hfirst; simpl.
  - rewrite app_nil_r. eauto.
  - assert (Hlen : length (pre ++ [k]) = S (length pre))
      by (rewrite length_app; simpl; lia).
    case_decide as Hk.
    + specialize (IH (pre ++ [k]) (length pre) k).
      rewrite Hlen, <- app_assoc in IH. apply IH.
      * rewrite lookup_app_r by lia. by rewrite Nat.sub_diag.
      * intros x Hx. apply elem_of_app in Hx as [Hx|Hx].
        -- specialize (Hmin x Hx). lia.
        -- apply list_elem_of_singleton in Hx. lia.
      * intros j x Hj Hx. rewrite lookup_app_l in Hx by lia.
        assert (x ∈ pre) as Hin by (by eapply list_elem_of_lookup_2).
        specialize (Hmin x Hin). lia.
    + specialize (IH (pre ++ [k]) best_i best_k).
      rewrite Hlen, <- app_assoc in IH. apply IH.
      * apply lookup_lt_Some in Hb as Hlt. by rewrite lookup_app_l.
      * intros x Hx. apply elem_of_app in Hx as [Hx|Hx]; [by apply Hmin|].
        apply list_elem_of_singleton in Hx. lia.
      * intros j x Hj Hx. apply lookup_lt_Some in Hb as Hlt.
        rewrite lookup_app_l in Hx by lia. by eapply Hfirst.
Qed.

Lemma first_min_spec (k : nat) (rest : list nat) :
  exists m, (k :: rest) !! Py.first_min k rest = Some m
    /\ (forall x, x ∈ k :: rest -> (m ≤ x)%nat)
    /\ (forall j x, (j < Py.first_min k rest)%nat ->
                    (k :: rest) !! j = Some x -> (m < x)%nat).
Proof.
  apply (min_index_go_spec rest [k] 0 k); [done | | lia].
  intros x Hx. apply list_elem_of_singleton in Hx. lia.
Qed.

Lemma first_min_smallest {A} (first : list A) (others : list (list A)) :
  first_smallest (first :: others)
    (Py.first_min (length first) (map length others)).
Proof.
  destruct (first_min_spec (length first) (map length others))
    as (m & Hm & Hle & Hlt).
  change (length first :: map length others)
    with (length <$> (first :: others)) in *.
  rewrite list_lookup_fmap in Hm.
  destruct ((first :: others) !! _) as [smallest|] eqn:Hs; [|done].
  simpl in Hm. injection Hm as <-.
  exists smallest. split; [done|]. split.
  - intros g Hg. apply Hle. by apply list_elem_of_fmap_2.
  - intros j' g Hj Hg. apply (Hlt j'); [done|].
    by rewrite list_lookup_fmap, Hg.
Qed.

Lemma decode_scan_sizes (individual : list Q) (i : nat)
    (groups : list (list nat)) (current_group : list nat) :
  Forall (fun g => MatcherAgentGA.min_group_size ≤ length g)%nat groups ->
  Forall (fun g => MatcherAgentGA.min_group_size ≤ length g)%nat
         (MatcherAgentGA.decode_scan individual i groups current_group).1.
Proof.
  revert i groups current_group.
  induction individual as [|gene rest IH]; intros i groups cur Hall; simpl; [done|].
  destruct (_ || _); [|by apply IH].
  case_decide; [|by apply IH].
  apply IH, Forall_app. split; [done|]. by apply Forall_singleton.
Qed.

Lemma extend_smallest_sizes (groups : list (list nat)) (cur : list nat) (n : nat) :
  Forall (fun g => n ≤ length g)%nat groups ->
  Forall (fun g => n ≤ length g)%nat (MatcherAgentGA.extend_smallest groups cur).
Proof.
  intros Hall. unfold MatcherAgentGA.extend_smallest.
  destruct groups as [|first others]; [done|].
  apply Forall_alter; [done|].
  intros g _ Hg. rewrite length_app. lia.
Qed.

(** C10: every group in the list [decode_individual] returns has at least
    [min_group_size] (3) members, for every genome. *)
Theorem decode_individual_no_undersized_group
    (individual : list Q) (target_size : nat) :
  Forall (fun g => MatcherAgentGA.min_group_size ≤ length g)%nat
         (MatcherAgentGA.decode_individual individual target_size).
Proof.
  unfold MatcherAgentGA.decode_individual.
  pose proof (decode_scan_sizes individual 0 [] [] (Forall_nil_2 _)) as Hscan.
  destruct (MatcherAgentGA.decode_scan individual 0 [] []) as [groups cur].
  simpl in Hscan. unfold MatcherAgentGA.add_remaining.
  destruct cur as [|c cur]; [done|].
  case_decide.
  - apply Forall_app. split; [done|]. by apply Forall_singleton.
  - destruct groups; [done|]. by apply extend_smallest_sizes.
Qed.

Lemma decode_scan_concat (individual : list Q) (i : nat)
    (groups : list (list nat)) (current_group : list nat) :
  concat (MatcherAgentGA.decode_scan individual i groups current_group).1
    ++ (MatcherAgentGA.decode_scan individual i groups current_group).2
  = concat groups ++ current_group ++ seq i (length individual).
Proof.
  revert i groups current_group.
  induction individual as [|gene rest IH]; intros i groups cur; simpl.
  - by rewrite app_nil_r.
  - destruct (_ || _); [case_decide|]; rewrite IH.
    + rewrite concat_app. simpl. by rewrite app_nil_r, <- !app_assoc.
    + by rewrite <- !app_assoc.
    + by rewrite <- !app_assoc.
Qed.

(** C4 (as amended): when the scan of [decode_individual] ends with a
    non-empty current group of fewer than [min_group_size] members, these
    members are appended to the first smallest group emitted if at least
    one group has been emitted; if none has been emitted, which happens
    only for a genome of fewer than [min_group_size] genes, the dangling
    group is left out and the result is the empty list. *)
Theorem decode_individual_dangling_group
    (individual : list Q) (target_size : nat)
    (groups : list (list nat)) (current_group : list nat) :
  MatcherAgentGA.decode_scan individual 0 [] [] = (groups, current_group) ->
  current_group <> [] ->
  (length current_group < MatcherAgentGA.min_group_size)%nat ->
  (groups <> [] ->
   exists j, first_smallest groups j
     /\ MatcherAgentGA.decode_individual individual target_size
        = alter (fun smallest => smallest ++ current_group) j groups)
  /\ (groups = [] ->
      (length individual < MatcherAgentGA.min_group_size)%nat
      /\ MatcherAgentGA.decode_individual individual target_size = []).
Proof.
  intros Hscan Hne Hlen.
  pose proof (decode_scan_concat individual 0 [] []) as Hcat.
  rewrite Hscan in Hcat. simpl in Hcat.
  unfold MatcherAgentGA.decode_individual.
  rewrite Hscan. unfold MatcherAgentGA.add_remaining.
  destruct current_group as [|c cur]; [done|].
  rewrite decide_False by lia. split.
  - intros Hg. destruct groups as [|first others]; [done|].
    eexists. split; [apply first_min_smallest | done].
  - intros ->. split; [|done]. simpl in Hcat.
    apply (f_equal length) in Hcat. rewrite length_seq in Hcat.
    by rewrite <- Hcat.
Qed.

Lemma decode_individual_dangling_group_witness :
  (exists j, first_smallest [[0; 1; 2; 3]; [4; 5; 6]; [7; 8; 9; 10; 11]]%nat j
     /\ MatcherAgentGA.decode_individual long_genome 4
        = alter (fun smallest => smallest ++ [12%nat]) j
            [[0; 1; 2; 3]; [4; 5; 6]; [7; 8; 9; 10; 11]]%nat)
  /\ (length short_genome < MatcherAgentGA.min_group_size)%nat
  /\ MatcherAgentGA.decode_individual short_genome 4 = [].
Proof.
  split.
  - apply (decode_individual_dangling_group long_genome 4
             [[0; 1; 2; 3]; [4; 5; 6]; [7; 8; 9; 10; 11]]%nat [12%nat]);
      [by vm_compute | discriminate | unfold MatcherAgentGA.min_group_size;
       simpl; lia | discriminate].
  - apply (decode_individual_dangling_group short_genome 4 [] [0; 1]%nat);
      [by vm_compute | discriminate | unfold MatcherAgentGA.min_group_size;
       simpl; lia | reflexivity].
Defined.

(** C4, the claim as first stated fails: for a genome of two genes no
    group is emitted, the scan ends with the dangling group [0; 1], and the
    decoder returns no group at all instead of keeping that one. *)
Lemma decode_individual_drops_dangling_group :
  MatcherAgentGA.decode_scan short_genome 0 [] [] = ([], [0; 1]%nat)
  /\ add_remaining_keeping [] [0; 1]%nat = [[0; 1]%nat]
  /\ MatcherAgentGA.decode_individual short_genome 4 = []
  /\ MatcherAgentGA.decode_individual short_genome 4
     <> add_remaining_keeping [] [0; 1]%nat.
Proof. repeat split; by vm_compute. Qed.

(** ** Sequencing of outcomes *)

Lemma bind_Ok {A B} (m : Py.result A) (k : A -> Py.result B) (b : B) :
  m ≫= k = Py.Ok b <-> exists a, m = Py.Ok a /\ k a = Py.Ok b.
Proof.
  unfold mbind, Py.result_bind, Py.bind. destruct m; split.
  - eauto.
  - by intros (? & [= <-] & ?).
  - done.
  - by intros (? & ? & ?).
  - done.
  - by intros (? & ? & ?).
Qed.

Lemma mapM_Ok_cons {A B} (f : A -> Py.result B) x l ys :
  mapM f (x :: l) = Py.Ok ys
  <-> exists y ys', f x = Py.Ok y /\ mapM f l = Py.Ok ys' /\ ys = y :: ys'.
Proof.
  change (mapM f (x :: l)) with (y ← f x; k ← mapM f l; mret (y :: k)).
  rewrite bind_Ok. split.
  - intros (y & Hy & H). apply bind_Ok in H as (ys' & Hys & [= <-]). eauto.
  - intros (y & ys' & Hy & Hys & ->). exists y. split; [done|].
    apply bind_Ok. eauto.
Qed.

Lemma mapM_Ok {A B} (f : A -> Py.result B) l ys :
  mapM f l = Py.Ok ys <-> Forall2 (fun x y => f x = Py.Ok y) l ys.
Proof.
  revert ys. induction l as [|x l IH]; intros ys.
  - split.
    + intros [= <-]. constructor.
    + by intros ->%Forall2_nil_inv_l.
  - rewrite mapM_Ok_cons. split.
    + intros (y & ys' & Hy & Hys & ->). constructor; [done|]. by apply IH.
    + intros (y & ys' & -> & Hy & Hys)%Forall2_cons_inv_l.
      exists y, ys'. split; [done|]. split; [by apply IH | done].
Qed.

Lemma mapM_Ok_total {A B} (f : A -> Py.result B) (l : list A) :
  Forall (fun x => exists y, f x = Py.Ok y) l ->
  exists ys, mapM f l = Py.Ok ys /\ length ys = length l.
Proof.
  induction 1 as [|x l [y Hy] _ (ys & Hys & Hlen)].
  - by exists [].
  - exists (y :: ys). split; [|simpl; lia].
    apply mapM_Ok_cons. eauto.
Qed.

(** ** Order of allocation *)

Lemma insert_desc_perm {A} (key : A -> nat) x (l : list A) :
  Py.insert_desc key x l ≡ₚ x :: l.
Proof.
  induction l as [|y l IH]; simpl; [done|].
  case_decide; [|done]. rewrite IH. apply Permutation_swap.
Qed.

Lemma sorted_desc_perm {A} (key : A -> nat) (l : list A) :
  Py.sorted_desc key l ≡ₚ l.
Proof.
  unfold Py.sorted_desc. induction l as [|x l IH]; simpl; [done|].
  by rewrite insert_desc_perm, IH.
Qed.

Lemma insert_desc_sorted {A} (key : A -> nat) x (l : list A) :
  StronglySorted (fun a b => key b ≤ key a)%nat l ->
  StronglySorted (fun a b => key b ≤ key a)%nat (Py.insert_desc key x l).
Proof.
  induction 1 as [|y l Hl IH Hy]; simpl.
  - repeat constructor.
  - case_decide as Hk.
    + constructor; [done|].
      rewrite insert_desc_perm. constructor; [lia | done].
    + constructor; [by constructor|].
      constructor; [lia|].
      eapply Forall_impl; [exact Hy|]. simpl. intros. lia.
Qed.

Lemma sorted_desc_sorted {A} (key : A -> nat) (l : list A) :
  StronglySorted (fun a b => key b ≤ key a)%nat (Py.sorted_desc key l).
Proof.
  unfold Py.sorted_desc. induction l as [|x l IH]; simpl; [constructor|].
  by apply insert_desc_sorted.
Qed.

Lemma strongly_sorted_descending {A} (key : A -> nat) (l : list A) :
  StronglySorted (fun a b => key b ≤ key a)%nat l -> descending_by key l.
Proof.
  induction 1 as [|x l _ IH Hx]; intros i j a b Hij Ha Hb; [done|].
  destruct j as [|j]; [lia|]. simpl in Hb.
  destruct i as [|i]; simpl in Ha.
  - injection Ha as <-. rewrite Forall_forall in Hx.
    apply Hx. by eapply list_elem_of_lookup_2.
  - apply (IH i j); [lia | done | done].
Qed.

Lemma insert_desc_filter {A} (key : A -> nat) (k : nat) x (l : list A) :
  filter (fun a => key a = k) (Py.insert_desc key x l)
  = filter (fun a => key a = k) (x :: l).
Proof.
  induction l as [|y l IH]; simpl; [done|].
  case_decide as Hk; [|done].
  rewrite filter_cons, IH, !filter_cons.
  repeat case_decide; try done; lia.
Qed.

Lemma sorted_desc_stable {A} (key : A -> nat) (l : list A) :
  keeps_input_order key l (Py.sorted_desc key l).
Proof.
  intros k. unfold Py.sorted_desc. induction l as [|x l IH]; simpl; [done|].
  by rewrite insert_desc_filter, !filter_cons, IH.
Qed.

Lemma descending_by_prefix {A} (key : A -> nat) (l1 l2 : list A) :
  l1 `prefix_of` l2 -> descending_by key l2 -> descending_by key l1.
Proof.
  intros [k ->] Hd i j x y Hij Hx Hy.
  apply (Hd i j); [done | |]; by apply lookup_app_l_Some.
Qed.

Lemma allocate_one_task members t a members' :
  CoordinatorAgent.allocate_one members t = Py.Ok (a, members') ->
  CoordinatorAgent.a_task a = t.
Proof.
  unfold CoordinatorAgent.allocate_one. intros H.
  apply bind_Ok in H as (cands & _ & H).
  apply bind_Ok in H as (best & _ & [= <- _]). done.
Qed.

Lemma allocate_loop_prefix members tasks :
  map CoordinatorAgent.a_task (CoordinatorAgent.allocate_loop members tasks).1
    `prefix_of` tasks.
Proof.
  revert members. induction tasks as [|t tasks IH]; intros members; simpl; [done|].
  destruct (CoordinatorAgent.allocate_one members t) as [[a members']|e|] eqn:E;
    simpl; try apply prefix_nil.
  specialize (IH members').
  destruct (CoordinatorAgent.allocate_loop members' tasks) as [more outcome].
  simpl in *. rewrite (allocate_one_task _ _ _ _ E). by apply prefix_cons.
Qed.

Lemma allocate_loop_complete members tasks members' :
  (CoordinatorAgent.allocate_loop members tasks).2 = Py.Ok members' ->
  map CoordinatorAgent.a_task (CoordinatorAgent.allocate_loop members tasks).1
  = tasks.
Proof.
  revert members. induction tasks as [|t tasks IH]; intros members; simpl; [done|].
  destruct (CoordinatorAgent.allocate_one members t) as [[a ms]|e|] eqn:E;
    simpl; try done.
  specialize (IH ms).
  destruct (CoordinatorAgent.allocate_loop ms tasks) as [more outcome].
  simpl in *. intros H. by rewrite (allocate_one_task _ _ _ _ E), IH.
Qed.

Lemma sum_nonneg (l : list Q) : Forall (fun x => 0 <= x) l -> 0 <= Py.sum l.
Proof.
  induction 1 as [|x l Hx _ IH]; [by vm_compute|].
  rewrite sum_cons. lra.
Qed.

Lemma score_member_total members t i m :
  members <> [] ->
  Forall (fun m => 0 <= CoordinatorAgent.assigned_hours m) members ->
  exists c, CoordinatorAgent.score_member members t i m = Py.Ok c.
Proof.
  intros Hne Hall. unfold CoordinatorAgent.score_member, Py.div.
  set (avg := Py.sum _ / Py.of_nat _).
  assert (Havg : 0 <= avg).
  { unfold avg. apply Qle_shift_div_l.
    - apply of_nat_pos. destruct members; [done | simpl; lia].
    - rewrite Qmult_0_l. apply sum_nonneg.
      apply Forall_forall. intros x Hx.
      apply list_elem_of_In, in_map_iff in Hx as (m' & <- & Hm').
      rewrite Forall_forall in Hall. by apply Hall, list_elem_of_In. }
  destruct (Qeq_bool (avg + 0.1) 0) eqn:E.
  - apply Qeq_bool_eq in E. lra.
  - simpl. eauto.
Qed.

Lemma allocate_one_total members t :
  members <> [] ->
  Forall (fun m => 0 <= CoordinatorAgent.assigned_hours m) members ->
  0 <= CoordinatorAgent.estimated_hours t ->
  exists a members',
    CoordinatorAgent.allocate_one members t = Py.Ok (a, members')
    /\ members' <> []
    /\ Forall (fun m => 0 <= CoordinatorAgent.assigned_hours m) members'.
Proof.
  intros Hne Hall Ht. unfold CoordinatorAgent.allocate_one.
  destruct (mapM_Ok_total
              (fun p => CoordinatorAgent.score_member members t p.1 p.2)
              (imap (fun i m => (i, m)) members)) as (cands & -> & Hlen).
  { apply Forall_forall. intros [i m] _. by apply score_member_total. }
  rewrite length_imap in Hlen.
  destruct cands as [|c cands]; [destruct members; simpl in *; done|].
  simpl. eexists _, _. split; [reflexivity|]. split.
  - intros He. apply (f_equal length) in He. rewrite length_alter in He.
    destruct members; simpl in *; done.
  - apply Forall_alter; [done|]. intros m _ Hm. simpl. lra.
Qed.

Lemma allocate_loop_total members tasks :
  members <> [] ->
  Forall (fun m => 0 <= CoordinatorAgent.assigned_hours m) members ->
  Forall (fun t => 0 <= CoordinatorAgent.estimated_hours t) tasks ->
  exists members', (CoordinatorAgent.allocate_loop members tasks).2 = Py.Ok members'.
Proof.
  revert members. induction tasks as [|t tasks IH]; intros members Hne Hall Ht;
    simpl; [eauto|].
  apply Forall_cons in Ht as [Ht Hts].
  destruct (allocate_one_total members t Hne Hall Ht) as (a & ms & -> & Hne' & Hall').
  destruct (IH ms Hne' Hall' Hts) as [members' Hm].
  destruct (CoordinatorAgent.allocate_loop ms tasks). simpl in *. eauto.
Qed.

(** The ranks of the code are the documented ones. *)
Lemma complexity_order_documented (level : string) :
  CoordinatorAgent.complexity_order level = documented_rank level.
Proof.
  unfold CoordinatorAgent.complexity_order, documented_rank, documented_ranks.
  cbn [find fst snd]. unfold decide_rel.
  repeat (case_decide; [subst; reflexivity|]).
  by rewrite !bool_decide_eq_false_2 by done.
Qed.

Lemma insert_desc_ext {A} (key key' : A -> nat) x (l : list A) :
  (forall a, key a = key' a) ->
  Py.insert_desc key x l = Py.insert_desc key' x l.
Proof.
  intros Hk. induction l as [|y l IH]; simpl; [done|].
  by rewrite !Hk, IH.
Qed.

Lemma sorted_desc_ext {A} (key key' : A -> nat) (l : list A) :
  (forall a, key a = key' a) ->
  Py.sorted_desc key l = Py.sorted_desc key' l.
Proof.
  intros Hk. unfold Py.sorted_desc. induction l as [|x l IH]; simpl; [done|].
  by rewrite IH, (insert_desc_ext key key').
Qed.

(** The sort of [allocate_tasks] is the sort by documented tier. *)
Lemma tasks_sorted_by_tier (tasks : list CoordinatorAgent.task) :
  CoordinatorAgent.tasks_sorted tasks = Py.sorted_desc tier tasks.
Proof.
  unfold CoordinatorAgent.tasks_sorted. apply sorted_desc_ext.
  intros t. apply complexity_order_documented.
Qed.

Lemma descending_never_ahead (lower higher : string)
    (l : list CoordinatorAgent.task) :
  (documented_rank lower < documented_rank higher)%nat ->
  descending_by tier l -> never_ahead_of lower higher l.
Proof.
  intros Hlt Hd i j x y Hij Hx Hy Hlx Hly.
  pose proof (Hd i j x y Hij Hx Hy) as Hle.
  unfold tier in Hle. rewrite Hlx, Hly in Hle. lia.
Qed.

(** C6: for every list of pending work items, [allocate_tasks] assigns
    them in descending complexity-tier order, High before Medium before
    Low. The order of assignment is an initial stretch of the items sorted
    by documented tier (High 3, Medium 2, Low 1, anything else 0), never
    places an item before one of a higher tier (no Medium or Low item
    before a High one, no Low item before a Medium one), and the sorting
    keeps items of equal tier in their input order; with a member in the
    group and no negative effort every item is assigned. *)
Theorem allocate_tasks_complexity_order
    (members : list CoordinatorAgent.member)
    (tasks : list CoordinatorAgent.task) :
  let order :=
    map CoordinatorAgent.a_task (CoordinatorAgent.allocate_tasks members tasks).1 in
  let sorted := CoordinatorAgent.tasks_sorted tasks in
  sorted ≡ₚ tasks
  /\ keeps_input_order tier tasks sorted
  /\ descending_by tier sorted
  /\ order `prefix_of` sorted
  /\ descending_by tier order
  /\ never_ahead_of "Medium" "High" order
  /\ never_ahead_of "Low" "High" order
  /\ never_ahead_of "Low" "Medium" order
  /\ (members <> [] ->
      Forall (fun t => 0 <= CoordinatorAgent.estimated_hours t) tasks ->
      order = sorted
      /\ exists members',
           (CoordinatorAgent.allocate_tasks members tasks).2 = Py.Ok members').
Proof.
  intros order sorted.
  assert (Hperm : sorted ≡ₚ tasks) by apply sorted_desc_perm.
  assert (Hdesc : descending_by tier sorted).
  { unfold sorted. rewrite tasks_sorted_by_tier.
    apply strongly_sorted_descending, sorted_desc_sorted. }
  assert (Hpre : order `prefix_of` sorted).
  { unfold order, sorted, CoordinatorAgent.allocate_tasks.
    destruct tasks; [done|]. apply allocate_loop_prefix. }
  assert (Hord : descending_by tier order) by (by eapply descending_by_prefix).
  split; [done|].
  split; [unfold sorted; rewrite tasks_sorted_by_tier; apply sorted_desc_stable|].
  split; [done|]. split; [done|]. split; [done|].
  split; [apply descending_never_ahead; [vm_compute; lia | done]|].
  split; [apply descending_never_ahead; [vm_compute; lia | done]|].
  split; [apply descending_never_ahead; [vm_compute; lia | done]|].
  intros Hne Hhours.
  unfold order, sorted, CoordinatorAgent.allocate_tasks.
  destruct tasks as [|t tasks]; [split; [done | eauto]|].
  destruct (allocate_loop_total (map CoordinatorAgent.reset_workload members)
              (CoordinatorAgent.tasks_sorted (t :: tasks))) as [members' Hm].
  - by destruct members.
  - apply Forall_forall. intros m Hm.
    apply list_elem_of_In, in_map_iff in Hm as (m' & <- & _). by vm_compute.
  - fold sorted. by rewrite Hperm.
  - split; [by eapply allocate_loop_complete | eauto].
Qed.

Lemma allocate_tasks_complexity_order_witness :
  map CoordinatorAgent.a_task
    (CoordinatorAgent.allocate_tasks [skilled_member; unskilled_member]
       [open_task; frontend_task; database_task; backend_task]).1
  = [backend_task; frontend_task; database_task; open_task]
  /\ exists members',
       (CoordinatorAgent.allocate_tasks [skilled_member; unskilled_member]
          [open_task; frontend_task; database_task; backend_task]).2
       = Py.Ok members'.
Proof.
  destruct (allocate_tasks_complexity_order [skilled_member; unskilled_member]
              [open_task; frontend_task; database_task; backend_task])
    as (_ & _ & _ & _ & _ & _ & _ & _ & H).
  destruct H as [Horder Hmembers].
  - discriminate.
  - repeat constructor; by vm_compute.
  - split; [|exact Hmembers].
    rewrite Horder. reflexivity.
Defined.

(** ** The greedy constructor on a population that is too small *)

Lemma form_groups_loop_small students M target fuel ungrouped groups num g :
  (length ungrouped < MatcherAgent.min_group_size)%nat ->
  MatcherAgent.form_groups_loop students M target fuel ungrouped groups num g
  = Py.Ok (ungrouped, groups, g).
Proof.
  intros Hlen. destruct fuel; simpl; [done|]. by rewrite decide_False by lia.
Qed.

(** C7: with fewer than [min_group_size] (3) students no grouping comes
    out of [form_groups_simple]: it raises for one or two students and
    returns the empty list for none, and [run] reports the failure to its
    caller by returning [False] with nothing saved. *)
Theorem form_groups_simple_insufficient_population
    (students : list student) (target_group_size : nat) (g : Random.state) :
  (length students < MatcherAgent.min_group_size)%nat ->
  (MatcherAgent.form_groups_simple students target_group_size g
     = Py.Error Py.ValueError
   \/ MatcherAgent.form_groups_simple students target_group_size g
     = Py.Ok ([], g))
  /\ (students <> [] ->
      MatcherAgent.form_groups_simple students target_group_size g
      = Py.Error Py.ValueError)
  /\ MatcherAgent.run students target_group_size g = Py.Ok (false, []).
Proof.
  intros Hlen.
  assert (Hf : MatcherAgent.form_groups_simple students target_group_size g
               = match students with
                 | [] => Py.Ok ([], g)
                 | _ => Py.Error Py.ValueError
                 end).
  { unfold MatcherAgent.form_groups_simple.
    rewrite form_groups_loop_small by (by rewrite length_seq).
    destruct students as [|s students]; [done|]. done. }
  split; [|split].
  - rewrite Hf. destruct students; auto.
  - intros Hne. rewrite Hf. by destruct students.
  - unfold MatcherAgent.run. rewrite Hf. by destruct students.
Qed.

Lemma form_groups_simple_insufficient_population_witness :
  MatcherAgent.form_groups_simple [plain_student; bare_student] 4 sevens
  = Py.Error Py.ValueError
  /\ MatcherAgent.run [plain_student; bare_student] 4 sevens
     = Py.Ok (false, []).
Proof.
  destruct (form_groups_simple_insufficient_population
              [plain_student; bare_student] 4 sevens)
    as (_ & Hraise & Hrun).
  - unfold MatcherAgent.min_group_size. simpl. lia.
  - split; [apply Hraise; discriminate | exact Hrun].
Defined.

(** ** The greedy constructor *)

Lemma bind_Ok_l {A B} (a : A) (k : A -> Py.result B) : Py.Ok a ≫= k = k a.
Proof. reflexivity. Qed.

Lemma remove_elem (x : nat) (l : list nat) :
  x ∈ l -> exists l', Py.remove x l = Py.Ok l' /\ l ≡ₚ x :: l'.
Proof.
  induction l as [|y l IH]; intros Hx; [by apply elem_of_nil in Hx|].
  simpl. case_decide as Hxy.
  - subst. eauto.
  - apply elem_of_cons in Hx as [?|Hx]; [done|].
    destruct (IH Hx) as (l' & -> & Hp). simpl. eexists. split; [done|].
    rewrite Hp. apply Permutation_swap.
Qed.

Lemma randbelow_lt (n : nat) (g : Random.state) :
  (0 < n)%nat -> ((Random.randbelow n g).1 < n)%nat.
Proof.
  intros Hn. unfold Random.randbelow. simpl.
  assert (Hm : (Random.draws g (Random.pos g) mod N.of_nat n < N.of_nat n)%N)
    by (apply N.mod_lt; lia).
  lia.
Qed.

Lemma choice_elem {A} (l : list A) (g : Random.state) :
  l <> [] -> exists x g', Random.choice l g = Py.Ok (x, g') /\ x ∈ l.
Proof.
  intros Hne. unfold Random.choice. destruct l as [|a l]; [done|].
  pose proof (randbelow_lt (length (a :: l)) g) as Hlt.
  destruct (Random.randbelow (length (a :: l)) g) as [i g'].
  simpl in Hlt. specialize (Hlt ltac:(lia)).
  unfold Py.index.
  destruct (lookup_lt_is_Some_2 (a :: l) i Hlt) as [x Hx].
  rewrite Hx. simpl. exists x, g'. split; [done|].
  by eapply list_elem_of_lookup_2.
Qed.

Lemma index_pairs_below (n : nat) (grp : list nat) :
  Forall (fun j => j < n)%nat grp ->
  Forall (fun p => p.1 < n /\ p.2 < n)%nat (index_pairs grp).
Proof.
  induction 1 as [|x rest Hx Hrest IH]; simpl; [done|].
  apply Forall_app. split; [|done].
  apply Forall_forall. intros p Hp.
  apply list_elem_of_In, in_map_iff in Hp as (y & <- & Hy). simpl.
  split; [done|]. rewrite Forall_forall in Hrest.
  by apply Hrest, list_elem_of_In.
Qed.

Section Greedy.

Variable students : list student.
Hypothesis on_scale : Forall traits_on_scale students.

Let n := length students.
Let M := MatcherAgent.create_compatibility_matrix students.

Lemma matrix_entry (i j : nat) :
  (i < n)%nat -> (j < n)%nat -> exists v, mat_get M i j = Py.Ok v /\ 0 <= v.
Proof.
  intros Hi Hj. unfold mat_get, M, MatcherAgent.create_compatibility_matrix, Py.index.
  destruct (lookup_lt_is_Some_2 students i Hi) as [si Hsi].
  destruct (lookup_lt_is_Some_2 students j Hj) as [sj Hsj].
  rewrite list_lookup_imap, Hsi. simpl.
  rewrite list_lookup_imap, Hsj. simpl.
  rewrite Forall_forall in on_scale.
  assert (Hsi' : traits_on_scale si) by (by eapply on_scale, list_elem_of_lookup_2).
  assert (Hsj' : traits_on_scale sj) by (by eapply on_scale, list_elem_of_lookup_2).
  eexists. split; [done|].
  repeat case_decide; try lra.
  - by apply calculate_compatibility_range.
  - by apply calculate_compatibility_range.
Qed.

Lemma candidate_scores (grp : list nat) (i : nat) :
  (i < n)%nat -> Forall (fun j => j < n)%nat grp ->
  exists xs, mapM (fun member => mat_get M i member) grp = Py.Ok xs
             /\ Forall (fun x => 0 <= x) xs.
Proof.
  intros Hi. induction 1 as [|j grp Hj _ (xs & Hxs & Hpos)].
  - by exists [].
  - destruct (matrix_entry i j Hi Hj) as (v & Hv & Hv0).
    exists (v :: xs). split; [|by constructor].
    apply mapM_Ok_cons. eauto.
Qed.

Lemma avg_nonneg (xs : list Q) (k : nat) :
  Forall (fun x => 0 <= x) xs -> 0 <= Py.sum xs / Py.of_nat k.
Proof.
  intros Hxs. pose proof (sum_nonneg xs Hxs) as Hs.
  pose proof (of_nat_nonneg k) as Hk.
  unfold Qdiv. apply Qmult_le_0_compat; [done|]. by apply Qinv_le_0_compat.
Qed.

Lemma best_candidate_loop_total (grp ungrouped : list nat)
    (best : option nat) (best_score : Q) :
  Forall (fun j => j < n)%nat grp -> Forall (fun j => j < n)%nat ungrouped ->
  exists r,
    MatcherAgent.best_candidate_loop M grp ungrouped best best_score = Py.Ok r
    /\ (r = best \/ exists c, r = Some c /\ c ∈ ungrouped)
    /\ (is_Some best -> is_Some r).
Proof.
  intros Hgrp Hun. revert best best_score.
  induction Hun as [|c rest Hc _ IH]; intros best best_score; simpl.
  - exists best. auto.
  - destruct (candidate_scores grp c Hc Hgrp) as (xs & -> & _). simpl.
    destruct (Py.ltb best_score _).
    + destruct (IH (Some c) (Py.sum xs / Py.of_nat (length grp)))
        as (r & -> & Hr & Hsome).
      exists r. split; [done|]. split.
      * right. destruct Hr as [->|(c' & -> & Hc')].
        -- exists c. split; [done | left].
        -- exists c'. split; [done | by right].
      * intros _. apply Hsome. by eexists.
    + destruct (IH best best_score) as (r & -> & Hr & Hsome).
      exists r. split; [done|]. split; [|done].
      destruct Hr as [->|(c' & -> & Hc')]; [by left|].
      right. exists c'. split; [done | by right].
Qed.

Lemma best_candidate_found (grp ungrouped : list nat) :
  Forall (fun j => j < n)%nat grp -> Forall (fun j => j < n)%nat ungrouped ->
  ungrouped <> [] ->
  exists c,
    MatcherAgent.best_candidate_loop M grp ungrouped None (-1) = Py.Ok (Some c)
    /\ c ∈ ungrouped.
Proof.
  intros Hgrp Hun Hne. destruct ungrouped as [|c rest]; [done|].
  apply Forall_cons in Hun as [Hc Hrest]. simpl.
  destruct (candidate_scores grp c Hc Hgrp) as (xs & -> & Hxs). simpl.
  pose proof (avg_nonneg xs (length grp) Hxs) as Havg.
  rewrite (proj2 (ltb_lt (-1) _)) by lra.
  destruct (best_candidate_loop_total grp rest (Some c)
              (Py.sum xs / Py.of_nat (length grp)) Hgrp Hrest)
    as (r & -> & Hr & _).
  destruct Hr as [->|(c' & -> & Hc')].
  - exists c. split; [done | left].
  - exists c'. split; [done | by right].
Qed.

Lemma add_most_compatible_step (k : nat) (grp : list nat) c0 rest :
  MatcherAgent.add_most_compatible M (S k) grp (c0 :: rest)
  = (best ← MatcherAgent.best_candidate_loop M grp (c0 :: rest) None (-1);
     match best with
     | None => Py.Diverges
     | Some best_candidate =>
         ungrouped' ← Py.remove best_candidate (c0 :: rest);
         MatcherAgent.add_most_compatible M k (grp ++ [best_candidate]) ungrouped'
     end).
Proof. reflexivity. Qed.

Lemma add_most_compatible_total (k : nat) (grp ungrouped : list nat) :
  Forall (fun j => j < n)%nat grp -> Forall (fun j => j < n)%nat ungrouped ->
  exists grp' ungrouped',
    MatcherAgent.add_most_compatible M k grp ungrouped = Py.Ok (grp', ungrouped')
    /\ grp' ++ ungrouped' ≡ₚ grp ++ ungrouped
    /\ length grp' = (length grp + k `min` length ungrouped)%nat.
Proof.
  revert grp ungrouped. induction k as [|k IH]; intros grp ungrouped Hgrp Hun.
  - exists grp, ungrouped. split; [done|]. split; [done | lia].
  - destruct ungrouped as [|c0 rest].
    { exists grp, []. split; [done|]. split; [done | simpl; lia]. }
    destruct (best_candidate_found grp (c0 :: rest) Hgrp Hun) as (c & Hc & Hin);
      [done|].
    rewrite add_most_compatible_step, Hc, bind_Ok_l.
    destruct (remove_elem c (c0 :: rest) Hin) as (u1 & -> & Hperm).
    rewrite bind_Ok_l.
    assert (Hall : Forall (fun j => j < n)%nat (c :: u1)) by (by rewrite <- Hperm).
    apply Forall_cons in Hall as [Hcn Hu1].
    destruct (IH (grp ++ [c]) u1) as (grp' & u' & -> & Hp & Hlen);
      [by apply Forall_app; split; [|constructor] | done |].
    exists grp', u'. split; [done|]. split.
    + rewrite Hp, Hperm, <- app_assoc. done.
    + rewrite Hlen, length_app.
      apply Permutation_length in Hperm. simpl in *. lia.
Qed.

Lemma next_group_total (target : nat) (ungrouped : list nat) (g : Random.state) :
  (MatcherAgent.min_group_size ≤ length ungrouped)%nat ->
  (MatcherAgent.min_group_size ≤ target)%nat ->
  Forall (fun j => j < n)%nat ungrouped ->
  exists grp ungrouped' g',
    MatcherAgent.next_group M target ungrouped g = Py.Ok (grp, ungrouped', g')
    /\ grp ++ ungrouped' ≡ₚ ungrouped
    /\ (MatcherAgent.min_group_size ≤ length grp)%nat.
Proof.
  unfold MatcherAgent.min_group_size. intros Hlen Htarget Hun.
  unfold MatcherAgent.next_group. case_decide as Hlt.
  - exists ungrouped, [], g. split; [done|]. split; [by rewrite app_nil_r | done].
  - destruct (choice_elem ungrouped g) as (first & g' & -> & Hin);
      [intros ->; simpl in Hlen; lia|].
    rewrite bind_Ok_l.
    destruct (remove_elem first ungrouped Hin) as (u1 & -> & Hperm).
    rewrite bind_Ok_l.
    assert (Hall : Forall (fun j => j < n)%nat (first :: u1)) by (by rewrite <- Hperm).
    apply Forall_cons in Hall as [Hfn Hu1].
    destruct (add_most_compatible_total (target - 1) [first] u1)
      as (grp & u' & -> & Hp & Hl); [by constructor | done |].
    rewrite bind_Ok_l. exists grp, u', g'. split; [done|]. split.
    + by rewrite Hp, Hperm.
    + apply Permutation_length in Hperm. simpl in *. lia.
Qed.

Lemma group_avg_compat_total (grp : list nat) :
  Forall (fun j => j < n)%nat grp -> exists v, group_avg_compat M grp = Py.Ok v.
Proof.
  intros Hgrp. unfold group_avg_compat.
  destruct (mapM_Ok_total (fun p => mat_get M p.1 p.2) (index_pairs grp))
    as (xs & -> & _); [|by eexists].
  eapply Forall_impl; [by apply index_pairs_below|].
  intros p [H1 H2]. simpl in *.
  destruct (matrix_entry p.1 p.2 H1 H2) as (v & Hv & _). eauto.
Qed.

Lemma members_lookup (grp : list nat) :
  Forall (fun j => j < n)%nat grp ->
  mapM (Py.index students) grp = Py.Ok ((fun i => students !!! i) <$> grp).
Proof.
  intros Hgrp. apply mapM_Ok.
  induction Hgrp as [|i grp Hi _ IH]; simpl; constructor; [|done].
  unfold Py.index. by rewrite (list_lookup_lookup_total_lt students i Hi).
Qed.

Lemma form_groups_loop_total (target fuel : nat) (ungrouped : list nat)
    (groups : list group) (num : nat) (g : Random.state) :
  (MatcherAgent.min_group_size ≤ target)%nat ->
  (length ungrouped ≤ fuel)%nat ->
  Forall (fun j => j < n)%nat ungrouped ->
  exists ungrouped' groups' g' placed,
    MatcherAgent.form_groups_loop students M target fuel ungrouped groups num g
    = Py.Ok (ungrouped', groups', g')
    /\ (length ungrouped' < MatcherAgent.min_group_size)%nat
    /\ placed ++ ungrouped' ≡ₚ ungrouped
    /\ concat (members <$> groups')
       = concat (members <$> groups) ++ ((fun i => students !!! i) <$> placed)
    /\ (Forall (fun grp => MatcherAgent.min_group_size ≤ length (members grp))%nat groups ->
        Forall (fun grp => MatcherAgent.min_group_size ≤ length (members grp))%nat groups').
Proof.
  intros Htarget. revert ungrouped groups num g.
  induction fuel as [|fuel IH]; intros ungrouped groups num g Hfuel Hun.
  - destruct ungrouped; [|simpl in Hfuel; lia].
    exists [], groups, g, []. simpl. rewrite app_nil_r.
    unfold MatcherAgent.min_group_size. repeat split; try done; simpl; lia.
  - simpl. case_decide as Hlen.
    + destruct (next_group_total target ungrouped g Hlen Htarget Hun)
        as (grp & u1 & g1 & -> & Hperm & Hsize).
      rewrite bind_Ok_l.
      assert (Hall : Forall (fun j => j < n)%nat (grp ++ u1)) by (by rewrite Hperm).
      apply Forall_app in Hall as [Hgrp Hu1].
      destruct (group_avg_compat_total grp Hgrp) as (avg & ->). rewrite bind_Ok_l.
      rewrite (members_lookup grp Hgrp), bind_Ok_l.
      assert (Hgrp_pos : (0 < length grp)%nat)
        by (unfold MatcherAgent.min_group_size in Hsize; lia).
      match goal with |- context [MatcherAgent.form_groups_loop _ _ _ _ _ ?gs ?k ?r] =>
        destruct (IH u1 gs k r) as (u' & groups' & g' & placed & -> & Hsmall & Hp & Hc & Hsz)
      end; [| done |].
      { apply Permutation_length in Hperm. rewrite length_app in Hperm. lia. }
      exists u', groups', g', (grp ++ placed). split; [done|]. split; [done|].
      split; [by rewrite <- app_assoc, Hp|]. split.
      * rewrite Hc, fmap_app, concat_app. simpl.
        rewrite app_nil_r, fmap_app, app_assoc. done.
      * intros Hgroups. apply Hsz, Forall_app. split; [done|].
        apply Forall_singleton. simpl. by rewrite length_fmap.
    + exists ungrouped, groups, g, []. simpl. rewrite app_nil_r.
      repeat split; try done; lia.
Qed.

Lemma concat_members_alter (extra : list student) (j : nat) (groups : list group) :
  (j < length groups)%nat ->
  concat (members <$> alter (fun grp =>
            {| group_num := group_num grp; members := members grp ++ extra;
               compatibility_score := compatibility_score grp |}) j groups)
  ≡ₚ concat (members <$> groups) ++ extra.
Proof.
  revert j. induction groups as [|grp groups IH]; intros j Hj; [simpl in Hj; lia|].
  destruct j as [|j]; simpl.
  - rewrite <- !app_assoc. apply Permutation_app_head, Permutation_app_comm.
  - rewrite <- app_assoc. apply Permutation_app_head, IH. simpl in Hj. lia.
Qed.

Lemma add_leftovers_total (ungrouped : list nat) (groups : list group) :
  groups <> [] ->
  Forall (fun j => j < n)%nat ungrouped ->
  exists groups',
    MatcherAgent.add_leftovers students ungrouped groups = Py.Ok groups'
    /\ concat (members <$> groups')
       ≡ₚ concat (members <$> groups) ++ ((fun i => students !!! i) <$> ungrouped)
    /\ (Forall (fun grp => MatcherAgent.min_group_size ≤ length (members grp))%nat groups ->
        Forall (fun grp => MatcherAgent.min_group_size ≤ length (members grp))%nat groups').
Proof.
  intros Hne Hun. unfold MatcherAgent.add_leftovers.
  destruct ungrouped as [|i rest].
  { exists groups. simpl. by rewrite app_nil_r. }
  destruct groups as [|first others]; [done|].
  change (Py.min_index (map _ (first :: others)))
    with (Py.Ok (Py.first_min (length (members first))
                   (map (fun grp => length (members grp)) others))).
  rewrite bind_Ok_l, (members_lookup (i :: rest) Hun), bind_Ok_l.
  set (j := Py.first_min _ _).
  assert (Hj : (j < length (first :: others))%nat).
  { destruct (first_min_spec (length (members first))
                (map (fun grp => length (members grp)) others)) as (m & Hm & _).
    apply lookup_lt_Some in Hm. simpl in *. by rewrite length_map in Hm. }
  eexists. split; [done|]. split.
  - by apply concat_members_alter.
  - intros Hsz. apply Forall_alter; [done|]. intros grp _ Hgrp. simpl.
    rewrite length_app. lia.
Qed.

End Greedy.

Lemma lookup_total_seq (students : list student) :
  (fun i => students !!! i) <$> seq 0 (length students) = students.
Proof.
  apply list_eq. intros i. rewrite list_lookup_fmap.
  destruct (decide (i < length students)%nat) as [Hi|Hi].
  - rewrite lookup_seq_lt by done. simpl.
    by rewrite (list_lookup_lookup_total_lt students i Hi).
  - rewrite lookup_seq_ge by lia. simpl. symmetry. apply lookup_ge_None. lia.
Qed.

(** C2 (as amended): for every population of at least [min_group_size] (3)
    students whose Big Five scores lie on the 1-5 scale, every target group
    size of at least [min_group_size] and every state of the random
    generator, [form_groups_simple] returns groups that form a partition
    of the population: every group has at least [min_group_size] members
    and the members of all groups together are the students, each exactly
    once. *)
Theorem form_groups_simple_partition
    (students : list student) (target_group_size : nat) (g : Random.state) :
  (MatcherAgent.min_group_size ≤ length students)%nat ->
  (MatcherAgent.min_group_size ≤ target_group_size)%nat ->
  Forall traits_on_scale students ->
  exists groups g',
    MatcherAgent.form_groups_simple students target_group_size g
    = Py.Ok (groups, g')
    /\ Forall (fun grp => MatcherAgent.min_group_size ≤ length (members grp))%nat
              groups
    /\ concat (members <$> groups) ≡ₚ students.
Proof.
  intros Hn Htarget Hscale. unfold MatcherAgent.form_groups_simple.
  assert (Hseq : Forall (fun j => j < length students)%nat (seq 0 (length students))).
  { apply Forall_forall. intros j Hj. apply elem_of_seq in Hj. lia. }
  destruct (form_groups_loop_total students Hscale target_group_size
              (length students) (seq 0 (length students)) [] 1%nat g)
    as (u & groups & g' & placed & -> & Hsmall & Hperm & Hconcat & Hsizes);
    [done | by rewrite length_seq | done |].
  rewrite bind_Ok_l. simpl in Hconcat.
  assert (Hall : Forall (fun j => j < length students)%nat (placed ++ u))
    by (by rewrite Hperm).
  apply Forall_app in Hall as [_ Hu].
  assert (Hgroups : groups <> []).
  { intros ->. simpl in Hconcat. symmetry in Hconcat.
    apply fmap_nil_inv in Hconcat. subst placed.
    apply Permutation_length in Hperm. rewrite length_seq in Hperm.
    simpl in Hperm. lia. }
  destruct (add_leftovers_total students u groups Hgroups Hu)
    as (groups' & -> & Hc & Hsz).
  rewrite bind_Ok_l. exists groups', g'. split; [done|]. split.
  - apply Hsz, Hsizes. constructor.
  - rewrite Hc, Hconcat, <- fmap_app, Hperm. by rewrite lookup_total_seq.
Qed.

Lemma form_groups_simple_partition_witness :
  exists groups g',
    MatcherAgent.form_groups_simple
      [plain_student; bare_student; plain_student; bare_student;
       bare_student; plain_student] 4 sevens
    = Py.Ok (groups, g')
    /\ Forall (fun grp => MatcherAgent.min_group_size ≤ length (members grp))%nat
              groups
    /\ concat (members <$> groups)
       ≡ₚ [plain_student; bare_student; plain_student; bare_student;
           bare_student; plain_student].
Proof.
  apply (form_groups_simple_partition
           [plain_student; bare_student; plain_student; bare_student;
            bare_student; plain_student] 4 sevens).
  - unfold MatcherAgent.min_group_size. simpl. lia.
  - unfold MatcherAgent.min_group_size. lia.
  - repeat (apply Forall_cons_2;
      [first [exact plain_student_on_scale | exact bare_student_on_scale]|]).
    apply Forall_nil_2.
Defined.

(** C2, the claim as first stated fails: with a student whose
    conscientiousness score is 103 every candidate average stays below the
    initial best score of -1, no candidate is ever picked, and the loop
    that fills the group never ends. *)
Lemma form_groups_simple_off_scale_diverges :
  MatcherAgent.form_groups_simple
    [off_scale_student; plain_student; plain_student] 3 sevens
  = Py.Diverges.
Proof. by vm_compute. Qed.

(** ** The evolutionary search *)

(** *** Calls that draw *)

Lemma rand_bind_Ok_l {A B} (m : Random.rand A) (k : A -> Random.rand B)
    (g g1 : Random.state) (a : A) :
  m g = Py.Ok (a, g1) -> (m ≫= k) g = k a g1.
Proof. intros H. unfold mbind, Random.rand_bind. by rewrite H. Qed.

Lemma lift_Ok {A} (r : Py.result A) (a : A) (g : Random.state) :
  r = Py.Ok a -> Random.lift r g = Py.Ok (a, g).
Proof. by intros ->. Qed.

Lemma init_repeat_total {A} (f : Random.rand A) (P : A -> Prop) (k : nat) :
  (forall g, exists a g', f g = Py.Ok (a, g') /\ P a) ->
  forall g, exists l g',
    Random.init_repeat f k g = Py.Ok (l, g') /\ Forall P l /\ length l = k.
Proof.
  intros Hf. induction k as [|k IH]; intros g; simpl.
  - by exists [], g.
  - destruct (Hf g) as (a & g1 & Ha & HP).
    destruct (IH g1) as (l & g2 & Hl & HPl & Hlen).
    exists (a :: l), g2. split; [|split; [by constructor | simpl; lia]].
    rewrite (rand_bind_Ok_l _ _ _ _ _ Ha), (rand_bind_Ok_l _ _ _ _ _ Hl). done.
Qed.

Lemma mapM_rand_total {A B} (f : A -> Random.rand B) (P : A -> Prop)
    (Q' : B -> Prop) (l : list A) :
  (forall a g, P a -> exists b g', f a g = Py.Ok (b, g') /\ Q' b) ->
  Forall P l ->
  forall g, exists l' g',
    mapM f l g = Py.Ok (l', g') /\ Forall Q' l' /\ length l' = length l.
Proof.
  intros Hf. induction 1 as [|a l Ha _ IH]; intros g.
  - by exists [], g.
  - destruct (Hf a g Ha) as (b & g1 & Hb & HQ).
    destruct (IH g1) as (l' & g2 & Hl & HQl & Hlen).
    exists (b :: l'), g2. split; [|split; [by constructor | simpl; lia]].
    change (mapM f (a :: l)) with (y ← f a; k ← mapM f l; mret (y :: k)).
    rewrite (rand_bind_Ok_l _ _ _ _ _ Hb), (rand_bind_Ok_l _ _ _ _ _ Hl). done.
Qed.

Lemma randint_range (a b : nat) (g : Random.state) :
  (a ≤ b)%nat ->
  exists x g', Random.randint a b g = Py.Ok (x, g') /\ (a ≤ x ≤ b)%nat.
Proof.
  intros Hab. unfold Random.randint. rewrite decide_False by lia.
  pose proof (randbelow_lt (b - a + 1) g ltac:(lia)) as Hlt.
  destruct (Random.randbelow (b - a + 1) g) as [i g']. simpl in Hlt.
  exists (a + i)%nat, g'. split; [done | lia].
Qed.

(** *** Decoding and fitness *)

Lemma decode_scan_range (individual : list Q) (i : nat)
    (groups : list (list nat)) (current_group : list nat) :
  Forall (Forall (fun j => j < i)%nat) groups ->
  Forall (fun j => j < i)%nat current_group ->
  Forall (Forall (fun j => j < i + length individual)%nat)
         (MatcherAgentGA.decode_scan individual i groups current_group).1
  /\ Forall (fun j => j < i + length individual)%nat
            (MatcherAgentGA.decode_scan individual i groups current_group).2.
Proof.
  revert i groups current_group.
  induction individual as [|gene rest IH]; intros i groups cur Hg Hc; simpl.
  - rewrite Nat.add_0_r. done.
  - assert (Hc' : Forall (fun j => j < S i)%nat (cur ++ [i])).
    { apply Forall_app. split.
      - eapply Forall_impl; [done|]. simpl. lia.
      - apply Forall_singleton. lia. }
    assert (Hg' : Forall (Forall (fun j => j < S i)%nat) groups).
    { eapply Forall_impl; [done|]. intros grp Hgrp.
      eapply Forall_impl; [done|]. simpl. lia. }
    replace (i + S (length rest))%nat with (S i + length rest)%nat by lia.
    destruct (_ || _); [|by apply IH].
    case_decide; [|by apply IH].
    apply IH; [|done]. apply Forall_app. split; [done|]. by apply Forall_singleton.
Qed.

Lemma decode_individual_range (individual : list Q) (target_size : nat) :
  Forall (Forall (fun j => j < length individual)%nat)
         (MatcherAgentGA.decode_individual individual target_size).
Proof.
  unfold MatcherAgentGA.decode_individual.
  destruct (decode_scan_range individual 0 [] []) as [Hg Hc]; [done | done |].
  destruct (MatcherAgentGA.decode_scan individual 0 [] []) as [groups cur].
  simpl in *. unfold MatcherAgentGA.add_remaining.
  destruct cur as [|c cur]; [done|].
  case_decide.
  - apply Forall_app. split; [done|]. by apply Forall_singleton.
  - destruct groups as [|first others]; [done|].
    unfold MatcherAgentGA.extend_smallest.
    apply Forall_alter; [done|]. intros grp _ Hgrp.
    apply Forall_app. by split.
Qed.

Lemma group_avg_compat_covered (matrix : list (list Q)) (n : nat) (grp : list nat) :
  matrix_covers matrix n -> Forall (fun j => j < n)%nat grp ->
  exists v, group_avg_compat matrix grp = Py.Ok v.
Proof.
  intros HM Hgrp. unfold group_avg_compat.
  destruct (mapM_Ok_total (fun p => mat_get matrix p.1 p.2) (index_pairs grp))
    as (xs & -> & _); [|by eexists].
  eapply Forall_impl; [by apply index_pairs_below|].
  intros p [H1 H2]. by apply HM.
Qed.

Lemma evaluate_loop_total (matrix : list (list Q)) (n target : nat)
    (groups : list (list nat)) (total penalty : Q) :
  matrix_covers matrix n ->
  Forall (Forall (fun j => j < n)%nat) groups ->
  exists fit, MatcherAgentGA.evaluate_loop matrix target groups total penalty
              = Py.Ok fit.
Proof.
  intros HM Hg. revert total penalty.
  induction Hg as [|grp groups Hgrp _ IH]; intros total penalty; simpl; [eauto|].
  destruct (group_avg_compat_covered matrix n grp HM Hgrp) as (v & ->).
  rewrite bind_Ok_l. apply IH.
Qed.

Lemma evaluate_grouping_total (matrix : list (list Q)) (n target : nat)
    (individual : list Q) :
  matrix_covers matrix n -> length individual = n ->
  exists fit, MatcherAgentGA.evaluate_grouping matrix individual target = Py.Ok fit.
Proof.
  intros HM Hlen. unfold MatcherAgentGA.evaluate_grouping.
  apply (evaluate_loop_total matrix n); [done|].
  rewrite <- Hlen. apply decode_individual_range.
Qed.

Lemma ga_matrix_covers (students : list student) :
  matrix_covers (MatcherAgentGA.create_compatibility_matrix students)
                (length students).
Proof.
  intros i j Hi Hj.
  unfold mat_get, MatcherAgentGA.create_compatibility_matrix, Py.index.
  destruct (lookup_lt_is_Some_2 students i Hi) as [si Hsi].
  destruct (lookup_lt_is_Some_2 students j Hj) as [sj Hsj].
  rewrite list_lookup_imap, Hsi. simpl.
  rewrite list_lookup_imap, Hsj. simpl. eauto.
Qed.

Lemma mapM_Ok_total_with {A B} (f : A -> Py.result B) (P : B -> Prop) (l : list A) :
  Forall (fun x => exists y, f x = Py.Ok y /\ P y) l ->
  exists ys, mapM f l = Py.Ok ys /\ Forall P ys /\ length ys = length l.
Proof.
  induction 1 as [|x l (y & Hy & HP) _ (ys & Hys & HPs & Hlen)].
  - by exists [].
  - exists (y :: ys). split; [|split; [by constructor | simpl; lia]].
    apply mapM_Ok_cons. eauto.
Qed.

Lemma first_max_preserves {A} (lt : A -> A -> bool) (P : A -> Prop)
    (x : A) (rest : list A) :
  P x -> Forall P rest -> P (Py.first_max lt x rest).
Proof.
  unfold Py.first_max. intros Hx Hrest. revert x Hx.
  induction Hrest as [|y rest Hy _ IH]; intros x Hx; simpl; [done|].
  apply IH. by destruct (lt x y).
Qed.

Lemma first_max_rated (x : MatcherAgentGA.individual)
    (rest : list MatcherAgentGA.individual) :
  rated x -> Forall rated rest ->
  exists fit,
    MatcherAgentGA.fitness (Py.first_max MatcherAgentGA.fitness_ltb x rest)
    = Some fit
    /\ forall y, y ∈ x :: rest ->
         exists f, MatcherAgentGA.fitness y = Some f /\ f <= fit.
Proof.
  unfold Py.first_max. intros Hx Hrest. revert x Hx.
  induction Hrest as [|y rest Hy _ IH]; intros x [fx Hfx]; simpl.
  - exists fx. split; [done|]. intros y Hy.
    apply list_elem_of_singleton in Hy as ->. exists fx. split; [done | lra].
  - destruct Hy as [fy Hfy].
    destruct (MatcherAgentGA.fitness_ltb x y) eqn:Hlt;
      unfold MatcherAgentGA.fitness_ltb in Hlt; rewrite Hfx, Hfy in Hlt.
    + apply ltb_lt in Hlt.
      destruct (IH y) as (fit & Hfit & Hmax); [by eexists|].
      exists fit. split; [done|]. intros z Hz.
      apply elem_of_cons in Hz as [->|Hz]; [|by apply Hmax].
      destruct (Hmax y) as (f & Hf & Hle); [left|].
      exists fx. split; [done|]. assert (f = fy) by congruence. subst. lra.
    + apply ltb_ge in Hlt.
      destruct (IH x) as (fit & Hfit & Hmax); [by eexists|].
      exists fit. split; [done|]. intros z Hz.
      apply elem_of_cons in Hz as [->|Hz]; [by apply Hmax; left|].
      apply elem_of_cons in Hz as [->|Hz]; [|by apply Hmax; right].
      destruct (Hmax x) as (f & Hf & Hle); [left|].
      exists fy. split; [done|]. assert (f = fx) by congruence. subst. lra.
Qed.

Section SearchFacts.

Variable cfg : MatcherAgentGA.config.
Variable matrix : list (list Q).
Variable target n : nat.
Hypothesis matrix_ok : matrix_covers matrix n.
Hypothesis two_genes : (2 ≤ n)%nat.

Abbreviation wf := (well_formed matrix target n).
Abbreviation has_length := (fun ind => length (MatcherAgentGA.genes ind) = n).

Lemma assign_fitness_total (ind : MatcherAgentGA.individual) :
  has_length ind ->
  exists ind', MatcherAgentGA.assign_fitness matrix target ind = Py.Ok ind'
               /\ (wf ind' /\ rated ind').
Proof.
  intros Hlen. unfold MatcherAgentGA.assign_fitness.
  destruct (evaluate_grouping_total matrix n target _ matrix_ok Hlen) as (fit & Hfit).
  rewrite Hfit, bind_Ok_l. eexists. split; [done|]. split; [|by eexists].
  split; [done|]. simpl. by intros f [= <-].
Qed.

Lemma reevaluate_total (ind : MatcherAgentGA.individual) :
  wf ind ->
  exists ind', MatcherAgentGA.reevaluate matrix target ind = Py.Ok ind'
               /\ (wf ind' /\ rated ind').
Proof.
  intros Hwf. unfold MatcherAgentGA.reevaluate.
  destruct (MatcherAgentGA.fitness ind) as [f|] eqn:E.
  - exists ind. split; [done|]. split; [done|]. unfold rated. by rewrite E.
  - apply assign_fitness_total, Hwf.
Qed.

Lemma selTournament_total (individuals : list MatcherAgentGA.individual)
    (k : nat) (g : Random.state) :
  individuals <> [] ->
  exists chosen g',
    MatcherAgentGA.selTournament individuals k 3 g = Py.Ok (chosen, g')
    /\ Forall (fun ind => ind ∈ individuals) chosen /\ length chosen = k.
Proof.
  intros Hne. unfold MatcherAgentGA.selTournament.
  apply init_repeat_total. clear g. intros g.
  destruct (init_repeat_total (Random.choice individuals)
              (fun ind => ind ∈ individuals) 3) with (g := g)
    as (aspirants & g1 & Hasp & Hin & Hlen).
  { intros g0. by apply choice_elem. }
  unfold MatcherAgentGA.selRandom.
  rewrite (rand_bind_Ok_l _ _ _ _ _ Hasp).
  destruct aspirants as [|x rest]; [done|].
  eexists _, g1. split; [done|].
  apply Forall_cons in Hin as [Hx Hrest]. by apply first_max_preserves.
Qed.

Lemma cxTwoPoint_total (ind1 ind2 : list Q) (g : Random.state) :
  length ind1 = n -> length ind2 = n ->
  exists genes1 genes2 g',
    MatcherAgentGA.cxTwoPoint ind1 ind2 g = Py.Ok ((genes1, genes2), g')
    /\ length genes1 = n /\ length genes2 = n.
Proof.
  intros H1 H2. unfold MatcherAgentGA.cxTwoPoint. rewrite H1, H2, Nat.min_id.
  destruct (randint_range 1 n g ltac:(lia)) as (c1 & g1 & Hc1 & Hr1).
  destruct (randint_range 1 (n - 1) g1 ltac:(lia)) as (c2 & g2 & Hc2 & Hr2).
  rewrite (rand_bind_Ok_l _ _ _ _ _ Hc1), (rand_bind_Ok_l _ _ _ _ _ Hc2).
  case_decide; eexists _, _, g2; (split; [done|]);
    rewrite !length_app, !length_take, !length_drop; lia.
Qed.

Lemma mutFlipBit_total (ind : list Q) (indpb : Q) (g : Random.state) :
  exists genes' g',
    MatcherAgentGA.mutFlipBit ind indpb g = Py.Ok (genes', g')
    /\ length genes' = length ind.
Proof.
  revert g. induction ind as [|gene rest IH]; intros g; simpl.
  - by exists [], g.
  - destruct (Random.random g) as [r g1] eqn:Hr.
    destruct (IH g1) as (rest' & g2 & Hrest & Hlen).
    eexists (_ :: rest'), g2. split; [|simpl; by rewrite Hlen].
    assert (H1 : Random.random' g = Py.Ok (r, g1))
      by (unfold Random.random'; by rewrite Hr).
    rewrite (rand_bind_Ok_l _ _ _ _ _ H1), (rand_bind_Ok_l _ _ _ _ _ Hrest).
    done.
Qed.

Lemma mutate_one_total (mutant : MatcherAgentGA.individual) (g : Random.state) :
  wf mutant ->
  exists mutant' g',
    MatcherAgentGA.mutate_one cfg mutant g = Py.Ok (mutant', g') /\ wf mutant'.
Proof.
  intros [Hlen Hfit]. unfold MatcherAgentGA.mutate_one.
  destruct (Random.random g) as [r g1] eqn:Hr.
  assert (H1 : Random.random' g = Py.Ok (r, g1))
    by (unfold Random.random'; by rewrite Hr).
  rewrite (rand_bind_Ok_l _ _ _ _ _ H1).
  destruct (Py.ltb r _).
  - destruct (mutFlipBit_total (MatcherAgentGA.genes mutant) 0.05 g1)
      as (genes' & g2 & Hm & Hl).
    rewrite (rand_bind_Ok_l _ _ _ _ _ Hm).
    eexists _, g2. split; [done|]. split; simpl; [congruence | done].
  - exists mutant, g1. split; [done|]. by split.
Qed.

Lemma crossover_loop_total (k : nat) (offspring : list MatcherAgentGA.individual)
    (g : Random.state) :
  (length offspring ≤ k)%nat ->
  Forall wf offspring ->
  exists offspring' g',
    MatcherAgentGA.crossover_loop cfg offspring g = Py.Ok (offspring', g')
    /\ Forall wf offspring' /\ length offspring' = length offspring.
Proof.
  revert offspring g. induction k as [|k IH]; intros offspring g Hk Hwf.
  { destruct offspring; [|simpl in Hk; lia]. by exists [], g. }
  destruct offspring as [|child1 [|child2 rest]].
  - by exists [], g.
  - by exists [child1], g.
  - apply Forall_cons in Hwf as [Hw1 Hwf]. apply Forall_cons in Hwf as [Hw2 Hwf].
    simpl.
    destruct (Random.random g) as [r g1] eqn:Hr.
    assert (H1 : Random.random' g = Py.Ok (r, g1))
      by (unfold Random.random'; by rewrite Hr).
    rewrite (rand_bind_Ok_l _ _ _ _ _ H1).
    destruct (Py.ltb r _).
    + destruct (cxTwoPoint_total (MatcherAgentGA.genes child1)
                  (MatcherAgentGA.genes child2) g1 (proj1 Hw1) (proj1 Hw2))
        as (genes1 & genes2 & g2 & Hcx & Hl1 & Hl2).
      rewrite (rand_bind_Ok_l _ _ _ _ _
                 (rand_bind_Ok_l _ _ _ _ _ Hcx)).
      destruct (IH rest g2) as (rest' & g3 & Hrest & Hwf' & Hlen);
        [simpl in Hk; lia | done |].
      rewrite (rand_bind_Ok_l _ _ _ _ _ Hrest).
      eexists _, g3. split; [done|]. split; [|simpl; by rewrite Hlen].
      repeat (apply Forall_cons_2; [by split|]). done.
    + destruct (IH rest g1) as (rest' & g3 & Hrest & Hwf' & Hlen);
        [simpl in Hk; lia | done |].
      assert (H2 : (mret (child1, child2) : Random.rand _) g1
                   = Py.Ok ((child1, child2), g1)) by done.
      rewrite (rand_bind_Ok_l _ _ _ _ _ H2), (rand_bind_Ok_l _ _ _ _ _ Hrest).
      eexists _, g3. split; [done|]. split; [|simpl; by rewrite Hlen].
      repeat (apply Forall_cons_2; [done|]). done.
Qed.

Lemma generation_total (population : list MatcherAgentGA.individual)
    (g : Random.state) :
  population <> [] ->
  Forall has_length population ->
  exists population' g',
    MatcherAgentGA.generation cfg matrix target population g
    = Py.Ok (population', g')
    /\ Forall (fun ind => wf ind /\ rated ind) population'
    /\ length population' = length population.
Proof.
  intros Hne Hlen. unfold MatcherAgentGA.generation.
  destruct (mapM_Ok_total_with (MatcherAgentGA.assign_fitness matrix target)
              (fun ind => wf ind /\ rated ind) population)
    as (pop1 & Hpop1 & Hwf1 & Hlen1).
  { eapply Forall_impl; [done|]. intros ind Hind. by apply assign_fitness_total. }
  rewrite (rand_bind_Ok_l _ _ _ _ _ (lift_Ok _ _ g Hpop1)).
  destruct (selTournament_total pop1 (length pop1) g)
    as (off1 & g1 & Hsel & Hin & Hlen2).
  { intros ->. destruct population; simpl in *; done. }
  rewrite (rand_bind_Ok_l _ _ _ _ _ Hsel).
  assert (Hwf2 : Forall wf off1).
  { eapply Forall_impl; [done|]. intros ind Hind. simpl in Hind.
    rewrite Forall_forall in Hwf1. by apply Hwf1. }
  destruct (crossover_loop_total (length off1) off1 g1)
    as (off2 & g2 & Hcx & Hwf3 & Hlen3); [done | done |].
  rewrite (rand_bind_Ok_l _ _ _ _ _ Hcx).
  destruct (mapM_rand_total (MatcherAgentGA.mutate_one cfg) wf wf off2)
    with (g := g2) as (off3 & g3 & Hmut & Hwf4 & Hlen4).
  { intros a g0 Ha. by apply mutate_one_total. }
  { done. }
  rewrite (rand_bind_Ok_l _ _ _ _ _ Hmut).
  destruct (mapM_Ok_total_with (MatcherAgentGA.reevaluate matrix target)
              (fun ind => wf ind /\ rated ind) off3)
    as (off4 & Hre & Hwf5 & Hlen5).
  { eapply Forall_impl; [done|]. intros ind Hind. by apply reevaluate_total. }
  exists off4, g3. split; [by apply lift_Ok|]. split; [done | lia].
Qed.

Lemma evolve_total (gens : nat) (population : list MatcherAgentGA.individual)
    (g : Random.state) :
  population <> [] ->
  Forall has_length population ->
  exists population' g',
    MatcherAgentGA.evolve cfg matrix target gens population g
    = Py.Ok (population', g')
    /\ length population' = length population
    /\ Forall has_length population'
    /\ ((1 ≤ gens)%nat \/ Forall (fun ind => wf ind /\ rated ind) population ->
        Forall (fun ind => wf ind /\ rated ind) population').
Proof.
  revert population g. induction gens as [|gens IH]; intros population g Hne Hlen.
  - exists population, g. split; [done|]. split; [done|]. split; [done|].
    intros [?|?]; [lia | done].
  - simpl.
    destruct (generation_total population g Hne Hlen)
      as (pop1 & g1 & Hgen & Hwf1 & Hlen1).
    rewrite (rand_bind_Ok_l _ _ _ _ _ Hgen).
    destruct (IH pop1 g1) as (pop2 & g2 & Hev & Hlen2 & Hhl & Hwf2).
    { intros ->. destruct population; simpl in *; done. }
    { eapply Forall_impl; [done|]. by intros ind [[? _] _]. }
    exists pop2, g2. split; [done|]. split; [lia|]. split; [done|].
    intros _. apply Hwf2. by right.
Qed.

Lemma initial_population_total (g : Random.state) :
  exists population g',
    MatcherAgentGA.initial_population cfg n g = Py.Ok (population, g')
    /\ Forall has_length population
    /\ length population = MatcherAgentGA.population_size cfg.
Proof.
  unfold MatcherAgentGA.initial_population.
  apply init_repeat_total. clear g. intros g.
  destruct (init_repeat_total Random.random' (fun _ => True) n) with (g := g)
    as (genes0 & g1 & Hg & _ & Hlen).
  { intros g0. destruct (Random.random g0) as [r g'] eqn:Hr.
    exists r, g'. split; [|done]. unfold Random.random'. by rewrite Hr. }
  rewrite (rand_bind_Ok_l _ _ _ _ _ Hg). by eexists _, g1.
Qed.

End SearchFacts.

(** C5 (as amended): for every run of the search of [form_groups_ga] (every
    state of the random generator, at least two students, one individual
    and one generation), the run completes, and the fitness of the best
    genome selected from the final population is the value of
    [evaluate_grouping] on it and is greater than or equal to the fitness
    of every genome of the final population. *)
Theorem search_best_of_final_population
    (cfg : MatcherAgentGA.config) (students : list student)
    (target : nat) (g : Random.state) :
  (2 ≤ length students)%nat ->
  (1 ≤ MatcherAgentGA.population_size cfg)%nat ->
  (1 ≤ MatcherAgentGA.generations cfg)%nat ->
  exists population0 population best best_fitness g',
    MatcherAgentGA.search cfg
      (MatcherAgentGA.create_compatibility_matrix students) target
      (length students) g
    = Py.Ok ((population0, population, best, best_fitness), g')
    /\ best ∈ population
    /\ MatcherAgentGA.evaluate_grouping
         (MatcherAgentGA.create_compatibility_matrix students)
         (MatcherAgentGA.genes best) target = Py.Ok best_fitness
    /\ forall ind, ind ∈ population ->
         exists f,
           MatcherAgentGA.evaluate_grouping
             (MatcherAgentGA.create_compatibility_matrix students)
             (MatcherAgentGA.genes ind) target = Py.Ok f
           /\ f <= best_fitness.
Proof.
  intros Hn Hpop Hgens.
  set (matrix := MatcherAgentGA.create_compatibility_matrix students).
  pose proof (ga_matrix_covers students) as HM. fold matrix in HM.
  unfold MatcherAgentGA.search.
  destruct (initial_population_total cfg (length students) g)
    as (pop0 & g0 & Hinit & Hlen0 & Hsize).
  rewrite (rand_bind_Ok_l _ _ _ _ _ Hinit).
  destruct (evolve_total cfg matrix target (length students) HM Hn
              (MatcherAgentGA.generations cfg) pop0 g0)
    as (pop & g1 & Hev & Hlen & _ & Hwf); [| done |].
  { intros ->. simpl in Hsize. lia. }
  rewrite (rand_bind_Ok_l _ _ _ _ _ Hev).
  specialize (Hwf (or_introl Hgens)).
  destruct pop as [|x rest]; [simpl in Hlen; lia|].
  apply Forall_cons in Hwf as Hwf'. destruct Hwf' as [[Hwx Hrx] Hrest].
  destruct (first_max_rated x rest Hrx) as (fit & Hfit & Hmax).
  { eapply Forall_impl; [done|]. by intros ind [_ ?]. }
  assert (Hbest :
    well_formed matrix target (length students)
      (Py.first_max MatcherAgentGA.fitness_ltb x rest)).
  { apply (first_max_preserves MatcherAgentGA.fitness_ltb
             (well_formed matrix target (length students))); [done|].
    eapply Forall_impl; [done|]. by intros ind [? _]. }
  simpl MatcherAgentGA.selBest1.
  rewrite (rand_bind_Ok_l _ _ _ _ _ (lift_Ok _ _ g1 eq_refl)).
  rewrite Hfit.
  rewrite (rand_bind_Ok_l _ _ _ _ _ (lift_Ok _ _ g1 eq_refl)).
  eexists _, _, _, _, g1. split; [done|]. split; [|split].
  - apply (first_max_preserves MatcherAgentGA.fitness_ltb
             (fun ind => ind ∈ x :: rest)); [left|].
    apply Forall_forall. intros y Hy. by right.
  - by apply Hbest.
  - intros ind Hind. destruct (Hmax ind Hind) as (f & Hf & Hle).
    exists f. split; [|done].
    rewrite Forall_forall in Hwf. destruct (Hwf ind Hind) as [[_ Hev'] _].
    by apply Hev'.
Qed.

Lemma search_best_of_final_population_witness :
  exists population0 population best best_fitness g',
    MatcherAgentGA.search MatcherAgentGA.default_config
      (MatcherAgentGA.create_compatibility_matrix six_students) 4
      (length six_students) losing_stream
    = Py.Ok ((population0, population, best, best_fitness), g')
    /\ best ∈ population
    /\ MatcherAgentGA.evaluate_grouping
         (MatcherAgentGA.create_compatibility_matrix six_students)
         (MatcherAgentGA.genes best) 4 = Py.Ok best_fitness
    /\ forall ind, ind ∈ population ->
         exists f,
           MatcherAgentGA.evaluate_grouping
             (MatcherAgentGA.create_compatibility_matrix six_students)
             (MatcherAgentGA.genes ind) 4 = Py.Ok f
           /\ f <= best_fitness.
Proof.
  apply (search_best_of_final_population MatcherAgentGA.default_config
           six_students 4 losing_stream); simpl; lia.
Defined.

(** *** Runs that see the same draws *)

Lemma follows_trans g1 g2 g3 : follows g1 g2 -> follows g2 g3 -> follows g1 g3.
Proof. intros H12 H23 k. by rewrite H12. Qed.

Lemma follows_next g g' :
  follows g g' ->
  (Random.next g).1 = (Random.next g').1
  /\ follows (Random.next g).2 (Random.next g').2.
Proof.
  intros H. split.
  - simpl. specialize (H 0%nat). by rewrite !Nat.add_0_r in H.
  - intros k. simpl. specialize (H (S k)).
    by rewrite !Nat.add_succ_r in H.
Qed.

Lemma steady_ret {A} (a : A) : steady (mret a : Random.rand A).
Proof. intros g g' H. by split. Qed.

Lemma steady_bind {A B} (m : Random.rand A) (k : A -> Random.rand B) :
  steady m -> (forall a, steady (k a)) -> steady (m ≫= k).
Proof.
  intros Hm Hk g g' H. specialize (Hm g g' H).
  unfold mbind, Random.rand_bind.
  destruct (m g) as [[a g1]|e|], (m g') as [[a' g1']|e'|]; try done.
  destruct Hm as [-> Hf]. by apply Hk.
Qed.

Lemma steady_lift {A} (r : Py.result A) : steady (Random.lift r).
Proof. intros g g' H. unfold Random.lift. by destruct r. Qed.

Lemma steady_random : steady Random.random'.
Proof.
  intros g g' H. destruct (follows_next g g' H) as [Hd Hf].
  unfold Random.random', Random.random.
  destruct (Random.next g) as [r g1], (Random.next g') as [r' g1'].
  simpl in *. by subst.
Qed.

Lemma steady_choice {A} (l : list A) : steady (Random.choice l).
Proof.
  intros g g' H. destruct (follows_next g g' H) as [Hd Hf].
  unfold Random.choice, Random.randbelow.
  destruct l as [|x l]; [done|].
  destruct (Random.next g) as [r g1], (Random.next g') as [r' g1'].
  simpl in Hd, Hf. subst r'.
  destruct (Py.index (x :: l) _); done.
Qed.

Lemma steady_randint (a b : nat) : steady (Random.randint a b).
Proof.
  intros g g' H. destruct (follows_next g g' H) as [Hd Hf].
  unfold Random.randint, Random.randbelow.
  case_decide; [done|].
  destruct (Random.next g) as [r g1], (Random.next g') as [r' g1'].
  simpl in Hd, Hf. by subst r'.
Qed.

Lemma steady_init_repeat {A} (f : Random.rand A) (k : nat) :
  steady f -> steady (Random.init_repeat f k).
Proof.
  intros Hf. induction k as [|k IH]; simpl.
  - apply steady_ret.
  - apply steady_bind; [done|]. intros x.
    apply steady_bind; [done|]. intros xs. apply steady_ret.
Qed.

Lemma steady_mapM {A B} (f : A -> Random.rand B) (l : list A) :
  (forall a, steady (f a)) -> steady (mapM f l).
Proof.
  intros Hf. induction l as [|a l IH].
  - apply steady_ret.
  - change (mapM f (a :: l)) with (y ← f a; k ← mapM f l; mret (y :: k)).
    apply steady_bind; [done|]. intros y.
    apply steady_bind; [done|]. intros k. apply steady_ret.
Qed.

Lemma steady_selTournament individuals k tournsize :
  steady (MatcherAgentGA.selTournament individuals k tournsize).
Proof.
  apply steady_init_repeat, steady_bind.
  - apply steady_init_repeat, steady_choice.
  - intros aspirants. apply steady_lift.
Qed.

Lemma steady_cxTwoPoint ind1 ind2 : steady (MatcherAgentGA.cxTwoPoint ind1 ind2).
Proof.
  unfold MatcherAgentGA.cxTwoPoint.
  apply steady_bind; [apply steady_randint|]. intros c1.
  apply steady_bind; [apply steady_randint|]. intros c2.
  case_decide; apply steady_ret.
Qed.

Lemma steady_mutFlipBit ind indpb : steady (MatcherAgentGA.mutFlipBit ind indpb).
Proof.
  induction ind as [|gene rest IH]; simpl; [apply steady_ret|].
  apply steady_bind; [apply steady_random|]. intros r.
  apply steady_bind; [done|]. intros rest'. apply steady_ret.
Qed.

Lemma steady_crossover_loop cfg (k : nat) offspring :
  (length offspring ≤ k)%nat ->
  steady (MatcherAgentGA.crossover_loop cfg offspring).
Proof.
  revert offspring. induction k as [|k IH]; intros offspring Hk.
  { destruct offspring; [|simpl in Hk; lia]. apply steady_ret. }
  destruct offspring as [|child1 [|child2 rest]]; try apply steady_ret.
  simpl. apply steady_bind; [apply steady_random|]. intros r.
  apply steady_bind.
  - destruct (Py.ltb r _); [|apply steady_ret].
    apply steady_bind; [apply steady_cxTwoPoint|]. intros [g1 g2].
    apply steady_ret.
  - intros [c1 c2]. apply steady_bind; [apply IH; simpl in Hk; lia|].
    intros rest'. apply steady_ret.
Qed.

Lemma steady_mutate_one cfg mutant : steady (MatcherAgentGA.mutate_one cfg mutant).
Proof.
  unfold MatcherAgentGA.mutate_one.
  apply steady_bind; [apply steady_random|]. intros r.
  destruct (Py.ltb r _); [|apply steady_ret].
  apply steady_bind; [apply steady_mutFlipBit|]. intros genes'. apply steady_ret.
Qed.

Lemma steady_generation cfg matrix target population :
  steady (MatcherAgentGA.generation cfg matrix target population).
Proof.
  unfold MatcherAgentGA.generation.
  apply steady_bind; [apply steady_lift|]. intros pop1.
  apply steady_bind; [apply steady_selTournament|]. intros off1.
  apply steady_bind; [by apply (steady_crossover_loop cfg (length off1))|].
  intros off2.
  apply steady_bind; [apply steady_mapM, steady_mutate_one|]. intros off3.
  apply steady_lift.
Qed.

(** A population that one generation reproduces under the draws ahead of
    [g0] stays as it is for any number of generations. *)
Lemma evolve_fixed_population cfg matrix target population g0 g1 :
  MatcherAgentGA.generation cfg matrix target population g0
  = Py.Ok (population, g1) ->
  follows g1 g0 ->
  forall gens g, follows g g0 ->
    exists g', MatcherAgentGA.evolve cfg matrix target gens population g
               = Py.Ok (population, g')
               /\ follows g' g0.
Proof.
  intros Hgen Hloop gens. induction gens as [|gens IH]; intros g Hg.
  - by exists g.
  - pose proof (steady_generation cfg matrix target population g g0 Hg) as Hs.
    rewrite Hgen in Hs.
    destruct (MatcherAgentGA.generation cfg matrix target population g)
      as [[pop' g2]|e|] eqn:E; try done.
    destruct Hs as [-> Hf].
    destruct (IH g2) as (g' & Hev & Hf'); [by eapply follows_trans|].
    exists g'. split; [|done]. simpl.
    by rewrite (rand_bind_Ok_l _ _ _ _ _ E).
Qed.

(** *** A run that loses its best initial genome *)

Lemma losing_draws_late (k : nat) :
  (300 ≤ k)%nat -> losing_draws k = 9007199254740991%N.
Proof.
  intros Hk. unfold losing_draws.
  rewrite (proj2 (Nat.ltb_ge k 6)) by lia.
  by rewrite (proj2 (Nat.ltb_ge k 300)) by lia.
Qed.

Lemma losing_after_follows (p q : nat) :
  (300 ≤ p)%nat -> (300 ≤ q)%nat -> follows (losing_after p) (losing_after q).
Proof.
  intros Hp Hq k. simpl. by rewrite !losing_draws_late by lia.
Qed.

Lemma losing_initial_population :
  MatcherAgentGA.initial_population MatcherAgentGA.default_config 6 losing_stream
  = Py.Ok (losing_initial, losing_after 300).
Proof. by vm_compute. Qed.

Lemma losing_first_generation :
  MatcherAgentGA.generation MatcherAgentGA.default_config
    (MatcherAgentGA.create_compatibility_matrix six_students) 4
    losing_initial (losing_after 300)
  = Py.Ok (settled, losing_after 525).
Proof. by vm_compute. Qed.

Lemma losing_next_generation :
  MatcherAgentGA.generation MatcherAgentGA.default_config
    (MatcherAgentGA.create_compatibility_matrix six_students) 4
    settled (losing_after 525)
  = Py.Ok (settled, losing_after 750).
Proof. by vm_compute. Qed.

Lemma evolve_step cfg matrix target gens population g population1 g1 r :
  MatcherAgentGA.generation cfg matrix target population g
  = Py.Ok (population1, g1) ->
  MatcherAgentGA.evolve cfg matrix target gens population1 g1 = r ->
  MatcherAgentGA.evolve cfg matrix target (S gens) population g = r.
Proof. intros Hgen <-. simpl. by rewrite (rand_bind_Ok_l _ _ _ _ _ Hgen). Qed.

Lemma search_outcome cfg matrix target n g population0 g0 population g1
    best best_fitness :
  MatcherAgentGA.initial_population cfg n g = Py.Ok (population0, g0) ->
  MatcherAgentGA.evolve cfg matrix target (MatcherAgentGA.generations cfg)
    population0 g0 = Py.Ok (population, g1) ->
  MatcherAgentGA.selBest1 population = Py.Ok best ->
  MatcherAgentGA.fitness best = Some best_fitness ->
  MatcherAgentGA.search cfg matrix target n g
  = Py.Ok ((population0, population, best, best_fitness), g1).
Proof.
  intros Hinit Hev Hbest Hfit. unfold MatcherAgentGA.search.
  rewrite (rand_bind_Ok_l _ _ _ _ _ Hinit), (rand_bind_Ok_l _ _ _ _ _ Hev).
  rewrite (rand_bind_Ok_l _ _ _ _ _ (lift_Ok _ _ g1 Hbest)), Hfit.
  by rewrite (rand_bind_Ok_l _ _ _ _ _ (lift_Ok _ _ g1 eq_refl)).
Qed.

Lemma settled_best : MatcherAgentGA.selBest1 settled = Py.Ok settled_individual.
Proof. by vm_compute. Qed.

(** C5, the claim as first stated fails: nothing carries the best genome
    over from one generation to the next. In the run below with the
    default parameters the first genome of the initial population decodes
    to two groups of three, no tournament ever draws it, and from the first
    generation on the population consists of copies of a genome that
    decodes to one group of six, penalised by 100: the best genome selected
    from the final population has a lower fitness than that initial
    genome. *)
Lemma search_forgets_initial_best :
  exists g' ind0 f0,
    MatcherAgentGA.search MatcherAgentGA.default_config
      (MatcherAgentGA.create_compatibility_matrix six_students) 4
      (length six_students) losing_stream
    = Py.Ok ((losing_initial, settled, settled_individual,
              fitness_of zero_genome), g')
    /\ ind0 ∈ losing_initial
    /\ MatcherAgentGA.evaluate_grouping
         (MatcherAgentGA.create_compatibility_matrix six_students)
         (MatcherAgentGA.genes ind0) 4 = Py.Ok f0
    /\ fitness_of zero_genome < f0.
Proof.
  destruct (evolve_fixed_population MatcherAgentGA.default_config
              (MatcherAgentGA.create_compatibility_matrix six_students) 4
              settled (losing_after 525) (losing_after 750)
              losing_next_generation
              (losing_after_follows 750 525 ltac:(lia) ltac:(lia))
              99 (losing_after 525))
    as (g' & Hev & _); [apply losing_after_follows; lia|].
  exists g', {| MatcherAgentGA.genes := high_genome;
                MatcherAgentGA.fitness := None |}, (fitness_of high_genome).
  split; [|split; [left | split; by vm_compute]].
  exact (search_outcome MatcherAgentGA.default_config
           (MatcherAgentGA.create_compatibility_matrix six_students) 4 6
           losing_stream losing_initial (losing_after 300) settled g'
           settled_individual (fitness_of zero_genome)
           losing_initial_population
           (evolve_step MatcherAgentGA.default_config _ 4 99 losing_initial
              (losing_after 300) settled (losing_after 525) _
              losing_first_generation Hev)
           settled_best eq_refl).
Qed.

(** * Further properties *)

(** ** The compatibility matrix, entry by entry *)

Lemma matrix_is_ext n f f' matrix :
  matrix_is n f matrix ->
  (forall a b, (a < n)%nat -> (b < n)%nat -> f a b = f' a b) ->
  matrix_is n f' matrix.
Proof.
  intros [Hlen Hrows] Heq. split; [done|]. intros a Ha.
  destruct (Hrows a Ha) as (row & Hrow & Hl & Hent).
  exists row. split; [done|]. split; [done|].
  intros b Hb. rewrite <- Heq by done. by apply Hent.
Qed.

Lemma matrix_is_unique n f matrix matrix' :
  matrix_is n f matrix -> matrix_is n f matrix' -> matrix = matrix'.
Proof.
  intros [Hlen Hrows] [Hlen' Hrows']. apply list_eq. intros a.
  destruct (decide (a < n)%nat) as [Ha|Ha].
  - destruct (Hrows a Ha) as (row & -> & Hl & Hent).
    destruct (Hrows' a Ha) as (row' & -> & Hl' & Hent').
    f_equal. apply list_eq. intros b.
    destruct (decide (b < n)%nat) as [Hb|Hb].
    + by rewrite Hent, Hent'.
    + rewrite !lookup_ge_None_2 by lia. done.
  - rewrite !lookup_ge_None_2 by lia. done.
Qed.

Lemma matrix_is_zero n : matrix_is n (fun _ _ => 0) (replicate n (replicate n 0)).
Proof.
  split; [apply length_replicate|]. intros a Ha.
  exists (replicate n 0). split; [by apply lookup_replicate_2|].
  split; [apply length_replicate|]. intros b Hb. by apply lookup_replicate_2.
Qed.

Lemma mat_set_is n f matrix i j v :
  matrix_is n f matrix -> (i < n)%nat -> (j < n)%nat ->
  exists matrix',
    mat_set matrix i j v = Py.Ok matrix'
    /\ matrix_is n (fun a b => if decide (a = i /\ b = j) then v else f a b)
                 matrix'.
Proof.
  intros [Hlen Hrows] Hi Hj. unfold mat_set, Py.index.
  destruct (Hrows i Hi) as (row & Hrow & Hl & Hent).
  rewrite Hrow. simpl. rewrite decide_True by lia.
  eexists. split; [done|]. split; [by rewrite length_insert|].
  intros a Ha. destruct (decide (a = i)) as [->|Hai].
  - exists (<[j := v]> row).
    split; [apply list_lookup_insert_eq; lia|].
    split; [by rewrite length_insert|]. intros b Hb.
    destruct (decide (b = j)) as [->|Hbj].
    + rewrite decide_True by done. apply list_lookup_insert_eq. lia.
    + rewrite decide_False by tauto.
      rewrite list_lookup_insert_ne by done. by apply Hent.
  - destruct (Hrows a Ha) as (row' & Hrow' & Hl' & Hent').
    exists row'. split; [by rewrite list_lookup_insert_ne|].
    split; [done|]. intros b Hb. rewrite decide_False by tauto. by apply Hent'.
Qed.

Lemma students_index (students : list student) (a : nat) :
  (a < length students)%nat -> Py.index students a = Py.Ok (students !!! a).
Proof.
  intros Ha. unfold Py.index.
  by rewrite (list_lookup_lookup_total_lt students a Ha).
Qed.

Lemma fill_row_is score (students : list student) (i len j : nat) matrix :
  (i < j)%nat -> (j + len = length students)%nat ->
  matrix_is (length students) (filled_entry score students i j) matrix ->
  exists matrix',
    fill_row score students matrix i (seq j len) = Py.Ok matrix'
    /\ matrix_is (length students)
         (filled_entry score students i (length students)) matrix'.
Proof.
  revert j matrix. induction len as [|len IH]; intros j matrix Hij Hn HM.
  - exists matrix. split; [done|]. by replace (length students) with j at 2 by lia.
  - simpl.
    rewrite (students_index students i), bind_Ok_l by lia.
    rewrite (students_index students j), bind_Ok_l by lia.
    set (s := score (students !!! i) (students !!! j)).
    destruct (mat_set_is _ _ matrix i j s HM) as (m1 & -> & HM1); [lia | lia |].
    rewrite bind_Ok_l.
    destruct (mat_set_is _ _ m1 j i s HM1) as (m2 & -> & HM2); [lia | lia |].
    rewrite bind_Ok_l.
    apply IH; [lia | lia |].
    eapply matrix_is_ext; [exact HM2|].
    intros a b Ha Hb. unfold filled_entry, pair_entry.
    repeat case_decide; try lia; subst; try done;
      try (destruct_and?; destruct_or?; destruct_and?; subst; try lia; done).
Qed.

Lemma fill_rows_is score (students : list student) (len i : nat) matrix :
  (i + len = length students)%nat ->
  matrix_is (length students) (filled_entry score students i (S i)) matrix ->
  exists matrix',
    fill_rows score students matrix (seq i len) = Py.Ok matrix'
    /\ matrix_is (length students) (pair_entry score students) matrix'.
Proof.
  revert i matrix. induction len as [|len IH]; intros i matrix Hn HM.
  - exists matrix. split; [done|].
    eapply matrix_is_ext; [exact HM|].
    intros a b Ha Hb. unfold filled_entry, pair_entry.
    repeat case_decide; try lia; done.
  - simpl.
    destruct (fill_row_is score students i (length students - (i + 1)) (i + 1)
                matrix) as (m1 & -> & HM1); [lia | lia | |].
    { by replace (i + 1)%nat with (S i) by lia. }
    rewrite bind_Ok_l. apply IH; [lia|].
    eapply matrix_is_ext; [exact HM1|].
    intros a b Ha Hb. unfold filled_entry.
    repeat case_decide; try lia; done.
Qed.

Lemma pair_matrix_is score (students : list student) :
  matrix_is (length students) (pair_entry score students)
    (imap (fun i si =>
       imap (fun j sj =>
         if decide (i < j)%nat then score si sj
         else if decide (j < i)%nat then score sj si
         else 0) students) students).
Proof.
  split; [apply length_imap|]. intros a Ha.
  rewrite list_lookup_imap, (list_lookup_lookup_total_lt students a Ha). simpl.
  eexists. split; [done|]. split; [apply length_imap|]. intros b Hb.
  rewrite list_lookup_imap, (list_lookup_lookup_total_lt students b Hb). done.
Qed.

Lemma fill_matrix_closed_form score (students : list student) :
  fill_matrix score students
  = Py.Ok (imap (fun i si =>
       imap (fun j sj =>
         if decide (i < j)%nat then score si sj
         else if decide (j < i)%nat then score sj si
         else 0) students) students).
Proof.
  unfold fill_matrix.
  destruct (fill_rows_is score students (length students) 0
              (replicate (length students) (replicate (length students) 0)))
    as (matrix & -> & HM); [lia | |].
  - eapply matrix_is_ext; [apply matrix_is_zero|].
    intros a b Ha Hb. unfold filled_entry. rewrite decide_False; [done|]. lia.
  - f_equal. eapply matrix_is_unique; [exact HM | apply pair_matrix_is].
Qed.

(** X1: the nested loops of [create_compatibility_matrix], writing
    [matrix[i][j]] and [matrix[j][i]] for every [i < j], never index out of
    range and leave exactly the matrix of the closed form used above, in
    both agents. *)
Theorem create_compatibility_matrix_loops_spec (students : list student) :
  MatcherAgent.create_compatibility_matrix_loops students
  = Py.Ok (MatcherAgent.create_compatibility_matrix students)
  /\ MatcherAgentGA.create_compatibility_matrix_loops students
     = Py.Ok (MatcherAgentGA.create_compatibility_matrix students).
Proof. split; apply fill_matrix_closed_form. Qed.

Lemma pair_entry_sym score students a b :
  pair_entry score students a b = pair_entry score students b a.
Proof. unfold pair_entry. repeat case_decide; try lia; done. Qed.

Lemma matrix_is_get n f matrix a b :
  matrix_is n f matrix -> (a < n)%nat -> (b < n)%nat ->
  mat_get matrix a b = Py.Ok (f a b).
Proof.
  intros [_ Hrows] Ha Hb. destruct (Hrows a Ha) as (row & Hrow & _ & Hent).
  unfold mat_get, Py.index. rewrite Hrow. simpl. by rewrite (Hent b Hb).
Qed.

Lemma fill_matrix_pairwise score (students : list student) :
  exists matrix,
    fill_matrix score students = Py.Ok matrix
    /\ pairwise_matrix score students matrix.
Proof.
  eexists. split; [apply fill_matrix_closed_form|].
  pose proof (pair_matrix_is score students) as HM.
  set (matrix := imap _ students) in *.
  split; [apply HM|]. split.
  { apply Forall_forall. intros row Hrow.
    apply list_elem_of_lookup in Hrow as [a Ha].
    assert (a < length students)%nat as Hlt.
    { apply lookup_lt_Some in Ha. by rewrite (proj1 HM) in Ha. }
    destruct (proj2 HM a Hlt) as (row' & Hrow' & Hl & _). congruence. }
  intros i j Hi Hj.
  rewrite !(matrix_is_get _ _ _ _ _ HM) by done.
  split; [by rewrite pair_entry_sym|]. split.
  - unfold pair_entry. by rewrite !decide_False by lia.
  - intros Hij. unfold pair_entry. by rewrite decide_True.
Qed.

(** X2: for every list of students the loops of
    [create_compatibility_matrix] finish without an error, in both agents,
    and the matrix they return is square of the size of the population,
    symmetric, zero on the diagonal, and for [i < j] its entry is the score
    the agent's [calculate_compatibility] gives the students at [i] and [j]
    taken in that order. *)
Theorem create_compatibility_matrix_symmetric (students : list student) :
  (exists matrix,
     MatcherAgent.create_compatibility_matrix_loops students = Py.Ok matrix
     /\ pairwise_matrix MatcherAgent.calculate_compatibility students matrix)
  /\ (exists matrix,
        MatcherAgentGA.create_compatibility_matrix_loops students = Py.Ok matrix
        /\ pairwise_matrix MatcherAgentGA.calculate_compatibility students matrix).
Proof. split; apply fill_matrix_pairwise. Qed.

(** ** The sub-scores at their extremes *)

Lemma skill_names_nonempty (s : student) : skills s <> [] -> skill_names s <> ∅.
Proof.
  unfold skill_names. destruct (skills s) as [|x l]; [done|].
  intros _. simpl. set_solver.
Qed.

Lemma avail_keys_nonempty (s : student) :
  availability s <> [] -> avail_keys s <> ∅.
Proof.
  unfold avail_keys. destruct (availability s) as [|x l]; [done|].
  intros _. simpl. set_solver.
Qed.

Lemma of_nat_ratio_one (n : nat) : (0 < n)%nat -> Py.of_nat n / Py.of_nat n == 1.
Proof.
  intros Hn. pose proof (of_nat_pos n Hn). field. lra.
Qed.

Lemma of_nat_ratio_zero (n : nat) : Py.of_nat 0 / Py.of_nat n == 0.
Proof. unfold Qdiv. change (Py.of_nat 0) with 0. lra. Qed.

Lemma max2_proper (a b b' : Q) : b == b' -> Py.max2 a b == Py.max2 a b'.
Proof.
  intros H. unfold Py.max2. rewrite (ltb_proper a a (reflexivity a) b b' H).
  by destruct (Py.ltb a b').
Qed.

Lemma skill_diversity_of_ratio (a b : student) :
  skill_names a <> ∅ -> skill_names b <> ∅ ->
  MatcherAgent.calculate_skill_diversity a b
  == Py.max2 0 (1 - Qabs (Py.of_nat (size (skill_names a ∩ skill_names b))
                          / Py.of_nat (size (skill_names a ∪ skill_names b))
                          - 0.5) * 2).
Proof.
  intros Ha Hb. unfold MatcherAgent.calculate_skill_diversity.
  rewrite decide_False by tauto.
  rewrite decide_False by (intros Hu; by apply empty_union_L in Hu as [? ?]).
  reflexivity.
Qed.

(** X3: for two students who both list skills, [calculate_skill_diversity]
    is 0 when their skill sets are the same, 0 again when they share no
    skill, and 1 when exactly half of the skills they list between them are
    shared. *)
Theorem skill_diversity_extremes (a b : student) :
  skill_names a <> ∅ -> skill_names b <> ∅ ->
  (skill_names a = skill_names b ->
   MatcherAgent.calculate_skill_diversity a b == 0)
  /\ (skill_names a ∩ skill_names b = ∅ ->
      MatcherAgent.calculate_skill_diversity a b == 0)
  /\ ((2 * size (skill_names a ∩ skill_names b)
       = size (skill_names a ∪ skill_names b))%nat ->
      MatcherAgent.calculate_skill_diversity a b == 1).
Proof.
  intros Ha Hb. rewrite (skill_diversity_of_ratio a b Ha Hb).
  pose proof (size_union_pos (skill_names a) (skill_names b) Ha) as Hpos.
  split; [|split].
  - intros Heq. rewrite <- Heq in *.
    rewrite (idemp_L (∩)), (idemp_L (∪)) in *.
    rewrite (max2_proper 0 _ 0); [by vm_compute|].
    rewrite (of_nat_ratio_one _ Hpos). by vm_compute.
  - intros Hd. rewrite Hd, size_empty.
    rewrite (max2_proper 0 _ 0); [by vm_compute|].
    rewrite of_nat_ratio_zero. by vm_compute.
  - intros Hhalf.
    rewrite (max2_proper 0 _ 1); [by vm_compute|].
    set (c := size (skill_names a ∩ skill_names b)) in *.
    rewrite <- Hhalf.
    assert (Hc : (0 < c)%nat) by lia.
    assert (Hr : Py.of_nat c / Py.of_nat (2 * c) == 0.5).
    { pose proof (of_nat_pos c Hc) as Hcp.
      unfold Py.of_nat in *. rewrite Nat2Z.inj_mul, inject_Z_mult.
      change (inject_Z (Z.of_nat 2)) with 2. field. lra. }
    rewrite Hr. by vm_compute.
Qed.

Lemma skill_diversity_extremes_witness :
  MatcherAgent.calculate_skill_diversity plain_student plain_student == 0.
Proof.
  destruct (skill_diversity_extremes plain_student plain_student)
    as (Hsame & _ & _); [by apply skill_names_nonempty..|].
  apply Hsame. reflexivity.
Defined.

(** X4: for two students who both list available slots,
    [calculate_schedule_overlap] is 1 when their slot sets are the same, 0
    when they share no slot, and between 0 and 1 in every case. *)
Theorem schedule_overlap_extremes (a b : student) :
  avail_keys a <> ∅ -> avail_keys b <> ∅ ->
  (avail_keys a = avail_keys b ->
   MatcherAgent.calculate_schedule_overlap a b == 1)
  /\ (avail_keys a ∩ avail_keys b = ∅ ->
      MatcherAgent.calculate_schedule_overlap a b == 0)
  /\ 0 <= MatcherAgent.calculate_schedule_overlap a b <= 1.
Proof.
  intros Ha Hb.
  pose proof (size_union_pos (avail_keys a) (avail_keys b) Ha) as Hpos.
  split; [|split; [|apply schedule_overlap_range]].
  - intros Heq. unfold MatcherAgent.calculate_schedule_overlap.
    rewrite decide_False by tauto. rewrite decide_True by done.
    rewrite <- Heq in *. rewrite (idemp_L (∩)), (idemp_L (∪)) in *.
    by apply of_nat_ratio_one.
  - intros Hd. unfold MatcherAgent.calculate_schedule_overlap.
    rewrite decide_False by tauto. rewrite decide_True by done.
    rewrite Hd, size_empty. apply of_nat_ratio_zero.
Qed.

Lemma schedule_overlap_extremes_witness :
  MatcherAgent.calculate_schedule_overlap plain_student plain_student == 1.
Proof.
  destruct (schedule_overlap_extremes plain_student plain_student)
    as (Hsame & _ & _); [by apply avail_keys_nonempty..|].
  apply Hsame. reflexivity.
Defined.

(** ** Grades *)

Lemma leb_gt x y : Py.leb x y = false <-> y < x.
Proof.
  unfold Py.leb. rewrite Qgt_alt.
  destruct (Qcompare x y); split; congruence.
Qed.

Lemma gwa_diff_points (x y : Q) :
  Qabs ((5 - x) / 4 - (5 - y) / 4) == Qabs (x - y) * (1 # 4).
Proof.
  assert (E : (5 - x) / 4 - (5 - y) / 4 == (y - x) * (1 # 4)) by (qconst; ring).
  rewrite E, Qabs_Qmult, (Qabs_Qminus y x). reflexivity.
Qed.

(** X5: when both students have a grade on the 1.0-5.0 scale,
    [calculate_gwa_balance] follows the gap between the two grades in grade
    points: it is 1.0 for a gap from 0.81 to 1.99, 0.7 for a gap of at most
    0.79 and 0.6 for a gap of at least 2.01. The limits of the code are 0.8
    and 2.0 grade points; for a gap within a hundredth of either, where the
    rounding of the code's binary arithmetic decides, nothing is stated. *)
Theorem gwa_balance_thresholds (a b : student) (x y : Q) :
  gwa a = Some x -> gwa b = Some y ->
  1 <= x <= 5 -> 1 <= y <= 5 ->
  (0.81 <= Qabs (x - y) <= 1.99 -> MatcherAgent.calculate_gwa_balance a b = 1)
  /\ (Qabs (x - y) <= 0.79 -> MatcherAgent.calculate_gwa_balance a b = 0.7)
  /\ (2.01 <= Qabs (x - y) -> MatcherAgent.calculate_gwa_balance a b = 0.6).
Proof.
  intros Ha Hb _ _. unfold MatcherAgent.calculate_gwa_balance. rewrite Ha, Hb.
  cbv zeta. rewrite !(gwa_diff_points x y).
  set (d := Qabs (x - y)). clearbody d.
  destruct (Py.leb 0.2 (d * (1 # 4))) eqn:E1;
    [apply leb_le in E1 | apply leb_gt in E1];
    (destruct (Py.leb (d * (1 # 4)) 0.5) eqn:E2;
     [apply leb_le in E2 | apply leb_gt in E2]);
    (destruct (Py.ltb (d * (1 # 4)) 0.2) eqn:E3;
     [apply ltb_lt in E3 | apply ltb_ge in E3]);
    simpl; repeat split; intros; try reflexivity; exfalso; lra.
Qed.

Lemma gwa_balance_thresholds_witness :
  MatcherAgent.calculate_gwa_balance top_gwa_student bare_student = 1
  /\ MatcherAgent.calculate_gwa_balance plain_student bare_student = 0.7
  /\ MatcherAgent.calculate_gwa_balance top_gwa_student low_gwa_student = 0.6.
Proof.
  split; [|split].
  - apply (gwa_balance_thresholds top_gwa_student bare_student 1 2.5);
      [reflexivity | reflexivity | by vm_compute..].
  - apply (gwa_balance_thresholds plain_student bare_student 1.75 2.5);
      [reflexivity | reflexivity | by vm_compute..].
  - apply (gwa_balance_thresholds top_gwa_student low_gwa_student 1 3.5);
      [reflexivity | reflexivity | by vm_compute..].
Defined.

(** ** The score of the evolutionary agent *)

Lemma ga_gwa_score_sym a b : ga_gwa_score a b = ga_gwa_score b a.
Proof.
  unfold ga_gwa_score. destruct (gwa a), (gwa b); try done.
  rewrite (andb_comm (MatcherAgentGA.truthy q0)). by rewrite Qabs_Qminus.
Qed.

Lemma ga_gwa_score_range a b : 0.5 <= ga_gwa_score a b <= 1.
Proof.
  unfold ga_gwa_score. destruct (gwa a), (gwa b); try lra.
  destruct (_ && _); [|lra].
  destruct (_ && _); [lra|]. destruct (Py.ltb _ _); lra.
Qed.

(** The overall score of the evolutionary agent, in terms of the sub-scores
    of [MatcherAgent] and its own reading of the grades. *)
Lemma ga_calculate_compatibility_split a b :
  MatcherAgentGA.calculate_compatibility a b
  = Py.round3 (MatcherAgent.calculate_skill_diversity a b * 0.30
               + ga_gwa_score a b * 0.20
               + MatcherAgent.calculate_schedule_overlap a b * 0.30
               + MatcherAgent.calculate_personality_compatibility a b * 0.20).
Proof.
  unfold MatcherAgentGA.calculate_compatibility.
  apply round3_proper.
  rewrite ga_skill_score_eq.
  apply Qplus_comp; [apply Qplus_comp; [apply Qplus_comp|]|]; try reflexivity.
  - apply Qmult_comp; [|reflexivity].
    unfold MatcherAgent.calculate_schedule_overlap.
    repeat case_decide; try tauto; try reflexivity.
  - apply Qmult_comp; [|reflexivity].
    unfold MatcherAgent.calculate_personality_compatibility.
    repeat case_decide; try tauto; try reflexivity.
Qed.

Lemma ga_calculate_compatibility_sym a b :
  MatcherAgentGA.calculate_compatibility a b
  = MatcherAgentGA.calculate_compatibility b a.
Proof.
  rewrite !ga_calculate_compatibility_split. apply round3_proper.
  rewrite (skill_diversity_sym a b), (ga_gwa_score_sym a b),
    (schedule_overlap_sym a b), (personality_sym a b). reflexivity.
Qed.

Lemma ga_calculate_compatibility_range a b :
  traits_on_scale a -> traits_on_scale b ->
  0 <= MatcherAgentGA.calculate_compatibility a b <= 1.
Proof.
  intros Ha Hb. rewrite ga_calculate_compatibility_split.
  apply round3_range.
  pose proof (skill_diversity_range a b). pose proof (ga_gwa_score_range a b).
  pose proof (schedule_overlap_range a b). pose proof (personality_range a b Ha Hb).
  lra.
Qed.



(** ** Students without a profile *)

Lemma empty_profile_neutral a b :
  empty_profile a ->
  MatcherAgent.calculate_skill_diversity a b = 0.5
  /\ MatcherAgent.calculate_gwa_balance a b = 0.5
  /\ MatcherAgent.calculate_schedule_overlap a b = 0.5
  /\ MatcherAgent.calculate_personality_compatibility a b = 0.5
  /\ ga_gwa_score a b = 0.5.
Proof.
  intros (Hs & Hv & Ht & Hg).
  unfold MatcherAgent.calculate_skill_diversity, MatcherAgent.calculate_gwa_balance,
    MatcherAgent.calculate_schedule_overlap,
    MatcherAgent.calculate_personality_compatibility, ga_gwa_score,
    skill_names, avail_keys.
  rewrite Hs, Hv, Ht, Hg. simpl.
  rewrite !decide_True by (by left). done.
Qed.

(** X7: a student without any profile data (no skill, no slot, no
    personality row, no grade) scores 0.5 with every other student, whatever
    the other's profile, under both agents and in both argument orders. *)
Theorem empty_profile_scores_half (a b : student) :
  empty_profile a ->
  MatcherAgent.calculate_compatibility a b == 0.5
  /\ MatcherAgent.calculate_compatibility b a == 0.5
  /\ MatcherAgentGA.calculate_compatibility a b == 0.5
  /\ MatcherAgentGA.calculate_compatibility b a == 0.5.
Proof.
  intros Ha.
  destruct (empty_profile_neutral a b Ha) as (E1 & E2 & E3 & E4 & E5).
  assert (H1 : MatcherAgent.calculate_compatibility a b == 0.5).
  { unfold MatcherAgent.calculate_compatibility, MatcherAgent.overall_score.
    rewrite E1, E2, E3, E4. by vm_compute. }
  assert (H2 : MatcherAgentGA.calculate_compatibility a b == 0.5).
  { rewrite ga_calculate_compatibility_split, E1, E3, E4, E5. by vm_compute. }
  rewrite (calculate_compatibility_sym b a), (ga_calculate_compatibility_sym b a).
  done.
Qed.

Lemma empty_profile_scores_half_witness :
  MatcherAgent.calculate_compatibility blank_student plain_student == 0.5
  /\ MatcherAgent.calculate_compatibility plain_student blank_student == 0.5
  /\ MatcherAgentGA.calculate_compatibility blank_student plain_student == 0.5
  /\ MatcherAgentGA.calculate_compatibility plain_student blank_student == 0.5.
Proof.
  apply (empty_profile_scores_half blank_student plain_student).
  by repeat split.
Defined.

(** ** The two agents on the same population *)

(** X8: when no student has a grade equal to the number zero, the two
    agents build the same compatibility matrix. *)
Theorem compatibility_matrices_agree (students : list student) :
  Forall nonzero_gwa students ->
  MatcherAgentGA.create_compatibility_matrix students
  = MatcherAgent.create_compatibility_matrix students.
Proof.
  intros Hnz.
  unfold MatcherAgentGA.create_compatibility_matrix,
    MatcherAgent.create_compatibility_matrix.
  apply imap_ext. intros i si Hi. apply imap_ext. intros j sj Hj.
  assert (Hsi : nonzero_gwa si).
  { eapply Forall_forall; [exact Hnz|]. by eapply list_elem_of_lookup_2. }
  assert (Hsj : nonzero_gwa sj).
  { eapply Forall_forall; [exact Hnz|]. by eapply list_elem_of_lookup_2. }
  simpl. repeat case_decide; try reflexivity;
    by apply ga_calculate_compatibility_eq.
Qed.

Lemma compatibility_matrices_agree_witness :
  MatcherAgentGA.create_compatibility_matrix [plain_student; bare_student]
  = MatcherAgent.create_compatibility_matrix [plain_student; bare_student].
Proof.
  apply (compatibility_matrices_agree [plain_student; bare_student]).
  apply Forall_cons_2; [|apply Forall_cons_2; [|apply Forall_nil_2]];
    intros v Hv; injection Hv as <-; by vm_compute.
Defined.

(** ** Skill match, its range *)

Lemma proficiency_weight_range (p : string) :
  0 <= CoordinatorAgent.proficiency_weight p <= 1.
Proof.
  unfold CoordinatorAgent.proficiency_weight.
  repeat case_decide; split; by vm_compute.
Qed.

Lemma skill_points_nonneg (d : gmap string skill) (name : string) :
  0 <= CoordinatorAgent.skill_points d name.
Proof.
  unfold CoordinatorAgent.skill_points. destruct (d !! name); [|lra].
  apply proficiency_weight_range.
Qed.

Lemma min2_cases a b : (Py.min2 a b = a /\ a <= b) \/ (Py.min2 a b = b /\ b < a).
Proof.
  unfold Py.min2. destruct (Py.ltb b a) eqn:E.
  - right. split; [done|]. by apply ltb_lt.
  - left. split; [done|]. by apply ltb_ge.
Qed.

(** X9: for every member and task, [calculate_skill_match] returns a value
    between 0 and 1. *)
Theorem calculate_skill_match_range
    (m : CoordinatorAgent.member) (t : CoordinatorAgent.task) :
  0 <= CoordinatorAgent.calculate_skill_match m t <= 1.
Proof.
  unfold CoordinatorAgent.calculate_skill_match.
  destruct (CoordinatorAgent.required_skills t) as [|r rs]; [split; by vm_compute|].
  case_decide; [split; by vm_compute|].
  set (required := list_to_set (r :: rs) : gset string).
  set (d := CoordinatorAgent.skills_by_name m).
  assert (Hsum : 0 <= Py.sum (map (CoordinatorAgent.skill_points d) (elements required))).
  { apply sum_nonneg, Forall_forall. intros x Hx.
    apply list_elem_of_In, in_map_iff in Hx as (name & <- & _).
    apply skill_points_nonneg. }
  set (s := Py.sum _) in *. clearbody s.
  match goal with |- context [Py.min2 ?f 1] =>
    assert (Hf : 0 <= f); [|destruct (min2_cases f 1) as [[-> ?]|[-> ?]]; lra] end.
  case_decide; [lra|].
  apply Qle_shift_div_l; [|lra].
  apply of_nat_pos. assert (size required <> 0%nat); [|lia].
  intros Hz. by apply size_empty_inv, leibniz_equiv in Hz.
Qed.

(** ** A group without members *)

(** X10: with pending tasks and no member in the group, [allocate_tasks]
    raises [ValueError] (the best of an empty candidate list) before
    anything is assigned. *)
Theorem allocate_tasks_empty_group (tasks : list CoordinatorAgent.task) :
  tasks <> [] ->
  CoordinatorAgent.allocate_tasks [] tasks = ([], Py.Error Py.ValueError).
Proof.
  intros Hne. unfold CoordinatorAgent.allocate_tasks.
  destruct tasks as [|t tasks]; [done|].
  pose proof (sorted_desc_perm
                (fun t => CoordinatorAgent.complexity_order
                            (CoordinatorAgent.complexity_level t)) (t :: tasks)) as Hp.
  fold (CoordinatorAgent.tasks_sorted (t :: tasks)) in Hp.
  destruct (CoordinatorAgent.tasks_sorted (t :: tasks)) as [|t' rest].
  - by apply Permutation_nil_cons in Hp.
  - reflexivity.
Qed.

Lemma allocate_tasks_empty_group_witness :
  CoordinatorAgent.allocate_tasks [] [backend_task; open_task]
  = ([], Py.Error Py.ValueError).
Proof. apply (allocate_tasks_empty_group [backend_task; open_task]). discriminate. Defined.

(** ** What an allocation leaves on the members *)

Lemma Forall2_Forall_right {A B} (P : A -> B -> Prop) (R : B -> Prop)
    (l : list A) (k : list B) :
  Forall2 P l k -> (forall x y, x ∈ l -> P x y -> R y) -> Forall R k.
Proof.
  induction 1 as [|x y l k Hxy _ IH]; intros HR; [constructor|].
  constructor.
  - apply (HR x); [left | done].
  - apply IH. intros x' y' Hx'. apply HR. by right.
Qed.

Lemma score_member_inv members t i m c :
  CoordinatorAgent.score_member members t i m = Py.Ok c ->
  CoordinatorAgent.cand_index c = i
  /\ CoordinatorAgent.cand_skill_match c = CoordinatorAgent.calculate_skill_match m t.
Proof.
  unfold CoordinatorAgent.score_member. intros H.
  apply bind_Ok in H as (ratio & _ & [= <-]). done.
Qed.

Lemma indexed_lookup {A} (l : list A) (p : nat * A) :
  p ∈ imap (fun i m => (i, m)) l -> l !! p.1 = Some p.2.
Proof.
  intros Hp. apply elem_of_lookup_imap in Hp as (i & x & -> & Hx). done.
Qed.

(** One pass picks a member of the group and changes that member only. *)
Lemma allocate_one_inv members t a members' :
  CoordinatorAgent.allocate_one members t = Py.Ok (a, members') ->
  CoordinatorAgent.a_task a = t
  /\ (CoordinatorAgent.a_member a < length members)%nat
  /\ members' = alter (CoordinatorAgent.assign_to t)
                      (CoordinatorAgent.a_member a) members.
Proof.
  unfold CoordinatorAgent.allocate_one. intros H.
  apply bind_Ok in H as (cands & Hc & H).
  apply bind_Ok in H as (best & Hb & [= <- <-]). simpl.
  split; [done|]. split; [|done].
  apply mapM_Ok in Hc.
  assert (Hall : Forall (fun c => CoordinatorAgent.cand_index c < length members)%nat
                        cands).
  { eapply Forall2_Forall_right; [exact Hc|].
    intros p c Hp Hs. apply score_member_inv in Hs as [-> _].
    apply indexed_lookup in Hp. by eapply lookup_lt_Some. }
  destruct cands as [|c cands]; [done|].
  injection Hb as <-.
  apply Forall_cons in Hall as [Hc0 Hrest].
  by apply first_max_preserves.
Qed.

Lemma sum_app (l k : list Q) : Py.sum (l ++ k) == Py.sum l + Py.sum k.
Proof.
  induction l as [|x l IH]; simpl.
  - change (Py.sum []) with 0. lra.
  - rewrite !sum_cons, IH. lra.
Qed.

Lemma hours_of_app ts ts' : hours_of (ts ++ ts') == hours_of ts + hours_of ts'.
Proof. unfold hours_of. rewrite map_app. apply sum_app. Qed.

Lemma hours_of_perm ts ts' : ts ≡ₚ ts' -> hours_of ts == hours_of ts'.
Proof. intros H. unfold hours_of. apply sum_perm. by apply fmap_Permutation. Qed.

Lemma assign_to_hours t m :
  hours_match_tasks m -> hours_match_tasks (CoordinatorAgent.assign_to t m).
Proof.
  unfold hours_match_tasks. simpl. intros ->.
  rewrite hours_of_app. unfold hours_of at 3. simpl.
  change (Py.sum [CoordinatorAgent.estimated_hours t])
    with (0 + CoordinatorAgent.estimated_hours t). lra.
Qed.

Lemma concat_tasks_alter t (i : nat) (members : list CoordinatorAgent.member) :
  (i < length members)%nat ->
  concat (map CoordinatorAgent.assigned_tasks
            (alter (CoordinatorAgent.assign_to t) i members))
  ≡ₚ concat (map CoordinatorAgent.assigned_tasks members) ++ [t].
Proof.
  revert i. induction members as [|m members IH]; intros i Hi; simpl in *; [lia|].
  destruct i as [|i]; simpl.
  - rewrite <- !app_assoc. apply Permutation_app_head, Permutation_app_comm.
  - rewrite <- app_assoc. apply Permutation_app_head. apply (IH i). lia.
Qed.

Lemma map_alter_unchanged {A B} (f : A -> B) (g : A -> A) (i : nat) (l : list A) :
  (forall x, f (g x) = f x) -> map f (alter g i l) = map f l.
Proof.
  intros Hfg. revert i. induction l as [|x l IH]; intros [|i]; simpl; try done.
  - by rewrite Hfg.
  - f_equal. apply IH.
Qed.

Lemma allocate_loop_conserves members tasks members' :
  (CoordinatorAgent.allocate_loop members tasks).2 = Py.Ok members' ->
  concat (map CoordinatorAgent.assigned_tasks members')
  ≡ₚ concat (map CoordinatorAgent.assigned_tasks members) ++ tasks
  /\ (Forall hours_match_tasks members -> Forall hours_match_tasks members')
  /\ map CoordinatorAgent.member_id members' = map CoordinatorAgent.member_id members
  /\ map CoordinatorAgent.first_name members' = map CoordinatorAgent.first_name members
  /\ map CoordinatorAgent.member_skills members'
     = map CoordinatorAgent.member_skills members.
Proof.
  revert members. induction tasks as [|t tasks IH]; intros members; simpl.
  - intros [= <-]. by rewrite app_nil_r.
  - destruct (CoordinatorAgent.allocate_one members t) as [[a ms]|e|] eqn:E;
      simpl; try done.
    specialize (IH ms).
    destruct (CoordinatorAgent.allocate_loop ms tasks) as [more outcome].
    simpl in *. intros H.
    destruct (IH H) as (Hperm & Hhours & Hid & Hname & Hskills).
    apply allocate_one_inv in E as (_ & Hlt & ->).
    split; [|split; [|split; [|split]]].
    + rewrite Hperm, concat_tasks_alter by done.
      by rewrite <- app_assoc.
    + intros Hm. apply Hhours. apply Forall_alter; [done|].
      intros m _. apply assign_to_hours.
    + rewrite Hid. by apply map_alter_unchanged.
    + rewrite Hname. by apply map_alter_unchanged.
    + rewrite Hskills. by apply map_alter_unchanged.
Qed.

Lemma reset_workload_tasks members :
  concat (map CoordinatorAgent.assigned_tasks
            (map CoordinatorAgent.reset_workload members)) = [].
Proof. induction members as [|m members IH]; simpl; done. Qed.

Lemma reset_workload_hours members :
  Forall hours_match_tasks (map CoordinatorAgent.reset_workload members).
Proof.
  induction members as [|m members IH]; simpl; constructor; [|done].
  unfold hours_match_tasks. simpl. reflexivity.
Qed.

Lemma reset_workload_nonneg members :
  Forall (fun m => 0 <= CoordinatorAgent.assigned_hours m)
         (map CoordinatorAgent.reset_workload members).
Proof.
  induction members as [|m members IH]; simpl; constructor; [|done].
  simpl. lra.
Qed.

Lemma total_hours_match members :
  Forall hours_match_tasks members ->
  Py.sum (map CoordinatorAgent.assigned_hours members)
  == hours_of (concat (map CoordinatorAgent.assigned_tasks members)).
Proof.
  induction 1 as [|m members Hm _ IH]; simpl; [reflexivity|].
  unfold hours_match_tasks in Hm. rewrite sum_cons, hours_of_app, IH, Hm. reflexivity.
Qed.

(** With a member, a pending task and no negative estimate the call
    returns what the allocation loop leaves, run on the members with their
    workload reset and the tasks sorted. *)
Lemma allocate_tasks_returns
    (members : list CoordinatorAgent.member)
    (tasks : list CoordinatorAgent.task) :
  members <> [] -> tasks <> [] ->
  Forall (fun t => 0 <= CoordinatorAgent.estimated_hours t) tasks ->
  exists members',
    (CoordinatorAgent.allocate_tasks members tasks).2 = Py.Ok members'
    /\ (CoordinatorAgent.allocate_loop
          (map CoordinatorAgent.reset_workload members)
          (CoordinatorAgent.tasks_sorted tasks)).2 = Py.Ok members'.
Proof.
  intros Hne Htasks Hhours. unfold CoordinatorAgent.allocate_tasks.
  destruct tasks as [|t tasks]; [done|].
  set (sorted := CoordinatorAgent.tasks_sorted (t :: tasks)).
  assert (Hperm : sorted ≡ₚ t :: tasks) by apply sorted_desc_perm.
  destruct (allocate_loop_total (map CoordinatorAgent.reset_workload members) sorted)
    as [members' Hm].
  { by destruct members. }
  { apply reset_workload_nonneg. }
  { by rewrite Hperm. }
  eauto.
Qed.

(** X11: with at least one member, at least one pending task and no
    negative estimate, [allocate_tasks] returns and leaves every task with
    exactly one member: the members' task lists together are a rearrangement
    of the pending tasks, every member's hours are the hours of the tasks
    that member holds, the hours of the group add up to the hours of all
    tasks, and the members keep their identity, name and skills in the same
    order. *)
Theorem allocate_tasks_conserves
    (members : list CoordinatorAgent.member)
    (tasks : list CoordinatorAgent.task) :
  members <> [] -> tasks <> [] ->
  Forall (fun t => 0 <= CoordinatorAgent.estimated_hours t) tasks ->
  exists members',
    (CoordinatorAgent.allocate_tasks members tasks).2 = Py.Ok members'
    /\ concat (map CoordinatorAgent.assigned_tasks members') ≡ₚ tasks
    /\ Forall hours_match_tasks members'
    /\ Py.sum (map CoordinatorAgent.assigned_hours members') == hours_of tasks
    /\ map CoordinatorAgent.member_id members'
       = map CoordinatorAgent.member_id members
    /\ map CoordinatorAgent.first_name members'
       = map CoordinatorAgent.first_name members
    /\ map CoordinatorAgent.member_skills members'
       = map CoordinatorAgent.member_skills members.
Proof.
  intros Hne Htasks Hhours.
  destruct (allocate_tasks_returns members tasks Hne Htasks Hhours)
    as (members' & Hret & Hm).
  exists members'. split; [done|].
  destruct (allocate_loop_conserves _ _ _ Hm) as (Hc & Hh & Hid & Hname & Hskills).
  rewrite reset_workload_tasks in Hc. simpl in Hc.
  assert (Hperm : CoordinatorAgent.tasks_sorted tasks ≡ₚ tasks)
    by apply sorted_desc_perm.
  assert (Hall : Forall hours_match_tasks members')
    by apply Hh, reset_workload_hours.
  split; [by rewrite Hc|]. split; [done|]. split.
  { rewrite (total_hours_match _ Hall). apply hours_of_perm. by rewrite Hc. }
  rewrite Hid, Hname, Hskills, !map_map. done.
Qed.

Lemma allocate_tasks_conserves_witness :
  exists members',
    (CoordinatorAgent.allocate_tasks [skilled_member; unskilled_member]
       [open_task; frontend_task; backend_task]).2 = Py.Ok members'
    /\ concat (map CoordinatorAgent.assigned_tasks members')
       ≡ₚ [open_task; frontend_task; backend_task]
    /\ Py.sum (map CoordinatorAgent.assigned_hours members')
       == hours_of [open_task; frontend_task; backend_task].
Proof.
  destruct (allocate_tasks_conserves [skilled_member; unskilled_member]
              [open_task; frontend_task; backend_task])
    as (members' & H1 & H2 & _ & H3 & _); [done | done | |].
  - repeat (apply Forall_cons_2; [by vm_compute|]). apply Forall_nil_2.
  - exists members'. auto.
Defined.

(** ** The first task of an allocation *)

(** [first_max] continues a scan of [pre] whose first maximum by [key] is
    [b], at position [bi]. *)
Lemma first_max_go {A} (key : A -> Q) (rest pre : list A) (b : A) (bi : nat) :
  pre !! bi = Some b ->
  (forall y, y ∈ pre -> key y <= key b) ->
  (forall j y, (j < bi)%nat -> pre !! j = Some y -> key y < key b) ->
  let r := foldl (fun best y => if Py.ltb (key best) (key y) then y else best)
                 b rest in
  exists i, (pre ++ rest) !! i = Some r
    /\ (forall y, y ∈ pre ++ rest -> key y <= key r)
    /\ (forall j y, (j < i)%nat -> (pre ++ rest) !! j = Some y -> key y < key r).
Proof.
  revert pre b bi.
  induction rest as [|x rest IH]; intros pre b bi Hb Hmax Hfirst; simpl.
  - rewrite app_nil_r. eauto.
  - assert (Hlen : length (pre ++ [x]) = S (length pre))
      by (rewrite length_app; simpl; lia).
    apply lookup_lt_Some in Hb as Hlt.
    destruct (Py.ltb (key b) (key x)) eqn:E.
    + apply ltb_lt in E.
      specialize (IH (pre ++ [x]) x (length pre)).
      rewrite <- app_assoc in IH. apply IH.
      * rewrite lookup_app_r by lia. by rewrite Nat.sub_diag.
      * intros y Hy. apply elem_of_app in Hy as [Hy|Hy].
        -- specialize (Hmax y Hy). lra.
        -- apply list_elem_of_singleton in Hy as ->. lra.
      * intros j y Hj Hy. rewrite lookup_app_l in Hy by lia.
        assert (y ∈ pre) as Hin by (by eapply list_elem_of_lookup_2).
        specialize (Hmax y Hin). lra.
    + apply ltb_ge in E.
      specialize (IH (pre ++ [x]) b bi).
      rewrite <- app_assoc in IH. apply IH.
      * by rewrite lookup_app_l.
      * intros y Hy. apply elem_of_app in Hy as [Hy|Hy]; [by apply Hmax|].
        by apply list_elem_of_singleton in Hy as ->.
      * intros j y Hj Hy. rewrite lookup_app_l in Hy by lia. by eapply Hfirst.
Qed.

Lemma first_max_first {A} (key : A -> Q) (x : A) (rest : list A) :
  let r := Py.first_max (fun a b => Py.ltb (key a) (key b)) x rest in
  exists i, (x :: rest) !! i = Some r
    /\ (forall y, y ∈ x :: rest -> key y <= key r)
    /\ (forall j y, (j < i)%nat -> (x :: rest) !! j = Some y -> key y < key r).
Proof.
  apply (first_max_go key rest [x] x 0); [done | | lia].
  intros y Hy. apply list_elem_of_singleton in Hy as ->. lra.
Qed.

(** The score of a member who carries no hours yet. *)
Lemma score_member_fresh members t i m c :
  CoordinatorAgent.assigned_hours m = 0 ->
  CoordinatorAgent.score_member members t i m = Py.Ok c ->
  CoordinatorAgent.cand_index c = i
  /\ CoordinatorAgent.cand_skill_match c = CoordinatorAgent.calculate_skill_match m t
  /\ CoordinatorAgent.cand_score c
     == CoordinatorAgent.calculate_skill_match m t * 0.7 + 0.3.
Proof.
  unfold CoordinatorAgent.score_member, Py.div. intros Hz H. rewrite Hz in H.
  destruct (Qeq_bool _ 0); [done|]. simpl in H. injection H as <-. simpl.
  split; [done|]. split; [done|].
  unfold Qdiv. rewrite Qmult_0_l. lra.
Qed.

Lemma allocate_one_fresh members t :
  members <> [] ->
  Forall (fun m => CoordinatorAgent.assigned_hours m = 0) members ->
  exists a members' m,
    CoordinatorAgent.allocate_one members t = Py.Ok (a, members')
    /\ members !! CoordinatorAgent.a_member a = Some m
    /\ CoordinatorAgent.a_skill_match a = CoordinatorAgent.calculate_skill_match m t
    /\ (forall m', m' ∈ members ->
          CoordinatorAgent.calculate_skill_match m' t
          <= CoordinatorAgent.calculate_skill_match m t)
    /\ (forall j m', (j < CoordinatorAgent.a_member a)%nat ->
          members !! j = Some m' ->
          CoordinatorAgent.calculate_skill_match m' t
          < CoordinatorAgent.calculate_skill_match m t).
Proof.
  intros Hne Hzero. unfold CoordinatorAgent.allocate_one.
  destruct (mapM_Ok_total
              (fun p => CoordinatorAgent.score_member members t p.1 p.2)
              (imap (fun i m => (i, m)) members)) as (cands & Hc & Hlen).
  { apply Forall_forall. intros [i m] _. apply score_member_total; [done|].
    eapply Forall_impl; [exact Hzero|]. simpl. intros m' ->. lra. }
  rewrite Hc. apply mapM_Ok in Hc. rewrite length_imap in Hlen.
  assert (Hcand : forall k ck, cands !! k = Some ck ->
            exists mk, members !! k = Some mk
              /\ CoordinatorAgent.cand_index ck = k
              /\ CoordinatorAgent.cand_skill_match ck
                 = CoordinatorAgent.calculate_skill_match mk t
              /\ CoordinatorAgent.cand_score ck
                 == CoordinatorAgent.calculate_skill_match mk t * 0.7 + 0.3).
  { intros k ck Hk.
    destruct (Forall2_lookup_r _ _ _ _ _ Hc Hk) as ([i mk] & Hp & Hs).
    rewrite list_lookup_imap in Hp.
    destruct (members !! k) as [mk'|] eqn:Hmk; [|done].
    simpl in Hp. injection Hp as <- <-. exists mk'. split; [done|].
    apply (score_member_fresh members t k mk' ck); [|exact Hs].
    rewrite Forall_forall in Hzero. apply Hzero.
    by eapply list_elem_of_lookup_2. }
  destruct cands as [|c cands]; [destruct members; simpl in *; done|].
  rewrite bind_Ok_l. cbn [Py.max_with]. rewrite bind_Ok_l.
  set (best := Py.first_max _ c cands).
  destruct (first_max_first CoordinatorAgent.cand_score c cands)
    as (i & Hi & Hmax & Hfirst).
  fold best in Hi, Hmax, Hfirst.
  destruct (Hcand i best Hi) as (m & Hm & Hidx & Hsm & Hscore).
  exists {| CoordinatorAgent.a_task := t;
            CoordinatorAgent.a_member := CoordinatorAgent.cand_index best;
            CoordinatorAgent.a_skill_match := CoordinatorAgent.cand_skill_match best |},
         (alter (CoordinatorAgent.assign_to t) (CoordinatorAgent.cand_index best)
                members), m.
  split; [done|]. simpl. rewrite Hidx. split; [done|]. split; [done|]. split.
  - intros m' Hm'. apply list_elem_of_lookup_1 in Hm' as [k Hk].
    assert (Hlt : (k < length (c :: cands))%nat)
      by (rewrite Hlen; by eapply lookup_lt_Some).
    apply lookup_lt_is_Some_2 in Hlt as [ck Hck].
    destruct (Hcand k ck Hck) as (mk & Hmk & _ & _ & Hsk).
    rewrite Hk in Hmk. injection Hmk as <-.
    assert (CoordinatorAgent.cand_score ck <= CoordinatorAgent.cand_score best)
      by (apply Hmax; by eapply list_elem_of_lookup_2).
    lra.
  - intros j m' Hj Hk.
    assert (Hlt : (j < length (c :: cands))%nat)
      by (rewrite Hlen; by eapply lookup_lt_Some).
    apply lookup_lt_is_Some_2 in Hlt as [ck Hck].
    destruct (Hcand j ck Hck) as (mk & Hmk & _ & _ & Hsk).
    rewrite Hk in Hmk. injection Hmk as <-.
    assert (CoordinatorAgent.cand_score ck < CoordinatorAgent.cand_score best)
      by (by apply (Hfirst j)).
    lra.
Qed.

Lemma reset_workload_skill_match m t :
  CoordinatorAgent.calculate_skill_match (CoordinatorAgent.reset_workload m) t
  = CoordinatorAgent.calculate_skill_match m t.
Proof. reflexivity. Qed.

(** X12: with at least one member and one pending task, the first task
    [allocate_tasks] assigns (the first of the tasks sorted by complexity)
    goes to a member whose skill match for it is the highest of the group:
    no member has a higher match, and the match recorded with the
    assignment is that member's. The workload plays no part in this first
    choice, since every member starts from zero hours. Which of several
    members of equal match is taken is not stated. *)
Theorem first_task_goes_to_best_match
    (members : list CoordinatorAgent.member)
    (tasks : list CoordinatorAgent.task) :
  members <> [] -> tasks <> [] ->
  exists t rest a more m,
    CoordinatorAgent.tasks_sorted tasks = t :: rest
    /\ (CoordinatorAgent.allocate_tasks members tasks).1 = a :: more
    /\ CoordinatorAgent.a_task a = t
    /\ members !! CoordinatorAgent.a_member a = Some m
    /\ CoordinatorAgent.a_skill_match a = CoordinatorAgent.calculate_skill_match m t
    /\ (forall m', m' ∈ members ->
          CoordinatorAgent.calculate_skill_match m' t
          <= CoordinatorAgent.calculate_skill_match m t).
Proof.
  intros Hne Htasks. unfold CoordinatorAgent.allocate_tasks.
  destruct tasks as [|t0 tasks]; [done|].
  pose proof (sorted_desc_perm
                (fun t => CoordinatorAgent.complexity_order
                            (CoordinatorAgent.complexity_level t)) (t0 :: tasks)) as Hp.
  fold (CoordinatorAgent.tasks_sorted (t0 :: tasks)) in Hp.
  destruct (CoordinatorAgent.tasks_sorted (t0 :: tasks)) as [|t rest];
    [by apply Permutation_nil_cons in Hp|].
  destruct (allocate_one_fresh (map CoordinatorAgent.reset_workload members) t)
    as (a & ms & m0 & Ha & Hm0 & Hsm & Hmax & _).
  { by destruct members. }
  { apply Forall_forall. intros m Hm.
    apply list_elem_of_In, in_map_iff in Hm as (m' & <- & _). done. }
  change (map CoordinatorAgent.reset_workload members)
    with (CoordinatorAgent.reset_workload <$> members) in Hm0, Hmax.
  rewrite list_lookup_fmap in Hm0.
  destruct (members !! CoordinatorAgent.a_member a) as [m|] eqn:Hm; [|done].
  simpl in Hm0. injection Hm0 as <-.
  cbn [CoordinatorAgent.allocate_loop]. rewrite Ha.
  destruct (CoordinatorAgent.allocate_loop ms rest) as [more outcome].
  exists t, rest, a, more, m. simpl.
  split; [done|]. split; [done|].
  split; [by eapply allocate_one_task|]. split; [done|]. split; [done|].
  intros m' Hm'. rewrite <- (reset_workload_skill_match m' t).
  rewrite <- (reset_workload_skill_match m t).
  apply Hmax. by apply list_elem_of_fmap_2.
Qed.

Lemma first_task_goes_to_best_match_witness :
  exists t rest a more m,
    CoordinatorAgent.tasks_sorted [open_task; backend_task] = t :: rest
    /\ (CoordinatorAgent.allocate_tasks [unskilled_member; skilled_member]
          [open_task; backend_task]).1 = a :: more
    /\ CoordinatorAgent.a_task a = t
    /\ [unskilled_member; skilled_member] !! CoordinatorAgent.a_member a = Some m
    /\ CoordinatorAgent.a_skill_match a = CoordinatorAgent.calculate_skill_match m t
    /\ (forall m', m' ∈ [unskilled_member; skilled_member] ->
          CoordinatorAgent.calculate_skill_match m' t
          <= CoordinatorAgent.calculate_skill_match m t).
Proof.
  apply (first_task_goes_to_best_match [unskilled_member; skilled_member]
           [open_task; backend_task]); discriminate.
Defined.

(** ** Groups at risk *)

Lemma of_nat_S (n : nat) : Py.of_nat (S n) == Py.of_nat n + 1.
Proof.
  unfold Py.of_nat. rewrite Nat2Z.inj_succ, <- Z.add_1_r, inject_Z_plus.
  reflexivity.
Qed.

Lemma sum_const (h : Q) (members : list CoordinatorAgent.member) :
  Forall (fun m => CoordinatorAgent.assigned_hours m == h) members ->
  Py.sum (map CoordinatorAgent.assigned_hours members)
  == Py.of_nat (length members) * h.
Proof.
  induction 1 as [|m members Hm _ IH]; simpl length; simpl map.
  - change (Py.sum []) with 0. change (Py.of_nat 0) with 0. lra.
  - rewrite sum_cons, IH, Hm, of_nat_S. lra.
Qed.

Lemma omap_none {A B} (f : A -> option B) (l : list A) :
  Forall (fun x => f x = None) l -> omap f l = [].
Proof. induction 1 as [|x l Hx _ IH]; simpl; [done|]. by rewrite Hx. Qed.

Lemma member_risks_balanced members :
  balanced members -> CoordinatorAgent.member_risks members = [].
Proof.
  intros Hb. unfold CoordinatorAgent.member_risks.
  case_decide as Hlen; [|done].
  destruct Hb as [?|[h Hh]]; [lia|].
  set (avg := Py.sum _ / Py.of_nat _).
  assert (Havg : avg == h).
  { unfold avg. rewrite (sum_const h members Hh).
    pose proof (of_nat_pos (length members) ltac:(lia)). field. lra. }
  clearbody avg.
  apply omap_none. eapply Forall_impl; [exact Hh|]. simpl. intros m Hm.
  assert (Hv : (if Py.ltb 0 avg
                then Qabs (CoordinatorAgent.assigned_hours m - avg) / avg
                else 0) == 0).
  { destruct (Py.ltb 0 avg); [|reflexivity].
    assert (E : CoordinatorAgent.assigned_hours m - avg == 0)
      by (rewrite Hm, Havg; ring).
    unfold Qdiv. rewrite E. reflexivity. }
  set (v := if Py.ltb 0 avg then _ else _) in *. clearbody v.
  assert (Hlt : Py.ltb CoordinatorAgent.workload_threshold v = false).
  { apply ltb_ge. rewrite Hv. by vm_compute. }
  by rewrite Hlt.
Qed.

(** X13: [flag_at_risk_groups] flags no group in which the workload cannot
    be out of balance: a group of at most one member, or one whose members
    all carry the same hours (zero hours included), is never reported. *)
Theorem flag_at_risk_groups_balanced
    (groups : list CoordinatorAgent.member_group) :
  Forall (fun grp => balanced (CoordinatorAgent.group_members grp)) groups ->
  CoordinatorAgent.flag_at_risk_groups groups = [].
Proof.
  intros H. unfold CoordinatorAgent.flag_at_risk_groups.
  apply omap_none. eapply Forall_impl; [exact H|]. simpl. intros grp Hb.
  by rewrite (member_risks_balanced _ Hb).
Qed.

Lemma flag_at_risk_groups_balanced_witness :
  CoordinatorAgent.flag_at_risk_groups
    [ {| CoordinatorAgent.group_name := "Group 1";
         CoordinatorAgent.group_members := [skilled_member] |};
      {| CoordinatorAgent.group_name := "Group 2";
         CoordinatorAgent.group_members := [skilled_member; unskilled_member] |} ]
  = [].
Proof.
  apply flag_at_risk_groups_balanced.
  apply Forall_cons_2; [left; simpl; lia|].
  apply Forall_cons_2; [|apply Forall_nil_2].
  right. exists 0. simpl.
  apply Forall_cons_2; [reflexivity|].
  apply Forall_cons_2; [reflexivity|]. apply Forall_nil_2.
Defined.

(** ** Allocation followed by the risk check *)

Lemma hours_of_pos tasks :
  tasks <> [] ->
  Forall (fun t => 0 < CoordinatorAgent.estimated_hours t) tasks ->
  0 < hours_of tasks.
Proof.
  intros Hne Hpos. destruct tasks as [|t tasks]; [done|].
  apply Forall_cons in Hpos as [Ht Hts].
  unfold hours_of. simpl map. rewrite sum_cons.
  assert (0 <= Py.sum (map CoordinatorAgent.estimated_hours tasks)); [|lra].
  apply sum_nonneg, Forall_forall. intros x Hx.
  apply list_elem_of_In, in_map_iff in Hx as (t' & <- & Ht').
  rewrite Forall_forall in Hts. apply Qlt_le_weak, Hts. by apply list_elem_of_In.
Qed.

(** More members than tasks: someone holds none. *)
Lemma some_member_idle (members : list CoordinatorAgent.member) :
  (length (concat (map CoordinatorAgent.assigned_tasks members))
   < length members)%nat ->
  exists m, m ∈ members /\ idle m.
Proof.
  induction members as [|m members IH]; simpl; [lia|].
  rewrite length_app. intros Hlt.
  destruct (CoordinatorAgent.assigned_tasks m) as [|t ts] eqn:E.
  - exists m. split; [left | done].
  - simpl in Hlt. destruct IH as (m' & Hm' & Hidle); [lia|].
    exists m'. split; [by right | done].
Qed.

Lemma idle_member_risk members m :
  (1 < length members)%nat ->
  0 < Py.sum (map CoordinatorAgent.assigned_hours members) ->
  m ∈ members -> CoordinatorAgent.assigned_hours m == 0 ->
  exists v, (CoordinatorAgent.first_name m, v)
              ∈ CoordinatorAgent.member_risks members
            /\ v == 1.
Proof.
  intros Hlen Htotal Hm Hzero. unfold CoordinatorAgent.member_risks.
  rewrite decide_True by done.
  set (avg := Py.sum _ / Py.of_nat _).
  assert (Havg : 0 < avg).
  { unfold avg. apply Qlt_shift_div_l; [apply of_nat_pos; lia | lra]. }
  clearbody avg.
  assert (Hlt : Py.ltb 0 avg = true) by (by apply ltb_lt).
  set (v := Qabs (CoordinatorAgent.assigned_hours m - avg) / avg).
  assert (Hv : v == 1).
  { unfold v. assert (E : CoordinatorAgent.assigned_hours m - avg == - avg)
      by (rewrite Hzero; ring).
    rewrite E, Qabs_opp, Qabs_pos by lra. field. lra. }
  exists v. split; [|done].
  apply list_elem_of_omap. exists m. split; [done|].
  rewrite Hlt. fold v.
  assert (Hw : Py.ltb CoordinatorAgent.workload_threshold v = true).
  { apply ltb_lt. rewrite Hv. by vm_compute. }
  by rewrite Hw.
Qed.

(** X14: [allocate_tasks] followed by [flag_at_risk_groups], as [run] does
    for a group of at least two members whose pending tasks all have
    positive hours: every member the allocation leaves without a task is
    reported with a variance of 1 (100%), and when the group has more
    members than tasks the group is flagged. *)
Theorem idle_members_are_flagged
    (name : string) (members : list CoordinatorAgent.member)
    (tasks : list CoordinatorAgent.task) :
  (2 ≤ length members)%nat -> tasks <> [] ->
  Forall (fun t => 0 < CoordinatorAgent.estimated_hours t) tasks ->
  exists members',
    (CoordinatorAgent.allocate_tasks members tasks).2 = Py.Ok members'
    /\ (forall m, m ∈ members' -> idle m ->
          exists v, (CoordinatorAgent.first_name m, v)
                      ∈ CoordinatorAgent.member_risks members'
                    /\ v == 1)
    /\ ((length tasks < length members)%nat ->
        CoordinatorAgent.member_risks members' <> []
        /\ CoordinatorAgent.flag_at_risk_groups
             [ {| CoordinatorAgent.group_name := name;
                  CoordinatorAgent.group_members := members' |} ]
           = [ (name, CoordinatorAgent.member_risks members') ]).
Proof.
  intros Hlen Htasks Hpos.
  destruct (allocate_tasks_returns members tasks) as (members' & Hret & Hm).
  { destruct members; simpl in *; [lia | done]. }
  { done. }
  { eapply Forall_impl; [exact Hpos|]. simpl. intros. by apply Qlt_le_weak. }
  exists members'. split; [done|].
  destruct (allocate_loop_conserves _ _ _ Hm) as (Hc & Hh & Hid & _).
  rewrite reset_workload_tasks in Hc. simpl in Hc.
  assert (Hperm : CoordinatorAgent.tasks_sorted tasks ≡ₚ tasks)
    by apply sorted_desc_perm.
  assert (Hall : Forall hours_match_tasks members')
    by apply Hh, reset_workload_hours.
  assert (Hlen' : length members' = length members).
  { apply (f_equal length) in Hid. by rewrite !length_map in Hid. }
  assert (Htotal : 0 < Py.sum (map CoordinatorAgent.assigned_hours members')).
  { rewrite (total_hours_match _ Hall), (hours_of_perm _ tasks).
    - by apply hours_of_pos.
    - by rewrite Hc. }
  assert (Hidle : forall m, m ∈ members' -> idle m ->
            exists v, (CoordinatorAgent.first_name m, v)
                        ∈ CoordinatorAgent.member_risks members'
                      /\ v == 1).
  { intros m Hin Hi. apply idle_member_risk; [lia | done | done |].
    rewrite Forall_forall in Hall. specialize (Hall m Hin).
    unfold hours_match_tasks in Hall. rewrite Hall.
    unfold idle in Hi. rewrite Hi. reflexivity. }
  split; [done|]. intros Hfew.
  destruct (some_member_idle members') as (m & Hin & Hi).
  { rewrite Hc, Hperm. lia. }
  destruct (Hidle m Hin Hi) as (v & Hv & _).
  assert (Hne : CoordinatorAgent.member_risks members' <> []).
  { intros He. rewrite He in Hv. by apply not_elem_of_nil in Hv. }
  split; [done|].
  unfold CoordinatorAgent.flag_at_risk_groups. simpl.
  by destruct (CoordinatorAgent.member_risks members').
Qed.

Lemma idle_members_are_flagged_witness :
  exists members',
    (CoordinatorAgent.allocate_tasks [skilled_member; unskilled_member; idle_member]
       [backend_task; frontend_task]).2 = Py.Ok members'
    /\ CoordinatorAgent.member_risks members' <> []
    /\ CoordinatorAgent.flag_at_risk_groups
         [ {| CoordinatorAgent.group_name := "Group 1";
              CoordinatorAgent.group_members := members' |} ]
       = [ ("Group 1"%string, CoordinatorAgent.member_risks members') ].
Proof.
  destruct (idle_members_are_flagged "Group 1"
              [skilled_member; unskilled_member; idle_member]
              [backend_task; frontend_task])
    as (members' & Hret & _ & Hflag).
  - simpl. lia.
  - discriminate.
  - repeat (apply Forall_cons_2; [by vm_compute|]). apply Forall_nil_2.
  - exists members'. split; [exact Hret|]. apply Hflag. simpl. lia.
Defined.

(** ** Saving the groups *)

Lemma imap_roles_member (group_id : Z) (ms : list student) (f : nat -> nat) :
  (forall idx, f idx <> 0%nat) ->
  leaders (imap (fun idx m =>
             {| row_group_id := group_id; row_student_id := student_id m;
                row_role := if decide (f idx = 0)%nat then "Leader" else "Member" |})
             ms) = [].
Proof.
  revert f. induction ms as [|m ms IH]; intros f Hf; [done|].
  unfold leaders in *. rewrite imap_cons, filter_cons.
  rewrite decide_False.
  - apply (IH (f ∘ S)). intros idx. apply Hf.
  - cbn [row_role]. rewrite decide_False by apply Hf. discriminate.
Qed.

Lemma member_rows_leaders (group_id : Z) (ms : list student) :
  ms <> [] -> length (leaders (member_rows group_id ms)) = 1%nat.
Proof.
  destruct ms as [|m ms]; [done|]. intros _.
  unfold member_rows, leaders. rewrite imap_cons, filter_cons.
  rewrite decide_True by done. cbn [length]. f_equal.
  pose proof (imap_roles_member group_id ms S) as H. unfold leaders in H.
  unfold compose. rewrite H; [done|]. lia.
Qed.

Lemma imap_rows_students (group_id : Z) (role : nat -> string) (ms : list student) :
  map row_student_id
    (imap (fun idx m => {| row_group_id := group_id; row_student_id := student_id m;
                           row_role := role idx |}) ms)
  = map student_id ms.
Proof.
  revert role. induction ms as [|m ms IH]; intros role; [done|].
  rewrite imap_cons. cbn [map row_student_id]. f_equal. apply (IH (role ∘ S)).
Qed.

Lemma member_rows_students (group_id : Z) (ms : list student) :
  map row_student_id (member_rows group_id ms) = map student_id ms.
Proof.
  apply (imap_rows_students group_id
           (fun idx => if decide (idx = 0)%nat then "Leader" else "Member")%string).
Qed.

Lemma leaders_app rows rows' : leaders (rows ++ rows') = leaders rows ++ leaders rows'.
Proof. unfold leaders. apply filter_app. Qed.

Lemma inserted_S insert_id k n :
  inserted insert_id k (S n)
  = ((if truthy_id (insert_id k) then 1 else 0) + inserted insert_id (S k) n)%nat.
Proof.
  unfold inserted. cbn [seq]. rewrite filter_cons.
  destruct (truthy_id (insert_id k)).
  - rewrite decide_True by done. done.
  - rewrite decide_False by (by intros []). done.
Qed.

Lemma filter_all {A} (P : A -> Prop) `{forall x, Decision (P x)} (l : list A) :
  Forall P l -> filter P l = l.
Proof.
  induction 1 as [|x l Hx _ IH]; [done|].
  rewrite filter_cons, decide_True by done. by rewrite IH.
Qed.

(** What the loop of [save_groups_to_database] sends, for any name
    prefix. *)
Lemma save_groups_loop_spec (prefix : string) (insert_id : nat -> option Z)
    (groups : list group) (k : nat) :
  let r := save_groups_loop prefix insert_id k groups in
  map row_name r.1.2
  = map (fun grp => (prefix +:+ pretty (group_num grp))%string) groups
  /\ r.1.1 = inserted insert_id k (length groups)
  /\ (Forall (fun grp => members grp <> []) groups ->
      length (leaders r.2) = r.1.1)
  /\ ((forall i, (k ≤ i < k + length groups)%nat -> truthy_id (insert_id i) = true) ->
      map row_student_id r.2 = map student_id (concat (map members groups))).
Proof.
  revert k. induction groups as [|grp groups IH]; intros k; simpl.
  { repeat split; done. }
  specialize (IH (S k)).
  destruct (save_groups_loop prefix insert_id (S k) groups)
    as [[saved_count group_rows] rows].
  simpl in IH. destruct IH as (Hnames & Hcount & Hlead & Hall).
  rewrite inserted_S.
  destruct (insert_id k) as [group_id|] eqn:Eid; simpl.
  - destruct (decide (group_id = 0)%Z) as [->|Hnz]; simpl.
    + split; [by rewrite Hnames|]. split; [done|]. split.
      * intros Hne. apply Forall_cons in Hne as [_ Hne]. by apply Hlead.
      * intros Hok. specialize (Hok k ltac:(lia)). by rewrite Eid in Hok.
    + assert (Ht : (group_id =? 0)%Z = false) by (by apply Z.eqb_neq).
      rewrite Ht. simpl.
      split; [by rewrite Hnames|]. split; [by rewrite Hcount|]. split.
      * intros Hne. apply Forall_cons in Hne as [Hm Hne].
        rewrite leaders_app, length_app, member_rows_leaders by done.
        by rewrite Hlead.
      * intros Hok. rewrite !map_app.
        rewrite (member_rows_students group_id (members grp)).
        rewrite Hall; [done|]. intros i Hi. apply Hok. lia.
  - split; [by rewrite Hnames|]. split; [done|]. split.
    + intros Hne. apply Forall_cons in Hne as [_ Hne]. by apply Hlead.
    + intros Hok. specialize (Hok k ltac:(lia)). by rewrite Eid in Hok.
Qed.

(** The score and the status of the group rows, for any name prefix. *)
Lemma save_groups_loop_rows (prefix : string) (insert_id : nat -> option Z)
    (groups : list group) (k : nat) :
  let r := save_groups_loop prefix insert_id k groups in
  map row_score r.1.2 = map compatibility_score groups
  /\ map row_status r.1.2 = map (fun _ => "Active"%string) groups.
Proof.
  revert k. induction groups as [|grp groups IH]; intros k; simpl; [done|].
  specialize (IH (S k)).
  destruct (save_groups_loop prefix insert_id (S k) groups)
    as [[saved_count group_rows] rows].
  simpl in IH. destruct IH as (Hscore & Hstatus).
  destruct (insert_id k) as [group_id|]; [destruct (decide (group_id = 0)%Z)|];
    simpl; by rewrite Hscore, Hstatus.
Qed.

(** The name prefix shows in the group names only: the count and the
    member rows do not depend on it. *)
Lemma save_groups_loop_prefix (prefix prefix' : string)
    (insert_id : nat -> option Z) (groups : list group) (k : nat) :
  (save_groups_loop prefix insert_id k groups).1.1
  = (save_groups_loop prefix' insert_id k groups).1.1
  /\ (save_groups_loop prefix insert_id k groups).2
     = (save_groups_loop prefix' insert_id k groups).2.
Proof.
  revert k. induction groups as [|grp groups IH]; intros k; simpl; [done|].
  specialize (IH (S k)).
  destruct (save_groups_loop prefix insert_id (S k) groups)
    as [[saved_count group_rows] rows].
  destruct (save_groups_loop prefix' insert_id (S k) groups)
    as [[saved_count' group_rows'] rows'].
  simpl in IH. destruct IH as (-> & ->).
  by destruct (insert_id k) as [group_id|]; [destruct (decide (group_id = 0)%Z)|].
Qed.

(** X15: [save_groups_to_database] of either agent, for groups that all
    have a member. The count it returns is the number of group inserts for
    which the database returned a true id; exactly that many member rows
    name a leader (one per saved group, its first member). Every group is
    sent with its compatibility score and the status Active. The two
    agents differ in the group names only ("Group n" against "GA Group n"):
    the scores and statuses of the group rows, the member rows and the
    count are the same. When every insert succeeds, either agent counts
    every group and its member rows list the students of all groups in
    order. *)
Theorem save_groups_to_database_rows
    (insert_id : nat -> option Z) (groups : list group) :
  Forall (fun grp => members grp <> []) groups ->
  let saved := MatcherAgent.save_groups_to_database insert_id groups in
  let saved_ga := MatcherAgentGA.save_groups_to_database insert_id groups in
  saved.1.1 = inserted insert_id 0 (length groups)
  /\ length (leaders saved.2) = saved.1.1
  /\ map row_name saved.1.2
     = map (fun grp => ("Group " +:+ pretty (group_num grp))%string) groups
  /\ map row_name saved_ga.1.2
     = map (fun grp => ("GA Group " +:+ pretty (group_num grp))%string) groups
  /\ map row_score saved.1.2 = map compatibility_score groups
  /\ map row_status saved.1.2 = map (fun _ => "Active"%string) groups
  /\ map row_score saved_ga.1.2 = map row_score saved.1.2
  /\ map row_status saved_ga.1.2 = map row_status saved.1.2
  /\ saved_ga.2 = saved.2
  /\ saved_ga.1.1 = saved.1.1
  /\ length (leaders saved_ga.2) = saved_ga.1.1
  /\ ((forall i, (i < length groups)%nat -> truthy_id (insert_id i) = true) ->
      saved.1.1 = length groups
      /\ map row_student_id saved.2 = map student_id (concat (map members groups))
      /\ saved_ga.1.1 = length groups
      /\ map row_student_id saved_ga.2
         = map student_id (concat (map members groups))).
Proof.
  intros Hne saved saved_ga.
  destruct (save_groups_loop_spec "Group " insert_id groups 0)
    as (Hnames & Hcount & Hlead & Hall).
  destruct (save_groups_loop_spec "GA Group " insert_id groups 0)
    as (Hnames' & _ & _ & _).
  destruct (save_groups_loop_rows "Group " insert_id groups 0)
    as (Hscore & Hstatus).
  destruct (save_groups_loop_rows "GA Group " insert_id groups 0)
    as (Hscore' & Hstatus').
  destruct (save_groups_loop_prefix "GA Group " "Group " insert_id groups 0)
    as (Hsame_count & Hsame_rows).
  fold (MatcherAgent.save_groups_to_database insert_id groups) in *.
  fold (MatcherAgentGA.save_groups_to_database insert_id groups) in *.
  fold saved in Hnames, Hcount, Hlead, Hall, Hscore, Hstatus, Hsame_count, Hsame_rows.
  fold saved_ga in Hnames', Hscore', Hstatus', Hsame_count, Hsame_rows.
  specialize (Hlead Hne).
  assert (Hfull : (forall i, (i < length groups)%nat -> truthy_id (insert_id i) = true) ->
            saved.1.1 = length groups
            /\ map row_student_id saved.2
               = map student_id (concat (map members groups))).
  { intros Hok. split.
    - rewrite Hcount. unfold inserted.
      rewrite filter_all; [by rewrite length_seq|].
      apply Forall_forall. intros i Hi. apply elem_of_seq in Hi.
      rewrite Hok by lia. done.
    - apply Hall. intros i Hi. apply Hok. lia. }
  split; [done|]. split; [done|]. split; [done|]. split; [done|].
  split; [done|]. split; [done|].
  split; [by rewrite Hscore, Hscore'|]. split; [by rewrite Hstatus, Hstatus'|].
  split; [done|]. split; [done|].
  split; [by rewrite Hsame_rows, Hsame_count|].
  intros Hok. destruct (Hfull Hok) as [Hn Hrows].
  rewrite Hsame_rows, Hsame_count. done.
Qed.

Lemma save_groups_to_database_rows_witness :
  (MatcherAgent.save_groups_to_database failing_second two_groups).1.1 = 1%nat
  /\ length (leaders (MatcherAgent.save_groups_to_database failing_second two_groups).2)
     = 1%nat
  /\ (MatcherAgentGA.save_groups_to_database failing_second two_groups).2
     = (MatcherAgent.save_groups_to_database failing_second two_groups).2
  /\ (MatcherAgent.save_groups_to_database counting_ids two_groups).1.1 = 2%nat
  /\ map row_student_id (MatcherAgent.save_groups_to_database counting_ids two_groups).2
     = [2; 3; 5; 4; 3; 2]%Z
  /\ (MatcherAgentGA.save_groups_to_database counting_ids two_groups).1.1 = 2%nat
  /\ map row_student_id (MatcherAgentGA.save_groups_to_database counting_ids two_groups).2
     = [2; 3; 5; 4; 3; 2]%Z.
Proof.
  assert (Hne : Forall (fun grp => members grp <> []) two_groups).
  { apply Forall_cons_2; [discriminate|].
    apply Forall_cons_2; [discriminate | apply Forall_nil_2]. }
  destruct (save_groups_to_database_rows failing_second two_groups Hne)
    as (H1 & H2 & _ & _ & _ & _ & _ & _ & Hrows & _).
  destruct (save_groups_to_database_rows counting_ids two_groups Hne)
    as (_ & _ & _ & _ & _ & _ & _ & _ & _ & _ & _ & H3).
  destruct H3 as (H3 & H4 & H5 & H6); [intros i _; reflexivity|].
  split; [exact H1|]. split; [rewrite H2; exact H1|]. split; [exact Hrows|].
  split; [exact H3|]. split; [exact H4|]. split; [exact H5 | exact H6].
Defined.

(** ** The decoder, as a whole *)

Lemma decode_scan_bounds (individual : list Q) (i : nat)
    (groups : list (list nat)) (current_group : list nat) :
  Forall (fun g => 3 ≤ length g ≤ 5)%nat groups ->
  (length current_group < 5)%nat ->
  Forall (fun g => 3 ≤ length g ≤ 5)%nat
         (MatcherAgentGA.decode_scan individual i groups current_group).1
  /\ (length (MatcherAgentGA.decode_scan individual i groups current_group).2 < 5)%nat.
Proof.
  revert i groups current_group.
  induction individual as [|gene rest IH]; intros i groups cur Hg Hc; simpl;
    [done|].
  assert (Hlen : length (cur ++ [i]) = S (length cur))
    by (rewrite length_app; simpl; lia).
  unfold MatcherAgentGA.max_group_size, MatcherAgentGA.min_group_size.
  destruct (Py.ltb 0.5 gene || bool_decide (5 ≤ length (cur ++ [i]))%nat) eqn:E.
  - destruct (decide (3 ≤ length (cur ++ [i]))%nat) as [Hmin|Hmin].
    + apply IH; [|simpl; lia].
      apply Forall_app. split; [done|]. apply Forall_singleton. lia.
    + apply IH; [done | lia].
  - apply orb_false_iff in E as [_ E]. apply bool_decide_eq_false in E.
    apply IH; [done | lia].
Qed.

(** The outcome of the scan and what [decode_individual] makes of it. *)
Lemma decode_individual_cases (individual : list Q) (target_size : nat) :
  exists groups cur,
    MatcherAgentGA.decode_individual individual target_size
    = MatcherAgentGA.add_remaining groups cur
    /\ Forall (fun g => 3 ≤ length g ≤ 5)%nat groups
    /\ (length cur < 5)%nat
    /\ concat groups ++ cur = seq 0 (length individual).
Proof.
  unfold MatcherAgentGA.decode_individual.
  destruct (decode_scan_bounds individual 0 [] []) as [Hg Hc];
    [done | simpl; lia |].
  pose proof (decode_scan_concat individual 0 [] []) as Hcat.
  destruct (MatcherAgentGA.decode_scan individual 0 [] []) as [groups cur].
  simpl in *. exists groups, cur. done.
Qed.

Lemma concat_alter_app (cur : list nat) (j : nat) (groups : list (list nat)) :
  (j < length groups)%nat ->
  concat (alter (fun smallest => smallest ++ cur) j groups)
  ≡ₚ concat groups ++ cur.
Proof.
  revert j. induction groups as [|g groups IH]; intros j Hj; simpl in *; [lia|].
  destruct j as [|j]; simpl.
  - rewrite <- !app_assoc. apply Permutation_app_head, Permutation_app_comm.
  - rewrite <- app_assoc. apply Permutation_app_head. apply (IH j). lia.
Qed.

Lemma first_min_lt (first : nat) (others : list nat) :
  (Py.first_min first others < S (length others))%nat.
Proof.
  destruct (first_min_spec first others) as (m & Hm & _).
  apply lookup_lt_Some in Hm. simpl in Hm. lia.
Qed.

Lemma oversized_none (groups : list (list nat)) :
  Forall (fun g => 3 ≤ length g ≤ 5)%nat groups -> oversized groups = [].
Proof.
  induction 1 as [|g groups Hg _ IH]; [done|].
  unfold oversized in *. rewrite filter_cons, decide_False; [done|].
  unfold MatcherAgentGA.max_group_size. lia.
Qed.

Lemma oversized_alter (f : list nat -> list nat) (j : nat)
    (groups : list (list nat)) :
  Forall (fun g => 3 ≤ length g ≤ 5)%nat groups ->
  (length (oversized (alter f j groups)) ≤ 1)%nat.
Proof.
  intros H. revert j. induction H as [|g groups Hg Hgs IH]; intros j;
    [simpl; lia|].
  destruct j as [|j]; simpl.
  - unfold oversized. rewrite filter_cons.
    fold (oversized groups). rewrite (oversized_none groups Hgs).
    case_decide; simpl; lia.
  - unfold oversized. rewrite filter_cons, decide_False.
    + apply IH.
    + unfold MatcherAgentGA.max_group_size. lia.
Qed.

Lemma decode_individual_sizes (individual : list Q) (target_size : nat) :
  Forall (fun g => 3 ≤ length g ≤ 7)%nat
         (MatcherAgentGA.decode_individual individual target_size).
Proof.
  destruct (decode_individual_cases individual target_size)
    as (groups & cur & -> & Hg & Hc & _).
  assert (Hg7 : Forall (fun g => 3 ≤ length g ≤ 7)%nat groups).
  { eapply Forall_impl; [exact Hg|]. simpl. lia. }
  unfold MatcherAgentGA.add_remaining.
  destruct cur as [|c cur]; [done|].
  unfold MatcherAgentGA.min_group_size. case_decide as Hmin.
  - apply Forall_app. split; [done|]. apply Forall_singleton. lia.
  - destruct groups as [|first others]; [done|].
    unfold MatcherAgentGA.extend_smallest.
    apply Forall_alter; [done|]. intros grp Hin _.
    apply list_elem_of_lookup_2 in Hin.
    rewrite Forall_forall in Hg. specialize (Hg grp Hin).
    rewrite length_app. lia.
Qed.

Lemma decode_individual_oversized (individual : list Q) (target_size : nat) :
  (length (oversized (MatcherAgentGA.decode_individual individual target_size))
   ≤ 1)%nat.
Proof.
  destruct (decode_individual_cases individual target_size)
    as (groups & cur & -> & Hg & Hc & _).
  unfold MatcherAgentGA.add_remaining.
  destruct cur as [|c cur]; [rewrite oversized_none by done; simpl; lia|].
  unfold MatcherAgentGA.min_group_size. case_decide as Hmin.
  - rewrite oversized_none; [simpl; lia|].
    apply Forall_app. split; [done|]. apply Forall_singleton. lia.
  - destruct groups as [|first others]; [simpl; lia|].
    unfold MatcherAgentGA.extend_smallest. by apply oversized_alter.
Qed.

Lemma decode_individual_short (individual : list Q) (target_size : nat) :
  (length individual < 3)%nat ->
  MatcherAgentGA.decode_individual individual target_size = [].
Proof.
  intros Hn.
  destruct (decode_individual_cases individual target_size)
    as (groups & cur & -> & Hg & Hc & Hcat).
  apply (f_equal length) in Hcat. rewrite length_app, length_seq in Hcat.
  destruct groups as [|first others].
  - unfold MatcherAgentGA.add_remaining.
    destruct cur as [|c cur]; [done|].
    rewrite decide_False; [done|].
    unfold MatcherAgentGA.min_group_size. simpl in *. lia.
  - apply Forall_cons in Hg as [Hf _]. simpl in Hcat.
    rewrite length_app in Hcat. lia.
Qed.

Lemma decode_individual_covers (individual : list Q) (target_size : nat) :
  (3 ≤ length individual)%nat ->
  MatcherAgentGA.decode_individual individual target_size <> []
  /\ concat (MatcherAgentGA.decode_individual individual target_size)
     ≡ₚ seq 0 (length individual).
Proof.
  intros Hn.
  destruct (decode_individual_cases individual target_size)
    as (groups & cur & -> & Hg & Hc & Hcat).
  rewrite <- Hcat.
  unfold MatcherAgentGA.add_remaining.
  destruct cur as [|c cur].
  - rewrite app_nil_r in *. split; [|done].
    intros ->. simpl in Hcat. destruct individual; simpl in *; [lia | done].
  - unfold MatcherAgentGA.min_group_size. case_decide as Hmin.
    + split; [by destruct groups|].
      rewrite concat_app. simpl. by rewrite app_nil_r.
    + destruct groups as [|first others].
      * apply (f_equal length) in Hcat. rewrite length_seq in Hcat.
        simpl in *. lia.
      * unfold MatcherAgentGA.extend_smallest. split.
        -- intros He. apply (f_equal length) in He.
           rewrite length_alter in He. done.
        -- apply concat_alter_app.
           pose proof (first_min_lt (length first) (map length others)) as H.
           rewrite length_map in H. simpl. lia.
Qed.

(** X16: for every genome [decode_individual] returns no group when the
    genome has fewer than three genes, and otherwise at least one group,
    the groups together holding every index 0 .. n-1 exactly once. Every
    group has between three and seven members, and at most one group
    exceeds the maximum size of five (the one a dangling rest was merged
    into). *)
Theorem decode_individual_partition
    (individual : list Q) (target_size : nat) :
  let groups := MatcherAgentGA.decode_individual individual target_size in
  ((length individual < MatcherAgentGA.min_group_size)%nat <-> groups = [])
  /\ ((MatcherAgentGA.min_group_size ≤ length individual)%nat ->
      concat groups ≡ₚ seq 0 (length individual))
  /\ Forall (fun g => MatcherAgentGA.min_group_size ≤ length g
                      ≤ MatcherAgentGA.max_group_size + 2)%nat groups
  /\ (length (oversized groups) ≤ 1)%nat.
Proof.
  intros groups. unfold groups, MatcherAgentGA.min_group_size.
  split; [|split; [|split]].
  - split; [apply decode_individual_short|].
    intros He. destruct (decide (length individual < 3)%nat) as [|Hn]; [done|].
    destruct (decode_individual_covers individual target_size) as [Hne _]; [lia|].
    done.
  - intros Hn. by apply decode_individual_covers.
  - apply decode_individual_sizes.
  - apply decode_individual_oversized.
Qed.

(** ** Scores inside a group *)

Lemma matrix_bounded_covers matrix n : matrix_bounded matrix n -> matrix_covers matrix n.
Proof. intros H i j Hi Hj. destruct (H i j Hi Hj) as (v & Hv & _). eauto. Qed.

Lemma pair_matrix_bounded (score : student -> student -> Q)
    (students : list student) :
  (forall a b, a ∈ students -> b ∈ students -> 0 <= score a b <= 1) ->
  matrix_bounded
    (imap (fun i si =>
       imap (fun j sj =>
         if decide (i < j)%nat then score si sj
         else if decide (j < i)%nat then score sj si
         else 0) students) students)
    (length students).
Proof.
  intros Hscore i j Hi Hj. unfold mat_get, Py.index.
  destruct (lookup_lt_is_Some_2 students i Hi) as [si Hsi].
  destruct (lookup_lt_is_Some_2 students j Hj) as [sj Hsj].
  rewrite list_lookup_imap, Hsi. simpl.
  rewrite list_lookup_imap, Hsj. simpl.
  apply list_elem_of_lookup_2 in Hsi, Hsj.
  eexists. split; [done|].
  repeat case_decide; try lra; by apply Hscore.
Qed.

Lemma ga_matrix_bounded (students : list student) :
  Forall traits_on_scale students ->
  matrix_bounded (MatcherAgentGA.create_compatibility_matrix students)
                 (length students).
Proof.
  intros Hs. apply pair_matrix_bounded. intros a b Ha Hb.
  rewrite Forall_forall in Hs. apply ga_calculate_compatibility_range; by apply Hs.
Qed.

Lemma matcher_matrix_bounded (students : list student) :
  Forall traits_on_scale students ->
  matrix_bounded (MatcherAgent.create_compatibility_matrix students)
                 (length students).
Proof.
  intros Hs. apply pair_matrix_bounded. intros a b Ha Hb.
  rewrite Forall_forall in Hs. apply calculate_compatibility_range; by apply Hs.
Qed.

Lemma sum_bounded (xs : list Q) :
  Forall (fun x => 0 <= x <= 1) xs -> 0 <= Py.sum xs <= Py.of_nat (length xs).
Proof.
  induction 1 as [|x xs Hx _ IH]; simpl length.
  - change (Py.sum []) with 0. change (Py.of_nat 0) with 0. lra.
  - rewrite sum_cons, of_nat_S. lra.
Qed.

Lemma group_avg_compat_range (matrix : list (list Q)) (n : nat) (grp : list nat) :
  matrix_bounded matrix n -> Forall (fun j => j < n)%nat grp ->
  exists v, group_avg_compat matrix grp = Py.Ok v /\ 0 <= v <= 1.
Proof.
  intros HM Hgrp. unfold group_avg_compat.
  destruct (mapM_Ok_total_with (fun p => mat_get matrix p.1 p.2)
              (fun x => 0 <= x <= 1) (index_pairs grp))
    as (xs & -> & Hxs & _).
  { eapply Forall_impl; [by apply index_pairs_below|].
    intros p [H1 H2]. by apply HM. }
  rewrite bind_Ok_l. eexists. split; [done|].
  pose proof (sum_bounded xs Hxs) as Hs.
  case_decide as Hc; [|lra].
  pose proof (of_nat_pos _ Hc). split.
  - apply Qle_shift_div_l; [done | lra].
  - apply Qle_shift_div_r; [done | lra].
Qed.

(** ** The fitness of a genome *)

Lemma evaluate_loop_value (matrix : list (list Q)) (n target : nat)
    (groups : list (list nat)) (total penalty : Q) :
  matrix_bounded matrix n ->
  Forall (Forall (fun j => j < n)%nat) groups ->
  Forall (fun g => 3 ≤ length g)%nat groups ->
  exists fit gain,
    MatcherAgentGA.evaluate_loop matrix target groups total penalty = Py.Ok fit
    /\ fit == total + gain - penalty
              - 100 * Py.of_nat (length (oversized groups))
    /\ 0 <= gain <= 1.1 * Py.of_nat (length groups).
Proof.
  intros HM Hrange Hsizes. revert total penalty.
  induction groups as [|grp groups IH]; intros total penalty.
  - exists (total - penalty), 0. split; [done|].
    change (Py.of_nat (length (oversized []))) with 0.
    change (Py.of_nat (length [])) with 0. split; lra.
  - apply Forall_cons in Hrange as [Hgrp Hrange].
    apply Forall_cons in Hsizes as [Hsize Hsizes].
    destruct (group_avg_compat_range matrix n grp HM Hgrp) as (avg & Havg & Hv).
    cbn [MatcherAgentGA.evaluate_loop]. rewrite Havg, bind_Ok_l.
    match goal with
    | |- context [MatcherAgentGA.evaluate_loop _ _ _ ?t ?p] =>
        destruct (IH Hrange Hsizes t p) as (fit & gain & -> & Hfit & Hgain)
    end.
    set (bonus := if decide (length grp = target) then 0.1 else 0).
    exists fit, (avg + bonus + gain). split; [done|].
    assert (Hbonus : 0 <= bonus <= 0.1) by (unfold bonus; case_decide; lra).
    cbn [length]. rewrite of_nat_S. split; [|clear Hfit; clearbody bonus; lra].
    rewrite Hfit. unfold oversized, MatcherAgentGA.min_group_size,
      MatcherAgentGA.max_group_size, bonus.
    rewrite filter_cons.
    destruct (decide (5 < length grp)%nat) as [Hbig|Hbig].
    + cbn [length]. rewrite of_nat_S.
      rewrite (decide_True (P := (_ ∨ _))) by lia.
      case_decide; lra.
    + rewrite (decide_False (P := (_ ∨ _))) by lia.
      case_decide; lra.
Qed.

(** X17: the fitness [evaluate_grouping] gives a genome, over a matrix of
    scores between 0 and 1 that covers all students: the call returns; the
    100-point size penalty is never charged for an undersized group and at
    most once for an oversized one; what remains is a gain between 0 and
    1.1 per group. So the fitness is at least -100 and at most 1.1 times
    the number of groups. *)
Theorem evaluate_grouping_penalty
    (matrix : list (list Q)) (n target : nat) (individual : list Q) :
  matrix_bounded matrix n -> length individual = n ->
  let groups := MatcherAgentGA.decode_individual individual target in
  exists fit gain,
    MatcherAgentGA.evaluate_grouping matrix individual target = Py.Ok fit
    /\ fit == gain - 100 * Py.of_nat (length (oversized groups))
    /\ 0 <= gain <= 1.1 * Py.of_nat (length groups)
    /\ (length (oversized groups) ≤ 1)%nat
    /\ -100 <= fit <= 1.1 * Py.of_nat (length groups).
Proof.
  intros HM Hn groups. unfold MatcherAgentGA.evaluate_grouping. fold groups.
  destruct (evaluate_loop_value matrix n target groups 0 0 HM)
    as (fit & gain & Hfit & Hval & Hgain).
  { rewrite <- Hn. apply decode_individual_range. }
  { eapply Forall_impl; [apply decode_individual_sizes|]. simpl. lia. }
  pose proof (decode_individual_oversized individual target) as Hone.
  fold groups in Hone.
  exists fit, gain. split; [done|]. split; [rewrite Hval; lra|].
  split; [done|]. split; [done|].
  pose proof (of_nat_nonneg (length (oversized groups))).
  assert (Py.of_nat (length (oversized groups)) <= 1).
  { change 1 with (Py.of_nat 1). by apply of_nat_le. }
  rewrite Hval. split; lra.
Qed.

Lemma six_students_on_scale : Forall traits_on_scale six_students.
Proof. apply Forall_replicate, bare_student_on_scale. Qed.

Lemma evaluate_grouping_penalty_witness :
  exists fit,
    MatcherAgentGA.evaluate_grouping
      (MatcherAgentGA.create_compatibility_matrix six_students) zero_genome 4
    = Py.Ok fit
    /\ -100 <= fit.
Proof.
  destruct (evaluate_grouping_penalty
              (MatcherAgentGA.create_compatibility_matrix six_students) 6 4
              zero_genome)
    as (fit & gain & Hfit & _ & _ & _ & Hlo & _).
  - apply (ga_matrix_bounded six_students), six_students_on_scale.
  - reflexivity.
  - exists fit. split; [exact Hfit | exact Hlo].
Defined.

(** ** The groups of the evolutionary search *)

(** The search returns, and its best genome has a gene per student. *)
Lemma search_total (cfg : MatcherAgentGA.config) (matrix : list (list Q))
    (target n : nat) (g : Random.state) :
  matrix_covers matrix n -> (2 ≤ n)%nat ->
  (1 ≤ MatcherAgentGA.population_size cfg)%nat ->
  (1 ≤ MatcherAgentGA.generations cfg)%nat ->
  exists population0 population best best_fitness g',
    MatcherAgentGA.search cfg matrix target n g
    = Py.Ok ((population0, population, best, best_fitness), g')
    /\ length (MatcherAgentGA.genes best) = n
    /\ best ∈ population
    /\ length population0 = MatcherAgentGA.population_size cfg
    /\ length population = MatcherAgentGA.population_size cfg
    /\ Forall (fun ind => length (MatcherAgentGA.genes ind) = n) population0
    /\ Forall (fun ind => length (MatcherAgentGA.genes ind) = n /\ rated ind)
              population.
Proof.
  intros HM Hn Hpop Hgens. unfold MatcherAgentGA.search.
  destruct (initial_population_total cfg n g)
    as (pop0 & g0 & Hinit & Hlen0 & Hsize).
  rewrite (rand_bind_Ok_l _ _ _ _ _ Hinit).
  destruct (evolve_total cfg matrix target n HM Hn
              (MatcherAgentGA.generations cfg) pop0 g0)
    as (pop & g1 & Hev & Hlen & _ & Hwf); [| done |].
  { intros ->. simpl in Hsize. lia. }
  rewrite (rand_bind_Ok_l _ _ _ _ _ Hev).
  specialize (Hwf (or_introl Hgens)).
  destruct pop as [|x rest]; [simpl in Hlen; lia|].
  apply Forall_cons in Hwf as Hwf'. destruct Hwf' as [[Hwx Hrx] Hrest].
  destruct (first_max_rated x rest Hrx) as (fit & Hfit & Hmax).
  { eapply Forall_impl; [done|]. by intros ind [_ ?]. }
  assert (Hbest :
    well_formed matrix target n (Py.first_max MatcherAgentGA.fitness_ltb x rest)).
  { apply (first_max_preserves MatcherAgentGA.fitness_ltb
             (well_formed matrix target n)); [done|].
    eapply Forall_impl; [done|]. by intros ind [? _]. }
  simpl MatcherAgentGA.selBest1.
  rewrite (rand_bind_Ok_l _ _ _ _ _ (lift_Ok _ _ g1 eq_refl)).
  rewrite Hfit.
  rewrite (rand_bind_Ok_l _ _ _ _ _ (lift_Ok _ _ g1 eq_refl)).
  eexists _, _, _, _, g1. split; [done|]. split; [by destruct Hbest|].
  split.
  { apply (first_max_preserves MatcherAgentGA.fitness_ltb
             (fun ind => ind ∈ x :: rest)); [left|].
    apply Forall_forall. intros y Hy. by right. }
  split; [done|]. split; [by rewrite Hlen|]. split; [done|].
  eapply Forall_impl; [exact Hwf|]. by intros ind [[? _] ?].
Qed.

(** The loop that turns index groups into groups of students, counting
    from [k]. *)
Lemma build_groups_total (matrix : list (list Q)) (students : list student)
    (best_groups : list (list nat)) (k : nat) :
  matrix_covers matrix (length students) ->
  Forall (Forall (fun j => j < length students)%nat) best_groups ->
  exists groups,
    mapM (fun p => MatcherAgentGA.build_group matrix students p.1 p.2)
         (imap (fun idx grp => ((k + idx)%nat, grp)) best_groups)
    = Py.Ok groups
    /\ map members groups
       = map (fun grp => (fun i => students !!! i) <$> grp) best_groups
    /\ map group_num groups = seq (S k) (length best_groups)
    /\ (matrix_bounded matrix (length students) -> scores_in_range groups).
Proof.
  intros HM Hrange. revert k.
  induction Hrange as [|grp best_groups Hgrp _ IH]; intros k.
  - exists []. split; [done|]. split; [done|]. split; [done|]. intros _. constructor.
  - rewrite imap_cons.
    destruct (IH (S k)) as (groups & Hgroups & Hmem & Hnum & Hscore).
    destruct (group_avg_compat_covered matrix (length students) grp HM Hgrp)
      as (avg & Havg).
    set (first := {| group_num := S (k + 0);
                     members := (fun i => students !!! i) <$> grp;
                     compatibility_score := Py.round3 avg |}).
    exists (first :: groups). split; [|split; [|split]].
    + apply mapM_Ok_cons. exists first, groups. split; [|split; [|done]].
      * unfold MatcherAgentGA.build_group. cbn [fst snd].
        rewrite (members_lookup students grp Hgrp), bind_Ok_l, Havg, bind_Ok_l.
        done.
      * rewrite <- Hgroups. f_equal. apply imap_ext. intros i x _. simpl.
        f_equal. lia.
    + simpl. by rewrite Hmem.
    + cbn [map length seq]. rewrite Hnum. simpl. f_equal. lia.
    + intros Hb. constructor; [|by apply Hscore].
      destruct (group_avg_compat_range matrix (length students) grp Hb Hgrp)
        as (avg' & Havg' & Hr).
      rewrite Havg in Havg'. injection Havg' as <-.
      simpl. by apply round3_range.
Qed.

Lemma concat_lookup_groups (students : list student) (best_groups : list (list nat)) :
  concat (map (fun grp => (fun i => students !!! i) <$> grp) best_groups)
  = (fun i => students !!! i) <$> concat best_groups.
Proof.
  induction best_groups as [|grp best_groups IH]; simpl; [done|].
  by rewrite IH, fmap_app.
Qed.

(** What [form_groups_ga] returns for a population of at least two. *)
Lemma form_groups_ga_total (cfg : MatcherAgentGA.config) (students : list student)
    (target : nat) (g : Random.state) :
  (2 ≤ length students)%nat ->
  (1 ≤ MatcherAgentGA.population_size cfg)%nat ->
  (1 ≤ MatcherAgentGA.generations cfg)%nat ->
  exists best groups g',
    MatcherAgentGA.form_groups_ga cfg
      (MatcherAgentGA.create_compatibility_matrix students) target students g
    = Py.Ok (groups, g')
    /\ length best = length students
    /\ map members groups
       = map (fun grp => (fun i => students !!! i) <$> grp)
             (MatcherAgentGA.decode_individual best target)
    /\ numbered_from_one groups
    /\ (Forall traits_on_scale students -> scores_in_range groups).
Proof.
  intros Hn Hpop Hgens.
  set (matrix := MatcherAgentGA.create_compatibility_matrix students).
  pose proof (ga_matrix_covers students) as HM. fold matrix in HM.
  destruct (search_total cfg matrix target (length students) g HM Hn Hpop Hgens)
    as (pop0 & pop & best & fit & g1 & Hsearch & Hlen & _).
  unfold MatcherAgentGA.form_groups_ga.
  rewrite (rand_bind_Ok_l _ _ _ _ _ Hsearch).
  destruct (build_groups_total matrix students
              (MatcherAgentGA.decode_individual (MatcherAgentGA.genes best) target)
              0 HM)
    as (groups & Hgroups & Hmem & Hnum & Hscore).
  { rewrite <- Hlen. apply decode_individual_range. }
  exists (MatcherAgentGA.genes best), groups, g1.
  split; [|split; [done|split; [done|split]]].
  - apply lift_Ok. rewrite <- Hgroups. f_equal.
  - unfold numbered_from_one. rewrite Hnum. f_equal.
    apply (f_equal length) in Hmem. by rewrite !length_map in Hmem.
  - intros Hs. apply Hscore. by apply ga_matrix_bounded.
Qed.

Lemma filter_length_map {A} (P : nat -> Prop) `{forall n, Decision (P n)}
    (f : A -> nat) (l : list A) :
  length (filter (fun x => P (f x)) l) = length (filter P (map f l)).
Proof.
  induction l as [|x l IH]; [done|].
  cbn [map]. rewrite !filter_cons. case_decide; simpl; by rewrite IH.
Qed.

Lemma member_sizes (students : list student) (groups : list group)
    (best_groups : list (list nat)) :
  map members groups
  = map (fun grp => (fun i => students !!! i) <$> grp) best_groups ->
  (fun grp => length (members grp)) <$> groups = length <$> best_groups.
Proof.
  revert best_groups.
  induction groups as [|grp groups IH]; intros [|bg bgs] H; try done.
  injection H as Hm Hms. simpl. rewrite Hm, length_fmap. f_equal. by apply IH.
Qed.

(** X18: for at least three students, a population of at least one genome
    and at least one generation, and every stream of random draws,
    [form_groups_ga] returns at least one group; the groups hold every
    student exactly once, each has between three and seven members, at most
    one has more than five, they are numbered 1, 2, ... in order, and
    their compatibility scores lie in [0, 1] when the Big Five scores of
    the students lie on the 1-5 scale. *)
Theorem form_groups_ga_partition
    (cfg : MatcherAgentGA.config) (students : list student)
    (target : nat) (g : Random.state) :
  (MatcherAgentGA.min_group_size ≤ length students)%nat ->
  (1 ≤ MatcherAgentGA.population_size cfg)%nat ->
  (1 ≤ MatcherAgentGA.generations cfg)%nat ->
  exists groups g',
    MatcherAgentGA.form_groups_ga cfg
      (MatcherAgentGA.create_compatibility_matrix students) target students g
    = Py.Ok (groups, g')
    /\ groups <> []
    /\ concat (members <$> groups) ≡ₚ students
    /\ Forall (fun grp => MatcherAgentGA.min_group_size ≤ length (members grp)
                          ≤ MatcherAgentGA.max_group_size + 2)%nat groups
    /\ (length (filter (fun grp => (MatcherAgentGA.max_group_size
                                    < length (members grp))%nat) groups) ≤ 1)%nat
    /\ numbered_from_one groups
    /\ (Forall traits_on_scale students -> scores_in_range groups).
Proof.
  unfold MatcherAgentGA.min_group_size, MatcherAgentGA.max_group_size.
  intros Hn Hpop Hgens.
  destruct (form_groups_ga_total cfg students target g ltac:(lia) Hpop Hgens)
    as (best & groups & g' & Hret & Hlen & Hmem & Hnum & Hscore).
  exists groups, g'. split; [done|].
  destruct (decode_individual_covers best target) as [Hne Hperm]; [lia|].
  pose proof (decode_individual_sizes best target) as Hsizes.
  pose proof (decode_individual_oversized best target) as Hover.
  set (best_groups := MatcherAgentGA.decode_individual best target) in *.
  pose proof (member_sizes students groups best_groups Hmem) as Hsz.
  change (members <$> groups) with (map members groups). rewrite Hmem.
  split; [|split; [|split; [|split; [|done]]]].
  - intros ->. destruct best_groups; done.
  - rewrite concat_lookup_groups, Hperm, Hlen. by rewrite lookup_total_seq.
  - assert (Hall : Forall (fun n => 3 ≤ n ≤ 7)%nat
                     ((fun grp => length (members grp)) <$> groups)).
    { rewrite Hsz. apply Forall_fmap. exact Hsizes. }
    apply Forall_fmap in Hall. exact Hall.
  - rewrite (filter_length_map (fun n => 5 < n)%nat
               (fun grp => length (members grp))).
    change (map (fun grp => length (members grp)) groups)
      with ((fun grp => length (members grp)) <$> groups).
    rewrite Hsz. rewrite <- (filter_length_map (fun n => 5 < n)%nat length).
    exact Hover.
Qed.

Lemma form_groups_ga_partition_witness :
  exists groups g',
    MatcherAgentGA.form_groups_ga MatcherAgentGA.default_config
      (MatcherAgentGA.create_compatibility_matrix six_students) 4 six_students
      sevens
    = Py.Ok (groups, g')
    /\ groups <> []
    /\ concat (members <$> groups) ≡ₚ six_students
    /\ scores_in_range groups.
Proof.
  destruct (form_groups_ga_partition MatcherAgentGA.default_config
              six_students 4 sevens)
    as (groups & g' & H1 & H2 & H3 & _ & _ & _ & H4).
  - unfold MatcherAgentGA.min_group_size. simpl. lia.
  - simpl. lia.
  - simpl. lia.
  - exists groups, g'. split; [exact H1|]. split; [exact H2|].
    split; [exact H3|]. apply H4, six_students_on_scale.
Defined.

(** ** The evolutionary agent, run as a whole *)

Lemma run_of_groups (cfg : MatcherAgentGA.config) (students : list student)
    (target : nat) (g g' : Random.state) (groups : list group) :
  students <> [] ->
  MatcherAgentGA.form_groups_ga cfg
    (MatcherAgentGA.create_compatibility_matrix students) target students g
  = Py.Ok (groups, g') ->
  MatcherAgentGA.run cfg students target g
  = Py.Ok (match groups with [] => false | _ => true end, groups).
Proof.
  intros Hne Hret. unfold MatcherAgentGA.run.
  destruct students as [|s rest] eqn:E; [done|]. rewrite <- E in *.
  rewrite Hret. by destruct groups.
Qed.

(** X19: [MatcherAgentGA.run] for a population of at least one genome and
    at least one generation, whatever the random draws: with no student or
    with exactly two students it returns False and saves nothing; with
    three or more students it returns True, and the groups it hands to
    [save_groups_to_database] hold every student exactly once. *)
Theorem ga_run_outcome
    (cfg : MatcherAgentGA.config) (students : list student)
    (target : nat) (g : Random.state) :
  (1 ≤ MatcherAgentGA.population_size cfg)%nat ->
  (1 ≤ MatcherAgentGA.generations cfg)%nat ->
  ((length students = 0 \/ length students = 2)%nat ->
   MatcherAgentGA.run cfg students target g = Py.Ok (false, []))
  /\ ((MatcherAgentGA.min_group_size ≤ length students)%nat ->
      exists groups,
        MatcherAgentGA.run cfg students target g = Py.Ok (true, groups)
        /\ groups <> []
        /\ concat (members <$> groups) ≡ₚ students).
Proof.
  unfold MatcherAgentGA.min_group_size. intros Hpop Hgens. split.
  - intros [Hn|Hn].
    + destruct students; [done | simpl in Hn; lia].
    + destruct (form_groups_ga_total cfg students target g ltac:(lia) Hpop Hgens)
        as (best & groups & g' & Hret & Hlen & Hmem & _).
      rewrite (decode_individual_short best target) in Hmem by lia.
      destruct groups; [|done].
      rewrite (run_of_groups cfg students target g g' []); [done | | done].
      intros ->. simpl in Hn. lia.
  - intros Hn.
    destruct (form_groups_ga_total cfg students target g ltac:(lia) Hpop Hgens)
      as (best & groups & g' & Hret & Hlen & Hmem & _).
    destruct (decode_individual_covers best target) as [Hne Hperm]; [lia|].
    assert (Hgroups : groups <> []).
    { intros ->. destruct (MatcherAgentGA.decode_individual best target); done. }
    exists groups. split; [|split; [done|]].
    + rewrite (run_of_groups cfg students target g g' groups); [|  | done].
      * by destruct groups.
      * intros ->. simpl in Hn. lia.
    + change (members <$> groups) with (map members groups).
      rewrite Hmem, concat_lookup_groups, Hperm, Hlen. by rewrite lookup_total_seq.
Qed.

Lemma ga_run_outcome_witness :
  MatcherAgentGA.run MatcherAgentGA.default_config [plain_student; bare_student]
    4 sevens = Py.Ok (false, [])
  /\ exists groups,
       MatcherAgentGA.run MatcherAgentGA.default_config six_students 4 sevens
       = Py.Ok (true, groups)
       /\ groups <> []
       /\ concat (members <$> groups) ≡ₚ six_students.
Proof.
  split.
  - apply (ga_run_outcome MatcherAgentGA.default_config
             [plain_student; bare_student] 4 sevens); [simpl; lia.. | by right].
  - apply (ga_run_outcome MatcherAgentGA.default_config six_students 4 sevens);
      [simpl; lia.. |].
    unfold MatcherAgentGA.min_group_size. simpl. lia.
Defined.

(** ** The greedy constructor, group by group *)

Lemma choice_state {A} (l : list A) (g g' : Random.state) (x : A) :
  Random.choice l g = Py.Ok (x, g') ->
  Random.pos g' = S (Random.pos g) /\ Random.draws g' = Random.draws g.
Proof.
  unfold Random.choice. destruct l as [|a l]; [done|].
  unfold Random.randbelow, Random.next. intros H.
  apply bind_Ok in H as (y & _ & [= _ <-]). done.
Qed.

Lemma matcher_matrix_covers (students : list student) :
  matrix_covers (MatcherAgent.create_compatibility_matrix students)
                (length students).
Proof.
  intros i j Hi Hj.
  unfold mat_get, MatcherAgent.create_compatibility_matrix, Py.index.
  destruct (lookup_lt_is_Some_2 students i Hi) as [si Hsi].
  destruct (lookup_lt_is_Some_2 students j Hj) as [sj Hsj].
  rewrite list_lookup_imap, Hsi. simpl.
  rewrite list_lookup_imap, Hsj. simpl. eauto.
Qed.

Lemma div_mod_step (m target : nat) :
  (0 < target)%nat -> (target ≤ m)%nat ->
  (m / target = S ((m - target) / target)
   /\ m mod target = (m - target) mod target)%nat.
Proof.
  intros Ht Hm.
  assert (E : (m = (m - target) + 1 * target)%nat) by lia.
  rewrite E at 1 3. split.
  - rewrite Nat.div_add by lia. lia.
  - by rewrite Nat.Div0.mod_add.
Qed.

Lemma groups_formed_step (m target : nat) :
  (0 < target)%nat -> (target ≤ m)%nat ->
  groups_formed m target = S (groups_formed (m - target) target)
  /\ left_over m target = left_over (m - target) target.
Proof.
  intros Ht Hm. unfold groups_formed, left_over.
  destruct (div_mod_step m target Ht Hm) as [-> ->]. split; [lia | done].
Qed.

Lemma groups_formed_small (m target : nat) :
  (m < target)%nat ->
  groups_formed m target
  = (if decide (MatcherAgent.min_group_size ≤ m)%nat then 1 else 0)%nat
  /\ left_over m target
     = (if decide (MatcherAgent.min_group_size ≤ m)%nat then 0 else m)%nat.
Proof.
  intros Hm. unfold groups_formed, left_over.
  rewrite Nat.div_small, Nat.mod_small by done. done.
Qed.

Lemma Forall_alter_weaken {A} (P R : A -> Prop) (f : A -> A) (j : nat)
    (l : list A) :
  Forall P l -> (forall x, P x -> R x) -> (forall x, P x -> R (f x)) ->
  Forall R (alter f j l).
Proof.
  intros Hl HPR Hf. revert j.
  induction Hl as [|x l Hx Hl IH]; intros j; [constructor|].
  destruct j as [|j]; simpl.
  - constructor; [by apply Hf|]. eapply Forall_impl; [exact Hl | done].
  - constructor; [by apply HPR | apply IH].
Qed.

Section GreedyShape.

Variable students : list student.
Hypothesis on_scale : Forall traits_on_scale students.

Let n := length students.
Let M := MatcherAgent.create_compatibility_matrix students.

(** One pass of the outer loop: the rest of the students when fewer than
    the target remain, without a draw; otherwise a group of exactly the
    target size, for one draw. *)
Lemma next_group_shape (target : nat) (ungrouped : list nat) (g : Random.state) :
  (MatcherAgent.min_group_size ≤ length ungrouped)%nat ->
  (MatcherAgent.min_group_size ≤ target)%nat ->
  Forall (fun j => j < n)%nat ungrouped ->
  exists grp ungrouped' g',
    MatcherAgent.next_group M target ungrouped g = Py.Ok (grp, ungrouped', g')
    /\ grp ++ ungrouped' ≡ₚ ungrouped
    /\ Random.draws g' = Random.draws g
    /\ (((length ungrouped < target)%nat
         /\ grp = ungrouped /\ ungrouped' = [] /\ g' = g)
        \/ ((target ≤ length ungrouped)%nat
            /\ length grp = target
            /\ Random.pos g' = S (Random.pos g))).
Proof.
  unfold MatcherAgent.min_group_size, M, n. intros Hlen Htarget Hun.
  unfold MatcherAgent.next_group. case_decide as Hlt.
  - exists ungrouped, [], g. split; [done|]. split; [by rewrite app_nil_r|].
    split; [done|]. by left.
  - destruct (choice_elem ungrouped g) as (first & g' & Hchoice & Hin);
      [intros ->; simpl in Hlen; lia|].
    destruct (choice_state _ _ _ _ Hchoice) as [Hpos Hdraws].
    rewrite Hchoice, bind_Ok_l.
    destruct (remove_elem first ungrouped Hin) as (u1 & -> & Hperm).
    rewrite bind_Ok_l.
    assert (Hall : Forall (fun j => j < length students)%nat (first :: u1))
      by (by rewrite <- Hperm).
    apply Forall_cons in Hall as [Hfn Hu1].
    destruct (add_most_compatible_total students on_scale (target - 1) [first] u1)
      as (grp & u' & -> & Hp & Hl); [by constructor | done |].
    rewrite bind_Ok_l. exists grp, u', g'. split; [done|].
    split; [by rewrite Hp, Hperm|]. split; [done|]. right.
    apply Permutation_length in Hperm. simpl in *. split; [lia|]. split; [lia | done].
Qed.

(** The outer loop from [ungrouped] on: it appends [groups_formed] groups,
    numbered from [num], each of a size between the minimum and the target,
    and leaves [left_over] students; a draw is consumed per full group. *)
Lemma form_groups_loop_shape (target fuel : nat) (ungrouped : list nat)
    (groups : list group) (num : nat) (g : Random.state) :
  (MatcherAgent.min_group_size ≤ target)%nat ->
  (length ungrouped ≤ fuel)%nat ->
  Forall (fun j => j < n)%nat ungrouped ->
  exists ungrouped' new g' placed,
    MatcherAgent.form_groups_loop students M target fuel ungrouped groups num g
    = Py.Ok (ungrouped', groups ++ new, g')
    /\ placed ++ ungrouped' ≡ₚ ungrouped
    /\ concat (members <$> new) = (fun i => students !!! i) <$> placed
    /\ Forall (fun grp => MatcherAgent.min_group_size ≤ length (members grp)
                          ≤ target)%nat new
    /\ map group_num new = seq num (length new)
    /\ Forall (fun grp => 0 <= compatibility_score grp <= 1) new
    /\ length new = groups_formed (length ungrouped) target
    /\ length ungrouped' = left_over (length ungrouped) target
    /\ Random.pos g' = (Random.pos g + length ungrouped / target)%nat
    /\ Random.draws g' = Random.draws g.
Proof.
  pose proof next_group_shape as Hnext.
  unfold M, n in *. intros Htarget. revert ungrouped groups num g.
  induction fuel as [|fuel IH]; intros ungrouped groups num g Hfuel Hun.
  - destruct ungrouped; [|simpl in Hfuel; lia].
    exists [], [], g, []. rewrite app_nil_r. cbn [length].
    destruct (groups_formed_small 0 target) as [-> ->];
      [unfold MatcherAgent.min_group_size in Htarget; lia|].
    rewrite Nat.div_small
      by (unfold MatcherAgent.min_group_size in Htarget; simpl; lia).
    unfold MatcherAgent.min_group_size. simpl.
    repeat split; try done; try constructor; lia.
  - cbn [MatcherAgent.form_groups_loop]. case_decide as Hlen.
    + destruct (Hnext target ungrouped g Hlen Htarget Hun)
        as (grp & u1 & g1 & -> & Hperm & Hdraws & Hcase).
      rewrite bind_Ok_l.
      assert (Hall : Forall (fun j => j < length students)%nat (grp ++ u1))
        by (by rewrite Hperm).
      apply Forall_app in Hall as [Hgrp Hu1].
      destruct (group_avg_compat_range
                  (MatcherAgent.create_compatibility_matrix students)
                  (length students) grp) as (avg & -> & Havg);
        [by apply matcher_matrix_bounded | done |].
      rewrite bind_Ok_l.
      rewrite (members_lookup students grp Hgrp), bind_Ok_l.
      assert (Hlen1 : (length u1 ≤ fuel)%nat).
      { apply Permutation_length in Hperm. rewrite length_app in Hperm.
        unfold MatcherAgent.min_group_size in *.
        destruct Hcase as [(_ & _ & -> & _)|(_ & Hg & _)]; simpl in *; lia. }
      match goal with |- context [MatcherAgent.form_groups_loop _ _ _ _ _ ?gs ?k ?r] =>
        destruct (IH u1 gs k r Hlen1 Hu1)
          as (u' & new & g' & placed & -> & Hp & Hc & Hsz & Hnum & Hsc & Hcount
              & Hleft & Hpos & Hdr)
      end.
      set (first := {| group_num := num;
                       members := (fun i => students !!! i) <$> grp;
                       compatibility_score := Py.round3 avg |}).
      exists u', (first :: new), g', (grp ++ placed).
      rewrite <- app_assoc. split; [done|].
      split; [by rewrite <- app_assoc, Hp|].
      split; [by rewrite fmap_cons, concat_cons, Hc, fmap_app|].
      assert (Hsize : (MatcherAgent.min_group_size ≤ length grp ≤ target)%nat).
      { apply Permutation_length in Hperm. rewrite length_app in Hperm.
        unfold MatcherAgent.min_group_size in *.
        destruct Hcase as [(? & -> & -> & _)|(_ & Hg & _)]; simpl in *; lia. }
      split; [constructor; [simpl; by rewrite length_fmap | done]|].
      split; [cbn [map length seq]; by rewrite Hnum|].
      split; [constructor; [simpl; by apply round3_range | done]|].
      apply Permutation_length in Hperm. rewrite length_app in Hperm.
      unfold MatcherAgent.min_group_size in *.
      destruct Hcase as [(Hsmall & -> & -> & ->)|(Hbig & Hg & Hp1)].
      * simpl in Hcount, Hleft, Hpos, Hdr.
        destruct (groups_formed_small (length ungrouped) target Hsmall)
          as [-> ->].
        destruct (groups_formed_small 0 target) as [E1 E2]; [lia|].
        rewrite E1 in Hcount. rewrite E2 in Hleft.
        unfold MatcherAgent.min_group_size in *.
        rewrite !decide_True by lia. rewrite decide_False in Hcount by lia.
        rewrite decide_False in Hleft by lia.
        rewrite (Nat.div_small (length ungrouped)) by done.
        rewrite (Nat.div_small 0) in Hpos by lia.
        cbn [length]. rewrite Hcount, Hleft, Hpos, Hdr. done.
      * destruct (groups_formed_step (length ungrouped) target) as [-> ->];
          [lia | lia |].
        destruct (div_mod_step (length ungrouped) target) as [-> _]; [lia | lia |].
        assert (E : (length u1 = length ungrouped - target)%nat) by lia.
        rewrite E in Hcount, Hleft, Hpos.
        cbn [length]. rewrite Hcount, Hleft, Hpos, Hp1, Hdr, Hdraws.
        repeat split; try done. lia.
    + exists ungrouped, [], g, []. rewrite app_nil_r.
      unfold MatcherAgent.min_group_size in *.
      destruct (groups_formed_small (length ungrouped) target) as [-> ->]; [lia|].
      unfold MatcherAgent.min_group_size.
      rewrite !decide_False by lia.
      rewrite Nat.div_small by lia.
      repeat split; try done; try constructor; lia.
Qed.

(** The leftover students join one group; numbers, scores and the count of
    groups stay as they are. *)
Lemma add_leftovers_shape (ungrouped : list nat) (groups : list group)
    (lo hi : nat) :
  groups <> [] ->
  Forall (fun j => j < n)%nat ungrouped ->
  Forall (fun grp => lo ≤ length (members grp) ≤ hi)%nat groups ->
  exists groups',
    MatcherAgent.add_leftovers students ungrouped groups = Py.Ok groups'
    /\ concat (members <$> groups')
       ≡ₚ concat (members <$> groups) ++ ((fun i => students !!! i) <$> ungrouped)
    /\ map group_num groups' = map group_num groups
    /\ map compatibility_score groups' = map compatibility_score groups
    /\ Forall (fun grp => lo ≤ length (members grp)
                          ≤ hi + length ungrouped)%nat groups'.
Proof.
  unfold n. intros Hne Hun Hsz. unfold MatcherAgent.add_leftovers.
  destruct ungrouped as [|i rest].
  { exists groups. simpl. rewrite app_nil_r. repeat split; try done.
    eapply Forall_impl; [exact Hsz|]. simpl. lia. }
  destruct groups as [|first others]; [done|].
  change (Py.min_index (map _ (first :: others)))
    with (Py.Ok (Py.first_min (length (members first))
                   (map (fun grp => length (members grp)) others))).
  rewrite bind_Ok_l, (members_lookup students (i :: rest) Hun), bind_Ok_l.
  set (j := Py.first_min _ _).
  assert (Hj : (j < length (first :: others))%nat).
  { destruct (first_min_spec (length (members first))
                (map (fun grp => length (members grp)) others)) as (m & Hm & _).
    apply lookup_lt_Some in Hm. simpl in *. by rewrite length_map in Hm. }
  eexists. split; [done|]. split; [by apply concat_members_alter|].
  split; [by apply map_alter_unchanged|].
  split; [by apply map_alter_unchanged|].
  eapply Forall_alter_weaken; [exact Hsz | |].
  - intros grp Hgrp. simpl in *. lia.
  - intros grp Hgrp. cbn [members]. cbv beta in Hgrp.
    rewrite length_app, length_fmap. lia.
Qed.

(** What [form_groups_simple] returns for a population from which a group
    can be formed. *)
Lemma form_groups_simple_returns (target : nat) (g : Random.state) :
  (MatcherAgent.min_group_size ≤ n)%nat ->
  (MatcherAgent.min_group_size ≤ target)%nat ->
  exists groups g',
    MatcherAgent.form_groups_simple students target g = Py.Ok (groups, g')
    /\ groups <> []
    /\ concat (members <$> groups) ≡ₚ students
    /\ map group_num groups = seq 1 (length groups)
    /\ Forall (fun grp => 0 <= compatibility_score grp <= 1) groups
    /\ Forall (fun grp => MatcherAgent.min_group_size ≤ length (members grp)
                          ≤ target + 2)%nat groups
    /\ length groups = groups_formed n target
    /\ Random.pos g' = (Random.pos g + n / target)%nat
    /\ Random.draws g' = Random.draws g.
Proof.
  pose proof form_groups_loop_shape as Hloop.
  pose proof add_leftovers_shape as Hadd.
  unfold M, n in *.
  intros Hn Htarget. unfold MatcherAgent.form_groups_simple.
  assert (Hseq : Forall (fun j => j < length students)%nat
                        (seq 0 (length students))).
  { apply Forall_forall. intros j Hj. apply elem_of_seq in Hj. lia. }
  destruct (Hloop target (length students) (seq 0 (length students)) [] 1%nat g)
    as (u & new & g' & placed & -> & Hperm & Hc & Hsz & Hnum & Hsc & Hcount
        & Hleft & Hpos & Hdr);
    [done | by rewrite length_seq | done |].
  rewrite bind_Ok_l. rewrite app_nil_l. rewrite length_seq in *.
  assert (Hall : Forall (fun j => j < length students)%nat (placed ++ u))
    by (by rewrite Hperm).
  apply Forall_app in Hall as [_ Hu].
  assert (Hnew : new <> []).
  { intros ->. simpl in Hcount. unfold groups_formed in Hcount.
    unfold MatcherAgent.min_group_size in *.
    destruct (decide (length students < target)%nat) as [Hs|Hs].
    - rewrite Nat.div_small, Nat.mod_small in Hcount by done.
      rewrite decide_True in Hcount by done. lia.
    - assert (0 < length students / target)%nat
        by (apply Nat.div_str_pos; lia).
      lia. }
  destruct (Hadd u new MatcherAgent.min_group_size target Hnew Hu Hsz)
    as (groups & -> & Hcat & Hnums & Hscores & Hsizes).
  rewrite bind_Ok_l. exists groups, g'. split; [done|].
  assert (Hlen : length groups = length new).
  { apply (f_equal length) in Hnums. by rewrite !length_map in Hnums. }
  split; [intros ->; by destruct new|].
  split; [by rewrite Hcat, Hc, <- fmap_app, Hperm, lookup_total_seq|].
  split; [by rewrite Hnums, Hlen|].
  split.
  { assert (Hall : Forall (fun x => 0 <= x <= 1) (compatibility_score <$> groups)).
    { change (compatibility_score <$> groups) with (map compatibility_score groups).
      rewrite Hscores. by apply Forall_fmap. }
    apply Forall_fmap in Hall. exact Hall. }
  split.
  { eapply Forall_impl; [exact Hsizes|]. simpl. intros grp.
    assert (length u ≤ 2)%nat; [|lia].
    rewrite Hleft. unfold left_over, MatcherAgent.min_group_size.
    case_decide; lia. }
  split; [by rewrite Hlen|]. done.
Qed.

End GreedyShape.

(** X20: for at least three students on the 1-5 scale and a target size of
    at least three, [form_groups_simple] returns groups numbered 1, 2, ...
    in order, with compatibility scores in [0, 1] and between three and
    target + 2 members each. It forms one group per full target size and
    one more when the rest is at least three students, and it consumes one
    random draw per full group. *)
Theorem form_groups_simple_shape
    (students : list student) (target_group_size : nat) (g : Random.state) :
  (MatcherAgent.min_group_size ≤ length students)%nat ->
  (MatcherAgent.min_group_size ≤ target_group_size)%nat ->
  Forall traits_on_scale students ->
  exists groups g',
    MatcherAgent.form_groups_simple students target_group_size g
    = Py.Ok (groups, g')
    /\ numbered_from_one groups
    /\ scores_in_range groups
    /\ Forall (fun grp => MatcherAgent.min_group_size ≤ length (members grp)
                          ≤ target_group_size + 2)%nat groups
    /\ length groups = groups_formed (length students) target_group_size
    /\ Random.pos g'
       = (Random.pos g + length students / target_group_size)%nat
    /\ Random.draws g' = Random.draws g.
Proof.
  intros Hn Htarget Hscale.
  destruct (form_groups_simple_returns students Hscale target_group_size g Hn Htarget)
    as (groups & g' & Hret & _ & _ & Hnum & Hsc & Hsz & Hcount & Hpos & Hdr).
  exists groups, g'. done.
Qed.

Lemma form_groups_simple_shape_witness :
  exists groups g',
    MatcherAgent.form_groups_simple
      [plain_student; bare_student; plain_student; bare_student;
       bare_student; plain_student; bare_student] 4 sevens
    = Py.Ok (groups, g')
    /\ numbered_from_one groups
    /\ length groups = 2%nat
    /\ Random.pos g' = 1%nat.
Proof.
  destruct (form_groups_simple_shape
              [plain_student; bare_student; plain_student; bare_student;
               bare_student; plain_student; bare_student] 4 sevens)
    as (groups & g' & H1 & H2 & _ & _ & H3 & H4 & _).
  - unfold MatcherAgent.min_group_size. simpl. lia.
  - unfold MatcherAgent.min_group_size. lia.
  - repeat (apply Forall_cons_2;
      [first [exact plain_student_on_scale | exact bare_student_on_scale]|]).
    apply Forall_nil_2.
  - exists groups, g'. split; [exact H1|]. split; [exact H2|].
    split; [exact H3 | exact H4].
Defined.

(** ** The greedy agent, run as a whole *)

Lemma matcher_run_of_groups (students : list student) (target : nat)
    (g g' : Random.state) (groups : list group) :
  students <> [] ->
  MatcherAgent.form_groups_simple students target g = Py.Ok (groups, g') ->
  MatcherAgent.run students target g
  = Py.Ok (match groups with [] => false | _ => true end, groups).
Proof.
  intros Hne Hret. unfold MatcherAgent.run.
  destruct students as [|s rest] eqn:E; [done|]. rewrite <- E in *.
  rewrite Hret. by destruct groups.
Qed.

(** X21: [MatcherAgent.run] (database left out): without students it
    returns False; for at least three students on the 1-5 scale and a
    target size of at least three it returns True, whatever the random
    draws, and the groups it hands to [save_groups_to_database] hold every
    student exactly once. *)
Theorem matcher_run_outcome
    (students : list student) (target_group_size : nat) (g : Random.state) :
  (MatcherAgent.min_group_size ≤ target_group_size)%nat ->
  Forall traits_on_scale students ->
  (students = [] ->
   MatcherAgent.run students target_group_size g = Py.Ok (false, []))
  /\ ((MatcherAgent.min_group_size ≤ length students)%nat ->
      exists groups,
        MatcherAgent.run students target_group_size g = Py.Ok (true, groups)
        /\ groups <> []
        /\ concat (members <$> groups) ≡ₚ students).
Proof.
  intros Htarget Hscale. split; [by intros ->|]. intros Hn.
  destruct (form_groups_simple_returns students Hscale target_group_size g Hn Htarget)
    as (groups & g' & Hret & Hne & Hperm & _).
  exists groups. split; [|done].
  rewrite (matcher_run_of_groups students target_group_size g g' groups); [| |done].
  - by destruct groups.
  - intros ->. unfold MatcherAgent.min_group_size in Hn. simpl in Hn. lia.
Qed.

Lemma matcher_run_outcome_witness :
  exists groups,
    MatcherAgent.run [plain_student; bare_student; plain_student; bare_student] 4
      sevens = Py.Ok (true, groups)
    /\ groups <> []
    /\ concat (members <$> groups)
       ≡ₚ [plain_student; bare_student; plain_student; bare_student].
Proof.
  apply (matcher_run_outcome
           [plain_student; bare_student; plain_student; bare_student] 4 sevens).
  - unfold MatcherAgent.min_group_size. lia.
  - repeat (apply Forall_cons_2;
      [first [exact plain_student_on_scale | exact bare_student_on_scale]|]).
    apply Forall_nil_2.
  - unfold MatcherAgent.min_group_size. simpl. lia.
Defined.

(** ** A population smaller than the target *)

Lemma form_groups_loop_last (students : list student) (matrix : list (list Q))
    (target fuel : nat) (ungrouped : list nat) (groups : list group)
    (num : nat) (g : Random.state) (avg : Q) :
  (0 < fuel)%nat ->
  (MatcherAgent.min_group_size ≤ length ungrouped < target)%nat ->
  group_avg_compat matrix ungrouped = Py.Ok avg ->
  Forall (fun j => j < length students)%nat ungrouped ->
  MatcherAgent.form_groups_loop students matrix target fuel ungrouped groups num g
  = Py.Ok ([], groups ++ [ {| group_num := num;
                              members := (fun i => students !!! i) <$> ungrouped;
                              compatibility_score := Py.round3 avg |} ], g).
Proof.
  intros Hfuel [Hmin Hlt] Havg Hun. destruct fuel as [|fuel]; [lia|].
  cbn [MatcherAgent.form_groups_loop].
  rewrite decide_True by done.
  unfold MatcherAgent.next_group. rewrite decide_True by done.
  rewrite bind_Ok_l, Havg, bind_Ok_l.
  rewrite (members_lookup students _ Hun), bind_Ok_l.
  apply form_groups_loop_small. unfold MatcherAgent.min_group_size. simpl. lia.
Qed.

(** X22: when there are at least three students but fewer than the target
    size, [form_groups_simple] returns a single group numbered 1 that holds
    all students in their input order, without consuming a random draw; no
    condition on the personality scores is needed, since no candidate is
    ever compared. *)
Theorem form_groups_simple_single_group
    (students : list student) (target_group_size : nat) (g : Random.state) :
  (MatcherAgent.min_group_size ≤ length students < target_group_size)%nat ->
  exists score,
    MatcherAgent.form_groups_simple students target_group_size g
    = Py.Ok ([ {| group_num := 1; members := students;
                  compatibility_score := score |} ], g)
    /\ MatcherAgent.run students target_group_size g
       = Py.Ok (true, [ {| group_num := 1; members := students;
                           compatibility_score := score |} ]).
Proof.
  unfold MatcherAgent.min_group_size. intros [Hn Hlt].
  assert (Hseq : Forall (fun j => j < length students)%nat
                        (seq 0 (length students))).
  { apply Forall_forall. intros j Hj. apply elem_of_seq in Hj. lia. }
  destruct (group_avg_compat_covered
              (MatcherAgent.create_compatibility_matrix students)
              (length students) (seq 0 (length students))
              (matcher_matrix_covers students) Hseq) as (avg & Havg).
  assert (Hret : MatcherAgent.form_groups_simple students target_group_size g
                 = Py.Ok ([ {| group_num := 1; members := students;
                               compatibility_score := Py.round3 avg |} ], g)).
  { unfold MatcherAgent.form_groups_simple.
    rewrite (form_groups_loop_last students _ target_group_size (length students)
               (seq 0 (length students)) [] 1 g avg);
      [| lia | rewrite length_seq; unfold MatcherAgent.min_group_size; lia
       | exact Havg | exact Hseq].
    rewrite bind_Ok_l. cbn [MatcherAgent.add_leftovers]. rewrite bind_Ok_l.
    by rewrite lookup_total_seq. }
  exists (Py.round3 avg). split; [exact Hret|].
  assert (Hne : students <> []) by (intros ->; simpl in Hn; lia).
  by rewrite (matcher_run_of_groups _ _ _ _ _ Hne Hret).
Qed.

Lemma form_groups_simple_single_group_witness :
  exists score,
    MatcherAgent.form_groups_simple
      [off_scale_student; plain_student; plain_student] 4 sevens
    = Py.Ok ([ {| group_num := 1;
                  members := [off_scale_student; plain_student; plain_student];
                  compatibility_score := score |} ], sevens)
    /\ MatcherAgent.run [off_scale_student; plain_student; plain_student] 4 sevens
       = Py.Ok (true, [ {| group_num := 1;
                           members := [off_scale_student; plain_student;
                                       plain_student];
                           compatibility_score := score |} ]).
Proof.
  apply (form_groups_simple_single_group
           [off_scale_student; plain_student; plain_student] 4 sevens).
  unfold MatcherAgent.min_group_size. simpl. lia.
Defined.

(** ** The candidate the greedy constructor picks *)

Lemma candidate_scores_bounded (matrix : list (list Q)) (n : nat)
    (grp : list nat) (c : nat) :
  matrix_bounded matrix n -> (c < n)%nat -> Forall (fun j => j < n)%nat grp ->
  exists xs, mapM (fun member => mat_get matrix c member) grp = Py.Ok xs
             /\ avg_compat matrix grp c = Py.sum xs / Py.of_nat (length grp)
             /\ 0 <= avg_compat matrix grp c.
Proof.
  intros HM Hc Hgrp.
  destruct (mapM_Ok_total_with (fun member => mat_get matrix c member)
              (fun x => 0 <= x <= 1) grp) as (xs & Hxs & Hall & _).
  { eapply Forall_impl; [exact Hgrp|]. simpl. intros j Hj. by apply HM. }
  exists xs. unfold avg_compat. rewrite Hxs. split; [done|]. split; [done|].
  apply avg_nonneg. eapply Forall_impl; [exact Hall|]. simpl. intros x Hx. lra.
Qed.

(** The scan continues over [rest] with the best candidate so far, [b],
    found at position [bi] of the candidates [pre] already seen. *)
Lemma best_candidate_go (matrix : list (list Q)) (n : nat)
    (grp rest pre : list nat) (b bi : nat) :
  matrix_bounded matrix n ->
  Forall (fun j => j < n)%nat grp -> Forall (fun j => j < n)%nat rest ->
  pre !! bi = Some b ->
  (forall y, y ∈ pre -> avg_compat matrix grp y <= avg_compat matrix grp b) ->
  (forall j y, (j < bi)%nat -> pre !! j = Some y ->
               avg_compat matrix grp y < avg_compat matrix grp b) ->
  exists c i,
    MatcherAgent.best_candidate_loop matrix grp rest (Some b)
      (avg_compat matrix grp b) = Py.Ok (Some c)
    /\ (pre ++ rest) !! i = Some c
    /\ (forall y, y ∈ pre ++ rest ->
          avg_compat matrix grp y <= avg_compat matrix grp c)
    /\ (forall j y, (j < i)%nat -> (pre ++ rest) !! j = Some y ->
          avg_compat matrix grp y < avg_compat matrix grp c).
Proof.
  intros HM Hgrp Hrest. revert pre b bi.
  induction Hrest as [|x rest Hx _ IH]; intros pre b bi Hb Hmax Hfirst.
  - exists b, bi. rewrite app_nil_r. done.
  - destruct (candidate_scores_bounded matrix n grp x HM Hx Hgrp)
      as (xs & Hxs & Havg & _).
    cbn [MatcherAgent.best_candidate_loop]. rewrite Hxs, bind_Ok_l.
    rewrite <- Havg.
    assert (Hlen : length (pre ++ [x]) = S (length pre))
      by (rewrite length_app; simpl; lia).
    apply lookup_lt_Some in Hb as Hlt.
    destruct (Py.ltb (avg_compat matrix grp b) (avg_compat matrix grp x)) eqn:E.
    + apply ltb_lt in E.
      destruct (IH (pre ++ [x]) x (length pre)) as (c & i & Hc & Hi & Hm & Hf).
      * rewrite lookup_app_r by lia. by rewrite Nat.sub_diag.
      * intros y Hy. apply elem_of_app in Hy as [Hy|Hy].
        -- specialize (Hmax y Hy). lra.
        -- apply list_elem_of_singleton in Hy as ->. lra.
      * intros j y Hj Hy. rewrite lookup_app_l in Hy by lia.
        assert (y ∈ pre) as Hin by (by eapply list_elem_of_lookup_2).
        specialize (Hmax y Hin). lra.
      * rewrite <- app_assoc in Hi, Hm, Hf. exists c, i. done.
    + apply ltb_ge in E.
      destruct (IH (pre ++ [x]) b bi) as (c & i & Hc & Hi & Hm & Hf).
      * by rewrite lookup_app_l.
      * intros y Hy. apply elem_of_app in Hy as [Hy|Hy]; [by apply Hmax|].
        by apply list_elem_of_singleton in Hy as ->.
      * intros j y Hj Hy. rewrite lookup_app_l in Hy by lia. by eapply Hfirst.
      * rewrite <- app_assoc in Hi, Hm, Hf. exists c, i. done.
Qed.

Lemma matcher_matrix_thousandths (students : list student) (i j : nat) (v : Q) :
  mat_get (MatcherAgent.create_compatibility_matrix students) i j = Py.Ok v ->
  thousandths v.
Proof.
  unfold mat_get, Py.index, MatcherAgent.create_compatibility_matrix.
  rewrite list_lookup_imap. destruct (students !! i) as [si|]; simpl; [|done].
  rewrite list_lookup_imap. destruct (students !! j) as [sj|]; simpl; [|done].
  intros [= <-].
  repeat case_decide; [eexists; reflexivity .. | by exists 0%Z].
Qed.

(** X23: the candidate scan of [form_groups_simple], over a matrix of
    scores in [0, 1] rounded to three decimals, as
    [create_compatibility_matrix] builds it: from a non-empty list of
    ungrouped students it always picks one of them, and no candidate has a
    higher average compatibility with the current group than the one
    picked. Which of several candidates of equal average is picked is not
    stated. *)
Theorem best_candidate_has_highest_average
    (matrix : list (list Q)) (n : nat) (grp ungrouped : list nat) :
  matrix_bounded matrix n ->
  (forall i j v, mat_get matrix i j = Py.Ok v -> thousandths v) ->
  Forall (fun j => j < n)%nat grp -> Forall (fun j => j < n)%nat ungrouped ->
  ungrouped <> [] ->
  exists c i,
    MatcherAgent.best_candidate_loop matrix grp ungrouped None (-1)
    = Py.Ok (Some c)
    /\ ungrouped !! i = Some c
    /\ (forall y, y ∈ ungrouped ->
          avg_compat matrix grp y <= avg_compat matrix grp c).
Proof.
  intros HM _ Hgrp Hun Hne. destruct ungrouped as [|x rest]; [done|].
  apply Forall_cons in Hun as [Hx Hrest].
  destruct (candidate_scores_bounded matrix n grp x HM Hx Hgrp)
    as (xs & Hxs & Havg & Hpos).
  cbn [MatcherAgent.best_candidate_loop]. rewrite Hxs, bind_Ok_l, <- Havg.
  rewrite (proj2 (ltb_lt (-1) _)) by lra.
  destruct (best_candidate_go matrix n grp rest [x] x 0 HM Hgrp Hrest)
    as (c & i & Hc & Hi & Hmax & _); [done | | lia |].
  { intros y Hy. apply list_elem_of_singleton in Hy as ->. lra. }
  exists c, i. done.
Qed.

Lemma best_candidate_has_highest_average_witness :
  exists c i,
    MatcherAgent.best_candidate_loop
      (MatcherAgent.create_compatibility_matrix
         [plain_student; bare_student; top_gwa_student; zero_gwa_student])
      [0%nat] [1; 2; 3]%nat None (-1)
    = Py.Ok (Some c)
    /\ [1; 2; 3]%nat !! i = Some c.
Proof.
  destruct (best_candidate_has_highest_average
              (MatcherAgent.create_compatibility_matrix
                 [plain_student; bare_student; top_gwa_student; zero_gwa_student])
              4 [0%nat] [1; 2; 3]%nat)
    as (c & i & H1 & H2 & _).
  - apply (matcher_matrix_bounded
             [plain_student; bare_student; top_gwa_student; zero_gwa_student]).
    apply Forall_cons_2; [exact plain_student_on_scale|].
    repeat (apply Forall_cons_2; [apply map_Forall_empty|]). apply Forall_nil_2.
  - apply matcher_matrix_thousandths.
  - apply Forall_cons_2; [lia | apply Forall_nil_2].
  - repeat (apply Forall_cons_2; [lia|]). apply Forall_nil_2.
  - discriminate.
  - exists c, i. split; [exact H1 | exact H2].
Defined.

(** ** A target size below two *)

Lemma single_avg_compat (matrix : list (list Q)) (first : nat) :
  group_avg_compat matrix [first] = Py.Ok 0.
Proof. reflexivity. Qed.

(** With a target size of 0 or 1 every pass of the outer loop makes a
    group of the one student drawn. *)
Lemma form_groups_loop_singletons (students : list student)
    (matrix : list (list Q)) (target fuel : nat) (ungrouped : list nat)
    (groups : list group) (num : nat) (g : Random.state) :
  (target ≤ 1)%nat ->
  (length ungrouped ≤ fuel)%nat ->
  Forall (fun j => j < length students)%nat ungrouped ->
  exists ungrouped' new g' placed,
    MatcherAgent.form_groups_loop students matrix target fuel ungrouped groups num g
    = Py.Ok (ungrouped', groups ++ new, g')
    /\ placed ++ ungrouped' ≡ₚ ungrouped
    /\ concat (members <$> new) = (fun i => students !!! i) <$> placed
    /\ Forall (fun grp => length (members grp) = 1%nat) new
    /\ length new = (length ungrouped - 2)%nat
    /\ length ungrouped' = (length ungrouped `min` 2)%nat
    /\ Random.pos g' = (Random.pos g + (length ungrouped - 2))%nat.
Proof.
  intros Htarget. revert ungrouped groups num g.
  induction fuel as [|fuel IH]; intros ungrouped groups num g Hfuel Hun.
  - destruct ungrouped; [|simpl in Hfuel; lia].
    exists [], [], g, []. rewrite app_nil_r. simpl.
    repeat split; try done; try constructor; lia.
  - cbn [MatcherAgent.form_groups_loop].
    unfold MatcherAgent.min_group_size. case_decide as Hlen.
    + unfold MatcherAgent.next_group. rewrite decide_False by lia.
      destruct (choice_elem ungrouped g) as (first & g1 & Hchoice & Hin);
        [intros ->; simpl in Hlen; lia|].
      destruct (choice_state _ _ _ _ Hchoice) as [Hpos1 _].
      rewrite Hchoice, bind_Ok_l.
      destruct (remove_elem first ungrouped Hin) as (u1 & -> & Hperm).
      rewrite bind_Ok_l.
      replace (target - 1)%nat with 0%nat by lia.
      cbn [MatcherAgent.add_most_compatible]. rewrite !bind_Ok_l.
      rewrite single_avg_compat, bind_Ok_l.
      assert (Hall : Forall (fun j => j < length students)%nat (first :: u1))
        by (by rewrite <- Hperm).
      apply Forall_cons in Hall as [Hfn Hu1].
      rewrite (members_lookup students [first]), bind_Ok_l
        by (by apply Forall_singleton).
      apply Permutation_length in Hperm as Hlen'. simpl in Hlen'.
      match goal with |- context [MatcherAgent.form_groups_loop _ _ _ _ _ ?gs ?k ?r] =>
        destruct (IH u1 gs k r ltac:(lia) Hu1)
          as (u' & new & g' & placed & -> & Hp & Hc & Hsz & Hcount & Hleft & Hpos)
      end.
      eexists u', (_ :: new), g', (first :: placed).
      rewrite <- app_assoc. split; [done|].
      split; [simpl; by rewrite Hp, Hperm|].
      split; [by rewrite fmap_cons, concat_cons, Hc|].
      split; [by constructor|].
      cbn [length]. rewrite Hcount, Hleft, Hpos, Hpos1. lia.
    + exists ungrouped, [], g, []. rewrite app_nil_r. simpl.
      repeat split; try done; try constructor; lia.
Qed.

Lemma first_min_all_equal (k : nat) (rest : list nat) :
  Forall (fun x => x = k) rest -> Py.first_min k rest = 0%nat.
Proof.
  intros Hall.
  destruct (first_min_spec k rest) as (m & Hm & Hle & Hlt).
  destruct (Py.first_min k rest) as [|r]; [done|].
  specialize (Hlt 0%nat k ltac:(lia) eq_refl).
  assert (m = k); [|lia].
  simpl in Hm. apply list_elem_of_lookup_2 in Hm.
  rewrite Forall_forall in Hall. by apply Hall.
Qed.

(** X24: with a target size of 0 or 1 and at least three students,
    [form_groups_simple] returns n - 2 groups, whatever the scores: every
    pass of the loop makes a group of the single student drawn, and the
    two students left over join the first group. So the first group has
    three members and every other group has one, below the minimum group
    size; one draw is consumed per group. *)
Theorem form_groups_simple_tiny_target
    (students : list student) (target_group_size : nat) (g : Random.state) :
  (target_group_size ≤ 1)%nat ->
  (MatcherAgent.min_group_size ≤ length students)%nat ->
  exists first others g',
    MatcherAgent.form_groups_simple students target_group_size g
    = Py.Ok (first :: others, g')
    /\ length (first :: others) = (length students - 2)%nat
    /\ length (members first) = 3%nat
    /\ Forall (fun grp => length (members grp) = 1%nat) others
    /\ concat (members <$> first :: others) ≡ₚ students
    /\ Random.pos g' = (Random.pos g + (length students - 2))%nat.
Proof.
  unfold MatcherAgent.min_group_size. intros Htarget Hn.
  unfold MatcherAgent.form_groups_simple.
  assert (Hseq : Forall (fun j => j < length students)%nat
                        (seq 0 (length students))).
  { apply Forall_forall. intros j Hj. apply elem_of_seq in Hj. lia. }
  destruct (form_groups_loop_singletons students
              (MatcherAgent.create_compatibility_matrix students)
              target_group_size (length students) (seq 0 (length students))
              [] 1%nat g Htarget)
    as (u & new & g' & placed & -> & Hperm & Hc & Hsz & Hcount & Hleft & Hpos);
    [by rewrite length_seq | done |].
  rewrite length_seq in *. rewrite bind_Ok_l, app_nil_l.
  assert (Hall : Forall (fun j => j < length students)%nat (placed ++ u))
    by (by rewrite Hperm).
  apply Forall_app in Hall as [_ Hu].
  destruct new as [|first others]; [simpl in Hcount; lia|].
  destruct u as [|i rest]; [simpl in Hleft; lia|].
  apply Forall_cons in Hsz as [Hfirst Hothers].
  unfold MatcherAgent.add_leftovers.
  change (Py.min_index (map _ (first :: others)))
    with (Py.Ok (Py.first_min (length (members first))
                   (map (fun grp => length (members grp)) others))).
  rewrite first_min_all_equal.
  2:{ apply Forall_forall. intros x Hx.
      apply list_elem_of_In, in_map_iff in Hx as (grp & <- & Hgrp).
      rewrite Forall_forall in Hothers. rewrite Hfirst.
      by apply Hothers, list_elem_of_In. }
  rewrite bind_Ok_l, (members_lookup students (i :: rest) Hu), bind_Ok_l.
  cbn [alter list_alter].
  eexists _, others, g'. split; [reflexivity|].
  split; [simpl in *; lia|].
  split; [cbn [members]; rewrite length_app, length_fmap, Hfirst, Hleft; lia|].
  split; [done|]. split; [|done].
  rewrite fmap_cons, concat_cons. cbn [members].
  rewrite fmap_cons, concat_cons in Hc.
  rewrite <- app_assoc,
    (Permutation_app_comm ((fun i => students !!! i) <$> i :: rest)),
    app_assoc, Hc, <- fmap_app, Hperm.
  by rewrite lookup_total_seq.
Qed.

Lemma form_groups_simple_tiny_target_witness :
  exists first others g',
    MatcherAgent.form_groups_simple
      [off_scale_student; plain_student; bare_student; plain_student] 1 sevens
    = Py.Ok (first :: others, g')
    /\ length (first :: others) = 2%nat
    /\ length (members first) = 3%nat
    /\ Forall (fun grp => length (members grp) = 1%nat) others.
Proof.
  destruct (form_groups_simple_tiny_target
              [off_scale_student; plain_student; bare_student; plain_student]
              1 sevens)
    as (first & others & g' & H1 & H2 & H3 & H4 & _).
  - lia.
  - unfold MatcherAgent.min_group_size. simpl. lia.
  - exists first, others, g'. split; [exact H1|]. split; [exact H2|].
    split; [exact H3 | exact H4].
Defined.

(** ** The populations of the search *)

(** X25: the search of [form_groups_ga], for at least two students, a
    population of at least one genome and at least one generation, whatever
    the random draws: the initial and the final population both have
    [population_size] genomes, every genome in either has one gene per
    student, every genome of the final population carries a valid fitness,
    and the best genome returned is one of the final population. *)
Theorem search_keeps_population
    (cfg : MatcherAgentGA.config) (students : list student)
    (target : nat) (g : Random.state) :
  (2 ≤ length students)%nat ->
  (1 ≤ MatcherAgentGA.population_size cfg)%nat ->
  (1 ≤ MatcherAgentGA.generations cfg)%nat ->
  exists population0 population best best_fitness g',
    MatcherAgentGA.search cfg
      (MatcherAgentGA.create_compatibility_matrix students) target
      (length students) g
    = Py.Ok ((population0, population, best, best_fitness), g')
    /\ length population0 = MatcherAgentGA.population_size cfg
    /\ length population = MatcherAgentGA.population_size cfg
    /\ Forall (fun ind => length (MatcherAgentGA.genes ind) = length students)
              population0
    /\ Forall (fun ind => length (MatcherAgentGA.genes ind) = length students
                          /\ rated ind) population
    /\ best ∈ population.
Proof.
  intros Hn Hpop Hgens.
  destruct (search_total cfg (MatcherAgentGA.create_compatibility_matrix students)
              target (length students) g (ga_matrix_covers students) Hn Hpop Hgens)
    as (pop0 & pop & best & fit & g' & Hsearch & _ & Hbest & H0 & H1 & Hg0 & Hg1).
  exists pop0, pop, best, fit, g'. done.
Qed.

Lemma search_keeps_population_witness :
  exists population0 population best best_fitness g',
    MatcherAgentGA.search MatcherAgentGA.default_config
      (MatcherAgentGA.create_compatibility_matrix six_students) 4
      (length six_students) sevens
    = Py.Ok ((population0, population, best, best_fitness), g')
    /\ length population0 = 50%nat
    /\ length population = 50%nat
    /\ best ∈ population.
Proof.
  destruct (search_keeps_population MatcherAgentGA.default_config six_students
              4 sevens)
    as (pop0 & pop & best & fit & g' & H1 & H2 & H3 & _ & _ & H4);
    [simpl; lia.. |].
  exists pop0, pop, best, fit, g'. split; [exact H1|]. split; [exact H2|].
  split; [exact H3 | exact H4].
Defined.

(** ** From the students to the rows saved *)

(** Saving groups that hold every student once, when every insert
    succeeds. *)
Lemma saved_rows_of_partition (prefix : string) (insert_id : nat -> option Z)
    (students : list student) (groups : list group) :
  (forall i, truthy_id (insert_id i) = true) ->
  concat (members <$> groups) ≡ₚ students ->
  Forall (fun grp => members grp <> []) groups ->
  let saved := save_groups_loop prefix insert_id 0 groups in
  saved.1.1 = length groups
  /\ length (leaders saved.2) = length groups
  /\ map row_student_id saved.2 ≡ₚ map student_id students.
Proof.
  intros Hok Hperm Hne saved.
  destruct (save_groups_loop_spec prefix insert_id groups 0)
    as (_ & Hcount & Hlead & Hall).
  fold saved in Hcount, Hlead, Hall.
  assert (Hsaved : saved.1.1 = length groups).
  { rewrite Hcount. unfold inserted.
    rewrite filter_all; [by rewrite length_seq|].
    apply Forall_forall. intros i _. by rewrite Hok. }
  split; [done|]. split; [by rewrite Hlead|].
  rewrite Hall by (intros i _; apply Hok).
  change (map members groups) with (members <$> groups).
  change (map student_id (concat (members <$> groups)))
    with (student_id <$> concat (members <$> groups)).
  by rewrite Hperm.
Qed.

Lemma groups_have_members (lo hi : nat) (groups : list group) :
  (0 < lo)%nat ->
  Forall (fun grp => lo ≤ length (members grp) ≤ hi)%nat groups ->
  Forall (fun grp => members grp <> []) groups.
Proof.
  intros Hlo Hall. eapply Forall_impl; [exact Hall|]. simpl.
  intros grp Hsz He. rewrite He in Hsz. simpl in Hsz. lia.
Qed.

(** X27: either agent run end to end on at least three students, when the
    database accepts every group insert: the groups formed are all saved,
    one member row names a leader per group, and the member rows carry the
    id of every student exactly once. The greedy agent does so when the Big
    Five scores lie on the 1-5 scale and the target size is at least three;
    the evolutionary agent does so for every target size and whatever the
    personality scores, when the population and the number of generations
    are at least one. *)
Theorem saved_rows_cover_students
    (insert_id : nat -> option Z) (cfg : MatcherAgentGA.config)
    (students : list student) (target : nat) (g : Random.state) :
  (forall i, truthy_id (insert_id i) = true) ->
  (MatcherAgent.min_group_size ≤ length students)%nat ->
  ((MatcherAgent.min_group_size ≤ target)%nat ->
   Forall traits_on_scale students ->
   exists groups g',
     MatcherAgent.form_groups_simple students target g = Py.Ok (groups, g')
     /\ (MatcherAgent.save_groups_to_database insert_id groups).1.1 = length groups
     /\ length (leaders (MatcherAgent.save_groups_to_database insert_id groups).2)
        = length groups
     /\ map row_student_id (MatcherAgent.save_groups_to_database insert_id groups).2
        ≡ₚ map student_id students)
  /\ ((1 ≤ MatcherAgentGA.population_size cfg)%nat ->
      (1 ≤ MatcherAgentGA.generations cfg)%nat ->
      exists groups g',
        MatcherAgentGA.form_groups_ga cfg
          (MatcherAgentGA.create_compatibility_matrix students) target students g
        = Py.Ok (groups, g')
        /\ (MatcherAgentGA.save_groups_to_database insert_id groups).1.1
           = length groups
        /\ length (leaders
                     (MatcherAgentGA.save_groups_to_database insert_id groups).2)
           = length groups
        /\ map row_student_id
             (MatcherAgentGA.save_groups_to_database insert_id groups).2
           ≡ₚ map student_id students).
Proof.
  unfold MatcherAgent.min_group_size.
  intros Hok Hn. split.
  - intros Htarget Hscale.
    destruct (form_groups_simple_returns students Hscale target g Hn Htarget)
      as (groups & g' & Hret & _ & Hperm & _ & _ & Hsz & _).
    exists groups, g'. split; [done|].
    apply (saved_rows_of_partition "Group " insert_id students groups Hok Hperm).
    apply (groups_have_members MatcherAgent.min_group_size (target + 2));
      [unfold MatcherAgent.min_group_size; lia | done].
  - intros Hpop Hgens.
    destruct (form_groups_ga_total cfg students target g ltac:(lia) Hpop Hgens)
      as (best & groups & g' & Hret & Hlen & Hmem & _).
    destruct (decode_individual_covers best target) as [_ Hperm]; [lia|].
    exists groups, g'. split; [done|].
    apply (saved_rows_of_partition "GA Group " insert_id students groups Hok).
    + change (members <$> groups) with (map members groups).
      rewrite Hmem, concat_lookup_groups, Hperm, Hlen.
      by rewrite lookup_total_seq.
    + pose proof (member_sizes students groups _ Hmem) as Hsz.
      assert (Hall : Forall (fun k => 3 ≤ k ≤ 7)%nat
                       ((fun grp => length (members grp)) <$> groups)).
      { rewrite Hsz. apply Forall_fmap, decode_individual_sizes. }
      apply Forall_fmap in Hall.
      apply (groups_have_members 3 7); [lia | exact Hall].
Qed.

Lemma saved_rows_cover_students_witness :
  (exists groups g',
     MatcherAgent.form_groups_simple six_students 4 sevens = Py.Ok (groups, g')
     /\ (MatcherAgent.save_groups_to_database counting_ids groups).1.1
        = length groups
     /\ map row_student_id (MatcherAgent.save_groups_to_database counting_ids groups).2
        ≡ₚ map student_id six_students)
  /\ (exists groups g',
        MatcherAgentGA.form_groups_ga MatcherAgentGA.default_config
          (MatcherAgentGA.create_compatibility_matrix
             [off_scale_student; plain_student; bare_student; open_student])
          1 [off_scale_student; plain_student; bare_student; open_student] sevens
        = Py.Ok (groups, g')
        /\ (MatcherAgentGA.save_groups_to_database counting_ids groups).1.1
           = length groups
        /\ map row_student_id
             (MatcherAgentGA.save_groups_to_database counting_ids groups).2
           ≡ₚ map student_id
                [off_scale_student; plain_student; bare_student; open_student]).
Proof.
  split.
  - destruct (saved_rows_cover_students counting_ids MatcherAgentGA.default_config
                six_students 4 sevens) as [Hgreedy _].
    + intros i. reflexivity.
    + unfold MatcherAgent.min_group_size. simpl. lia.
    + destruct Hgreedy as (groups & g' & H1 & H2 & _ & H3).
      * unfold MatcherAgent.min_group_size. lia.
      * apply six_students_on_scale.
      * exists groups, g'. split; [exact H1|]. split; [exact H2 | exact H3].
  - destruct (saved_rows_cover_students counting_ids MatcherAgentGA.default_config
                [off_scale_student; plain_student; bare_student; open_student]
                1 sevens) as [_ Hga].
    + intros i. reflexivity.
    + unfold MatcherAgent.min_group_size. simpl. lia.
    + destruct Hga as (groups & g' & H1 & H2 & _ & H3).
      * simpl. lia.
      * simpl. lia.
      * exists groups, g'. split; [exact H1|]. split; [exact H2 | exact H3].
Defined.

(** ** The allocations and the members' task lists *)

Lemma tasks_given_cons a allocations i :
  tasks_given (a :: allocations) i
  = (if decide (CoordinatorAgent.a_member a = i)
     then [CoordinatorAgent.a_task a] else [])
    ++ tasks_given allocations i.
Proof.
  unfold tasks_given. rewrite filter_cons. by case_decide.
Qed.

Lemma allocate_loop_assignments members tasks members' :
  (CoordinatorAgent.allocate_loop members tasks).2 = Py.Ok members' ->
  forall i m, members !! i = Some m ->
    exists m', members' !! i = Some m'
      /\ CoordinatorAgent.assigned_tasks m'
         = CoordinatorAgent.assigned_tasks m
           ++ tasks_given (CoordinatorAgent.allocate_loop members tasks).1 i.
Proof.
  revert members. induction tasks as [|t tasks IH]; intros members; simpl.
  - intros [= <-] i m Hm. exists m. by rewrite app_nil_r.
  - destruct (CoordinatorAgent.allocate_one members t) as [[a ms]|e|] eqn:E;
      simpl; try done.
    specialize (IH ms).
    destruct (CoordinatorAgent.allocate_loop ms tasks) as [more outcome].
    simpl in *. intros H i m Hm.
    apply allocate_one_inv in E as (Ht & Hlt & ->).
    rewrite tasks_given_cons, Ht.
    destruct (decide (CoordinatorAgent.a_member a = i)) as [<-|Hne].
    + destruct (IH H (CoordinatorAgent.a_member a) (CoordinatorAgent.assign_to t m))
        as (m' & Hm' & Htasks).
      { by rewrite list_lookup_alter_eq, Hm. }
      exists m'. split; [done|]. rewrite Htasks. simpl. by rewrite <- app_assoc.
    + destruct (IH H i m) as (m' & Hm' & Htasks).
      { by rewrite list_lookup_alter_ne. }
      exists m'. split; [done|]. by rewrite Htasks.
Qed.

Lemma allocate_loop_members members tasks :
  Forall (fun a => (CoordinatorAgent.a_member a < length members)%nat)
         (CoordinatorAgent.allocate_loop members tasks).1.
Proof.
  revert members. induction tasks as [|t tasks IH]; intros members; simpl;
    [constructor|].
  destruct (CoordinatorAgent.allocate_one members t) as [[a ms]|e|] eqn:E;
    simpl; try constructor.
  - specialize (IH ms).
    destruct (CoordinatorAgent.allocate_loop ms tasks) as [more outcome].
    simpl in *. apply allocate_one_inv in E as (_ & Hlt & ->).
    rewrite length_alter in IH. by constructor.
Qed.

(** X28: what [allocate_tasks] returns and what it leaves on the members
    agree. With a member, a pending task and no negative estimate, every
    allocation names a position inside the group, and the task list of the
    member at each position is exactly the tasks the allocations give to
    that position, in the order they were allocated. *)
Theorem allocations_match_members
    (members : list CoordinatorAgent.member)
    (tasks : list CoordinatorAgent.task) :
  members <> [] -> tasks <> [] ->
  Forall (fun t => 0 <= CoordinatorAgent.estimated_hours t) tasks ->
  exists members',
    (CoordinatorAgent.allocate_tasks members tasks).2 = Py.Ok members'
    /\ length members' = length members
    /\ Forall (fun a => (CoordinatorAgent.a_member a < length members)%nat)
              (CoordinatorAgent.allocate_tasks members tasks).1
    /\ forall i m', members' !! i = Some m' ->
         CoordinatorAgent.assigned_tasks m'
         = tasks_given (CoordinatorAgent.allocate_tasks members tasks).1 i.
Proof.
  intros Hne Htasks Hhours.
  destruct (allocate_tasks_returns members tasks Hne Htasks Hhours)
    as (members' & Hret & Hm).
  exists members'. split; [done|].
  destruct (allocate_loop_conserves _ _ _ Hm) as (_ & _ & Hid & _).
  assert (Hlen : length members' = length members).
  { apply (f_equal length) in Hid. by rewrite !length_map in Hid. }
  split; [done|].
  assert (Halloc : (CoordinatorAgent.allocate_tasks members tasks).1
                   = (CoordinatorAgent.allocate_loop
                        (map CoordinatorAgent.reset_workload members)
                        (CoordinatorAgent.tasks_sorted tasks)).1).
  { unfold CoordinatorAgent.allocate_tasks. by destruct tasks. }
  rewrite Halloc. split.
  - rewrite <- (length_map CoordinatorAgent.reset_workload members).
    apply allocate_loop_members.
  - intros i m' Hm'.
    assert (Hi : (i < length members)%nat)
      by (rewrite <- Hlen; by eapply lookup_lt_Some).
    destruct (lookup_lt_is_Some_2 members i Hi) as [m Hmi].
    destruct (allocate_loop_assignments _ _ _ Hm i
                (CoordinatorAgent.reset_workload m)) as (m'' & Hm'' & Hgiven).
    { change (map CoordinatorAgent.reset_workload members)
        with (CoordinatorAgent.reset_workload <$> members).
      by rewrite list_lookup_fmap, Hmi. }
    rewrite Hm' in Hm''. injection Hm'' as <-. exact Hgiven.
Qed.

Lemma allocations_match_members_witness :
  exists members',
    (CoordinatorAgent.allocate_tasks [skilled_member; unskilled_member]
       [open_task; frontend_task; backend_task]).2 = Py.Ok members'
    /\ length members' = 2%nat
    /\ forall i m', members' !! i = Some m' ->
         CoordinatorAgent.assigned_tasks m'
         = tasks_given
             (CoordinatorAgent.allocate_tasks [skilled_member; unskilled_member]
                [open_task; frontend_task; backend_task]).1 i.
Proof.
  destruct (allocations_match_members [skilled_member; unskilled_member]
              [open_task; frontend_task; backend_task])
    as (members' & H1 & H2 & _ & H3); [done | done | |].
  - repeat (apply Forall_cons_2; [by vm_compute|]). apply Forall_nil_2.
  - exists members'. split; [exact H1|]. split; [exact H2 | exact H3].
Defined.

(** ** What a reported risk means *)

Lemma member_risk_inv members who v :
  (who, v) ∈ CoordinatorAgent.member_risks members ->
  (2 ≤ length members)%nat
  /\ 0 < avg_hours members
  /\ exists m, m ∈ members
       /\ CoordinatorAgent.first_name m = who
       /\ CoordinatorAgent.workload_threshold * avg_hours members
          < Qabs (CoordinatorAgent.assigned_hours m - avg_hours members).
Proof.
  unfold CoordinatorAgent.member_risks. fold (avg_hours members).
  case_decide as Hlen; [|by intros ?%not_elem_of_nil].
  intros Hin. apply list_elem_of_omap in Hin as (m & Hm & Hrisk).
  split; [lia|].
  destruct (Py.ltb 0 (avg_hours members)) eqn:Havg.
  - apply ltb_lt in Havg.
    destruct (Py.ltb CoordinatorAgent.workload_threshold _) eqn:Hv; [|done].
    apply ltb_lt in Hv. injection Hrisk as <- <-.
    split; [done|]. exists m. split; [done|]. split; [done|].
    set (d := Qabs _) in *. clearbody d.
    apply (Qmult_lt_compat_r _ _ (avg_hours members)) in Hv; [|done].
    assert (E : d / avg_hours members * avg_hours members == d) by (field; lra).
    by rewrite E in Hv.
  - destruct (Py.ltb CoordinatorAgent.workload_threshold 0) eqn:Hv; [|done].
    by vm_compute in Hv.
Qed.

Lemma member_risk_complete members m :
  (2 ≤ length members)%nat ->
  0 < avg_hours members ->
  m ∈ members ->
  CoordinatorAgent.workload_threshold * avg_hours members
  < Qabs (CoordinatorAgent.assigned_hours m - avg_hours members) ->
  exists v, (CoordinatorAgent.first_name m, v) ∈ CoordinatorAgent.member_risks members.
Proof.
  intros Hlen Havg Hm Hdev.
  unfold CoordinatorAgent.member_risks. fold (avg_hours members).
  rewrite decide_True by lia.
  eexists. apply list_elem_of_omap. exists m. split; [done|].
  rewrite (proj2 (ltb_lt 0 _) Havg).
  rewrite (proj2 (ltb_lt CoordinatorAgent.workload_threshold _)); [reflexivity|].
  by apply Qlt_shift_div_l.
Qed.

(** X29: what [flag_at_risk_groups] reports, for groups whose members hold
    no negative hours, at a distance from the threshold of 15 percent (at
    the threshold itself the rounding of the code's binary arithmetic
    decides). A reported group is one of the groups given, has at least two
    members and a positive average of hours, and comes with the non-empty
    list of its risks, each of which names a member of that group whose
    hours are off the average by more than 14.9 percent of it. In the other
    direction, in a group of at least two members with a positive average,
    every member whose hours are off the average by 15.1 percent of it or
    more is reported, and the group with that member. *)
Theorem flagged_risks_are_real
    (groups : list CoordinatorAgent.member_group) :
  Forall (fun grp => Forall (fun m => 0 <= CoordinatorAgent.assigned_hours m)
                            (CoordinatorAgent.group_members grp)) groups ->
  (forall name risks,
     (name, risks) ∈ CoordinatorAgent.flag_at_risk_groups groups ->
     exists grp,
       grp ∈ groups
       /\ CoordinatorAgent.group_name grp = name
       /\ risks = CoordinatorAgent.member_risks (CoordinatorAgent.group_members grp)
       /\ risks <> []
       /\ (2 ≤ length (CoordinatorAgent.group_members grp))%nat
       /\ 0 < avg_hours (CoordinatorAgent.group_members grp)
       /\ forall who v, (who, v) ∈ risks ->
            exists m, m ∈ CoordinatorAgent.group_members grp
              /\ CoordinatorAgent.first_name m = who
              /\ 0.149 * avg_hours (CoordinatorAgent.group_members grp)
                 < Qabs (CoordinatorAgent.assigned_hours m
                         - avg_hours (CoordinatorAgent.group_members grp)))
  /\ (forall grp m,
        grp ∈ groups ->
        (2 ≤ length (CoordinatorAgent.group_members grp))%nat ->
        0 < avg_hours (CoordinatorAgent.group_members grp) ->
        m ∈ CoordinatorAgent.group_members grp ->
        0.151 * avg_hours (CoordinatorAgent.group_members grp)
        <= Qabs (CoordinatorAgent.assigned_hours m
                 - avg_hours (CoordinatorAgent.group_members grp)) ->
        (CoordinatorAgent.group_name grp,
         CoordinatorAgent.member_risks (CoordinatorAgent.group_members grp))
          ∈ CoordinatorAgent.flag_at_risk_groups groups
        /\ exists v,
             (CoordinatorAgent.first_name m, v)
               ∈ CoordinatorAgent.member_risks (CoordinatorAgent.group_members grp)).
Proof.
  intros _. split.
  - unfold CoordinatorAgent.flag_at_risk_groups. intros name risks Hin.
    apply list_elem_of_omap in Hin as (grp & Hgrp & Hflag).
    exists grp. split; [done|].
    destruct (CoordinatorAgent.member_risks (CoordinatorAgent.group_members grp))
      as [|[who0 v0] rest] eqn:E; [done|].
    injection Hflag as <- <-. split; [done|]. split; [done|]. split; [done|].
    assert (H0 : (who0, v0) ∈ CoordinatorAgent.member_risks
                                (CoordinatorAgent.group_members grp))
      by (rewrite E; left).
    apply member_risk_inv in H0 as (Hlen & Havg & _).
    split; [done|]. split; [done|].
    intros who v Hv. rewrite <- E in Hv.
    apply member_risk_inv in Hv as (_ & _ & m & Hm & Hwho & Hdev).
    exists m. split; [done|]. split; [done|].
    unfold CoordinatorAgent.workload_threshold in Hdev.
    set (avg := avg_hours _) in *. clearbody avg.
    set (d := Qabs _) in *. clearbody d. lra.
  - intros grp m Hgrp Hlen Havg Hm Hdev.
    destruct (member_risk_complete (CoordinatorAgent.group_members grp) m
                Hlen Havg Hm) as [v Hv].
    { unfold CoordinatorAgent.workload_threshold.
      set (avg := avg_hours _) in *. clearbody avg.
      set (d := Qabs _) in *. clearbody d. lra. }
    split; [|by exists v].
    unfold CoordinatorAgent.flag_at_risk_groups.
    apply list_elem_of_omap. exists grp. split; [done|].
    destruct (CoordinatorAgent.member_risks (CoordinatorAgent.group_members grp));
      [by apply not_elem_of_nil in Hv | done].
Qed.

Lemma flagged_risks_are_real_witness :
  (exists grp,
     grp ∈ [lopsided_group]
     /\ CoordinatorAgent.group_name grp = "Group 1"%string
     /\ (2 ≤ length (CoordinatorAgent.group_members grp))%nat)
  /\ ("Group 1"%string,
      CoordinatorAgent.member_risks (CoordinatorAgent.group_members lopsided_group))
       ∈ CoordinatorAgent.flag_at_risk_groups [lopsided_group]
  /\ exists v,
       ("Ana"%string, v)
         ∈ CoordinatorAgent.member_risks (CoordinatorAgent.group_members lopsided_group).
Proof.
  assert (Hhours : Forall (fun grp =>
            Forall (fun m => 0 <= CoordinatorAgent.assigned_hours m)
                   (CoordinatorAgent.group_members grp)) [lopsided_group]).
  { apply Forall_cons_2; [|apply Forall_nil_2].
    repeat (apply Forall_cons_2; [by vm_compute|]). apply Forall_nil_2. }
  destruct (flagged_risks_are_real [lopsided_group] Hhours) as [Hsound Hcomplete].
  destruct (Hcomplete lopsided_group unskilled_member) as [Hflag Hrisk].
  - left.
  - simpl. lia.
  - by vm_compute.
  - right. left.
  - by vm_compute.
  - destruct (Hsound _ _ Hflag) as (grp & H1 & H2 & _ & _ & H3 & _).
    split; [|split; [exact Hflag | exact Hrisk]].
    exists grp. split; [exact H1|]. split; [exact H2 | exact H3].
Defined.

(** ** The traits the personality score reads *)

(** X30: [calculate_personality_compatibility] reads conscientiousness,
    agreeableness and extraversion only: two students who both have a
    personality row and agree on these three traits get the same score
    against every other student, whatever their openness, neuroticism or
    learning style. *)
Theorem personality_ignores_other_traits (a a' b : student) :
  same_read_traits a a' ->
  MatcherAgent.calculate_personality_compatibility a b
  = MatcherAgent.calculate_personality_compatibility a' b
  /\ MatcherAgent.calculate_personality_compatibility b a
     = MatcherAgent.calculate_personality_compatibility b a'.
Proof.
  intros (Ha & Ha' & Hc & Hg & He).
  unfold MatcherAgent.calculate_personality_compatibility, trait_get.
  rewrite Hc, Hg, He.
  split; repeat case_decide; try reflexivity; tauto.
Qed.

Lemma personality_ignores_other_traits_witness :
  MatcherAgent.calculate_personality_compatibility plain_student keen_student
  = MatcherAgent.calculate_personality_compatibility open_student keen_student
  /\ MatcherAgent.calculate_personality_compatibility keen_student plain_student
     = MatcherAgent.calculate_personality_compatibility keen_student open_student.
Proof.
  apply (personality_ignores_other_traits plain_student open_student keen_student).
  split; [|split; [|split; [|split]]].
  - apply map_non_empty_singleton.
  - apply insert_non_empty.
  - unfold open_student, plain_student. cbn [traits].
    by rewrite lookup_insert_eq, lookup_singleton_eq.
  - unfold open_student, plain_student. cbn [traits].
    by rewrite !lookup_insert_ne, !lookup_singleton_ne.
  - unfold open_student, plain_student. cbn [traits].
    by rewrite !lookup_insert_ne, !lookup_singleton_ne.
Defined.
